(** * tg-utils-bot: the file upload relay

    A shallow embedding of [utils/constants.py],
    [utils/FileUploadBot/FileUpload.py] and [utils/FileUploadBot/utils.py],
    and the properties of the relay proved over it.

    Conventions of the embedding.
    - A Python [str] is a [string]; the separators the code splits on are
      ASCII, so the byte view and the code point view cut at the same places.
    - The dictionary [active_downloads] is a [gmap Z bool], the set
      [cancel_requests] a [gset Z]; Telegram user ids are integers.
    - Library calls whose code is not part of the repository ([urlparse],
      [unquote], the builtins [int], [str.strip] and [str.lower]) are
      operations of the class [PyLib]; every definition and theorem is
      parametric in them.
    - A Python [int] is a [Z]; a finite [float] is the rational it stands
      for, and the conversion of an [int] to a [float] rounds to the nearest
      double, or raises [OverflowError].
    - A handler run is a function of the shared bot state and of what the
      outside world answers (the probe responses, the streamed chunks, the
      clock readings, the callbacks served at the suspension points); it
      returns the new bot state, the effects it performed, and its outcome.
    - A Python exception is a value of [exn]; [try]/[except]/[finally] are
      matches on the result of the protected block.
    - The calls that send or edit a Telegram message return normally,
      except the two whose failure the code provides for: the edit of the
      progress message (guarded by its own [try]) and the [send_*] call of
      the upload.
    - While a handler waits, the other handlers that run are presses of
      cancel buttons; they are part of the world of the run, at the places
      where the code can observe what they did. *)

From Stdlib Require Import ZArith QArith Qminmax String Ascii List Bool Lia.
From stdpp Require Import gmap strings pretty.

Open Scope string_scope.
Open Scope Z_scope.
Open Scope list_scope.

(** ** Python values that the code relies on *)

(** The exceptions that can reach the handlers; [TimeoutError] is
    [asyncio.TimeoutError], [NetworkError] any exception of the HTTP
    client, [TelegramError] any exception of the messenger. *)
Inductive exn : Type :=
| ValueError
| IndexError
| TypeError
| NameError (name : string)
| ZeroDivisionError
| OverflowError
| NetworkError
| TimeoutError
| TelegramError.

Inductive result (A : Type) : Type :=
| Ok (a : A)
| Raise (e : exn).
Arguments Ok {A} a.
Arguments Raise {A} e.

Definition bind {A B : Type} (r : result A) (k : A -> result B) : result B :=
  match r with
  | Ok a => k a
  | Raise e => Raise e
  end.

Notation "r >>= k" := (bind r k) (at level 50, left associativity).

(** [urlparse] gives the path and the query of a URL, or raises
    ([ValueError] on a malformed netloc). *)
Record ParseResult : Type := mkParse { parsed_path : string; parsed_query : string }.

Class PyLib : Type := {
  urlparse : string -> option ParseResult;
  unquote : string -> string;
  py_int : string -> option Z;
  py_strip : string -> string;
  py_lower : string -> string
}.

(** ** String operations of Python used by the code *)

Module PyStr.

(** [sub in s] *)
Fixpoint contains (sub s : string) : bool :=
  String.prefix sub s ||
  match s with
  | EmptyString => false
  | String _ s' => contains sub s'
  end.

(** [s.startswith(p)] *)
Definition startswith (s p : string) : bool := String.prefix p s.

Fixpoint rev_acc (s acc : string) : string :=
  match s with
  | EmptyString => acc
  | String c s' => rev_acc s' (String c acc)
  end.

(** [s.split(sep)] for a non-empty [sep]: [skip] counts the characters of
    a matched separator that are still to be dropped, [cur] is the piece
    read so far, in reverse. *)
Fixpoint split_go (sep : string) (skip : nat) (cur s : string) : list string :=
  match s with
  | EmptyString => [rev_acc cur ""]
  | String c s' =>
      match skip with
      | S k => split_go sep k cur s'
      | O =>
          if String.prefix sep s
          then rev_acc cur "" :: split_go sep (String.length sep - 1) "" s'
          else split_go sep O (String c cur) s'
      end
  end.

Definition split (s sep : string) : list string := split_go sep O "" s.

(** [l[-1]], [l[0]] and [l[1]] *)
Definition item_last (l : list string) : result string :=
  match l with
  | [] => Raise IndexError
  | _ => Ok (List.last l "")
  end.

Definition item (l : list string) (i : nat) : result string :=
  match nth_error l i with
  | Some x => Ok x
  | None => Raise IndexError
  end.

(** [not s] *)
Definition is_empty (s : string) : bool :=
  match s with
  | EmptyString => true
  | String _ _ => false
  end.

End PyStr.

(** ** utils/constants.py *)

Definition MAX_FILE_SIZE : Z := 2 * 1024 * 1024 * 1024.
Definition MAX_PHOTO_SIZE : Z := 10 * 1024 * 1024.

Definition PHOTO_TYPES : list string :=
  [".jpg"; ".jpeg"; ".png"; ".gif"; ".webp"; ".bmp"; ".tiff"].
Definition VIDEO_TYPES : list string :=
  [".mp4"; ".avi"; ".mov"; ".mkv"; ".webm"; ".m4v"; ".3gp"].
Definition AUDIO_TYPES : list string :=
  [".mp3"; ".wav"; ".flac"; ".ogg"; ".aac"; ".m4a"; ".wma"].

Definition mem (x : string) (l : list string) : bool :=
  existsb (String.eqb x) l.

(** ** utils/FileUploadBot/FileUpload.py: the pure helpers *)

Inductive file_type : Type := photo | video | audio | document.

Section FileUpload.
Context `{Lib : PyLib}.

(** [f"file_{int(time.time())}"], [now] being the clock in whole seconds. *)
Definition fallback_name (now : Z) : string := "file_" +:+ pretty now.

(** [not filename or '.' not in filename] *)
Definition no_name (filename : string) : bool :=
  PyStr.is_empty filename || negb (PyStr.contains "." filename).

(** The loop over ['filename', 'file', 'name'] with its [break]. *)
Fixpoint query_lookup (query filename : string) (params : list string)
  : result string :=
  match params with
  | [] => Ok filename
  | param :: rest =>
      if PyStr.contains param query then
        PyStr.item (PyStr.split query (param +:+ "=")) 1 >>= fun after =>
        PyStr.item (PyStr.split after "&") 0 >>= fun value =>
        Ok (unquote value)
      else query_lookup query filename rest
  end.

(** The body of the [try] block of [extract_filename_from_url]. *)
Definition extract_filename_try (url : string) (now : Z) : result string :=
  match urlparse url with
  | None => Raise ValueError
  | Some parsed =>
      let path := unquote (parsed_path parsed) in
      PyStr.item_last (PyStr.split path "/") >>= fun filename =>
      (if no_name filename
       then query_lookup (parsed_query parsed) filename
              ["filename"; "file"; "name"]
       else Ok filename) >>= fun filename =>
      Ok (if no_name filename then fallback_name now else filename)
  end.

Definition extract_filename_from_url (url : string) (now : Z) : string :=
  match extract_filename_try url now with
  | Ok filename => filename
  | Raise _ => fallback_name now
  end.

(** [get_file_type]; [content_type] is [None] for Python's [None]. *)
Definition extension (filename : string) : string :=
  if PyStr.contains "." filename
  then "." +:+ List.last (PyStr.split (py_lower filename) ".") ""
  else "".

Definition get_file_type (filename : string) (content_type : option string)
  : file_type :=
  let ext := extension filename in
  if mem ext PHOTO_TYPES then photo
  else if mem ext VIDEO_TYPES then video
  else if mem ext AUDIO_TYPES then audio
  else
    match content_type with
    | Some ct =>
        if PyStr.is_empty ct then document
        else if PyStr.startswith ct "image/" then photo
        else if PyStr.startswith ct "video/" then video
        else if PyStr.startswith ct "audio/" then audio
        else document
    | None => document
    end.

End FileUpload.

(** *** [format_file_size]

    The function is called with byte counts, which are [int]s, and with
    speeds, which are [float]s. *)
Inductive number : Type :=
| PyInt (n : Z)
| PyFloat (x : Q).

(** The double nearest to the integer [n], as an integer: the 53 leading
    bits of [n], the rest rounded to nearest, ties to the even mantissa. *)
Definition nearest_double (n : Z) : Z :=
  let a := Z.abs n in
  let e := Z.log2 a - 52 in
  if e <=? 0 then n
  else
    let q := a / 2 ^ e in
    let r := a mod 2 ^ e in
    let half := 2 ^ (e - 1) in
    let q' := if r <? half then q
              else if half <? r then q + 1
              else if Z.even q then q else q + 1 in
    Z.sgn n * (q' * 2 ^ e).

(** [float(n)]: "int too large to convert to float" when the nearest
    double is not finite. *)
Definition float_of_int (n : Z) : result Q :=
  let x := nearest_double n in
  if 2 ^ 1024 <=? Z.abs x then Raise OverflowError else Ok (inject_Z x).

Definition to_float (v : number) : result Q :=
  match v with
  | PyInt n => float_of_int n
  | PyFloat x => Ok x
  end.

(** [size_bytes == 0] *)
Definition is_zero (v : number) : bool :=
  match v with
  | PyInt n => n =? 0
  | PyFloat x => Qeq_bool x 0
  end.

(** [size_bytes >= 1024.0]; Python compares an [int] with a [float] by
    value, without converting it. *)
Definition at_least_1024 (v : number) : bool :=
  match v with
  | PyInt n => 1024 <=? n
  | PyFloat x => Qle_bool 1024 x
  end.

(** What [format_file_size] prints: ["0 B"], or a number with one decimal
    and a unit. The number kept here is the float the code reaches before
    the rounding of the format [{:.1f}]; the divisions by [1024.0] are
    exact on floats. *)
Inductive SizeText : Type :=
| ZeroBytes
| Scaled (value : Q) (unit : string).

(** The [while] loop of [format_file_size]: [current] is [size_names[i]],
    [larger] the names after it. The division [size_bytes /= 1024.0]
    converts an [int] to a [float] first. *)
Fixpoint scale_size (size_bytes : number) (current : string)
    (larger : list string) : result (number * string) :=
  match larger with
  | [] => Ok (size_bytes, current)
  | next :: rest =>
      if at_least_1024 size_bytes
      then to_float size_bytes >>= fun x =>
           scale_size (PyFloat (x / 1024)%Q) next rest
      else Ok (size_bytes, current)
  end.

(** The format [{size_bytes:.1f}] of the last line converts an [int] that
    the loop left as it was. *)
Definition format_file_size (size_bytes : number) : result SizeText :=
  if is_zero size_bytes then Ok ZeroBytes
  else
    scale_size size_bytes "B" ["KB"; "MB"; "GB"] >>= fun scaled =>
    to_float (fst scaled) >>= fun x =>
    Ok (Scaled x (snd scaled)).

(** [format_file_size(size) if size else 'Unknown'] *)
Definition size_or_unknown (declared : option Z) : result (option SizeText) :=
  match declared with
  | None => Ok None
  | Some n =>
      if n =? 0 then Ok None
      else format_file_size (PyInt n) >>= fun shown => Ok (Some shown)
  end.

(** ** The shared instance and the effects of the handlers *)

(** [bot_instance]: the two attributes set by [FileUploadBot.__init__]. *)
Record FileUploadBot : Type := mkBot {
  active_downloads : gmap Z bool;
  cancel_requests : gset Z
}.

Definition empty_bot : FileUploadBot := mkBot ∅ ∅.

(** What a progress message shows: with a percentage bar and an estimate,
    or the bytes so far and the speed only. *)
Inductive snapshot : Type :=
| WithPercentage (downloaded total : Z) (speed eta : Q)
| UnknownTotal (downloaded : Z) (speed : Q).

Inductive message : Type :=
| MsgInvalidUrl
| MsgAlreadyActive
| MsgAnalyzing
| MsgNoAccess
| MsgTooLarge (size : Z)
| MsgUploading (ft : file_type) (filename : string) (size : option Z)
| MsgHttpError (status : Z)
| MsgCancelled
| MsgProgress (s : snapshot)
| MsgUploadingToTelegram
| MsgUploadComplete (ft : file_type) (size : Z)
| MsgTimeout
| MsgUploadFailed (e : exn)
| MsgCancelling
| MsgOwnDownloadsOnly.

(** The four [context.bot.send_*] calls. *)
Inductive transport : Type := send_photo | send_video | send_audio | send_document.

(** Calls on the outside world, in the order of execution. [RegistryInsert]
    and [RegistryDelete] mark the executions of
    [active_downloads[user_id] = True] and [del active_downloads[user_id]]. *)
Inductive effect : Type :=
| Reply (m : message)
| EditStatus (m : message)
| DeleteStatus
| SendChatAction
| HttpHead (url : string)
| HttpRangeGet (url : string)
| HttpStream (url : string)
| Upload (t : transport) (filename : string) (data : list Byte.byte)
| LogError (e : exn)
| LogInfo
| AnswerQuery (text : option message) (show_alert : bool)
| OtherBranch (name : string)
| EditQuery (m : message)
| RegistryInsert (user_id : Z)
| RegistryDelete (user_id : Z).

(** ** Handler computations

    A computation reads and writes the shared instance, performs effects and
    either returns or raises; the state and the effects reached before an
    exception are kept, as in Python. *)

Definition M (A : Type) : Type :=
  FileUploadBot -> result A * FileUploadBot * list effect.

Definition ret {A : Type} (a : A) : M A := fun bot => (Ok a, bot, []).

Definition raise {A : Type} (e : exn) : M A := fun bot => (Raise e, bot, []).

Definition bindM {A B : Type} (m : M A) (k : A -> M B) : M B :=
  fun bot =>
    match m bot with
    | (Ok a, bot1, effs1) =>
        let '(r, bot2, effs2) := k a bot1 in (r, bot2, effs1 ++ effs2)
    | (Raise e, bot1, effs1) => (Raise e, bot1, effs1)
    end.

Notation "'call' x := m 'in' k" := (bindM m (fun x => k))
  (at level 10, x name, m at level 100, k at level 200, only parsing).
Notation "'exec' m 'in' k" := (bindM m (fun _ => k))
  (at level 10, m at level 100, k at level 200, only parsing).

Definition emit (e : effect) : M unit := fun bot => (Ok tt, bot, [e]).

Definition lift {A : Type} (r : result A) : M A := fun bot => (r, bot, []).

Definition get_bot : M FileUploadBot := fun bot => (Ok bot, bot, []).

Definition put_bot (bot : FileUploadBot) : M unit := fun _ => (Ok tt, bot, []).

(** [try: body except Exception as e: handler e] *)
Definition catch {A : Type} (body : M A) (handler : exn -> M A) : M A :=
  fun bot =>
    match body bot with
    | (Ok a, bot1, effs1) => (Ok a, bot1, effs1)
    | (Raise e, bot1, effs1) =>
        let '(r, bot2, effs2) := handler e bot1 in (r, bot2, effs1 ++ effs2)
    end.

(** [try: body finally: cleanup] *)
Definition finally {A : Type} (body : M A) (cleanup : M unit) : M A :=
  fun bot =>
    let '(r, bot1, effs1) := body bot in
    match cleanup bot1 with
    | (Ok _, bot2, effs2) => (r, bot2, effs1 ++ effs2)
    | (Raise e, bot2, effs2) => (Raise e, bot2, effs1 ++ effs2)
    end.

(** [user_id in bot_instance.active_downloads] *)
Definition is_active (user_id : Z) (bot : FileUploadBot) : bool :=
  bool_decide (is_Some (active_downloads bot !! user_id)).

(** [user_id in bot_instance.cancel_requests] *)
Definition cancel_requested (user_id : Z) (bot : FileUploadBot) : bool :=
  bool_decide (user_id ∈ cancel_requests bot).

Arguments is_active : simpl never.
Arguments cancel_requested : simpl never.

(** [bot_instance.active_downloads[user_id] = True] *)
Definition set_active (user_id : Z) : M unit :=
  call bot := get_bot in
  exec put_bot (mkBot (<[user_id := true]> (active_downloads bot))
                      (cancel_requests bot)) in
  emit (RegistryInsert user_id).

(** [if user_id in active_downloads: del active_downloads[user_id]] *)
Definition del_active (user_id : Z) : M bool :=
  call bot := get_bot in
  if is_active user_id bot then
    exec put_bot (mkBot (delete user_id (active_downloads bot))
                        (cancel_requests bot)) in
    exec emit (RegistryDelete user_id) in
    ret true
  else ret false.

(** [bot_instance.cancel_requests.add(user_id)] *)
Definition add_cancel (user_id : Z) : M unit :=
  call bot := get_bot in
  put_bot (mkBot (active_downloads bot) ({[user_id]} ∪ cancel_requests bot)).

(** [bot_instance.cancel_requests.discard(user_id)] *)
Definition discard_cancel (user_id : Z) : M unit :=
  call bot := get_bot in
  put_bot (mkBot (active_downloads bot) (cancel_requests bot ∖ {[user_id]})).

(** ** utils/FileUploadBot/utils.py: the cancel button *)

(** A press of a button whose data is ["cancel:<cancel_target>"], by the
    user [from_user]. *)
Record Click : Type := mkClick { from_user : Z; cancel_target : Z }.

(** The branch [query.data.startswith("cancel:")] of [handle_callback],
    [user_id] being [int(query.data[7:])]. It returns whether the request
    was taken. *)
Definition cancel_branch (c : Click) : M bool :=
  let user_id := cancel_target c in
  exec emit LogInfo in
  if from_user c =? user_id then
    exec add_cancel user_id in
    exec emit LogInfo in
    exec emit (EditQuery MsgCancelling) in
    exec emit (AnswerQuery (Some MsgCancelling) false) in
    call removed := del_active user_id in
    exec (if removed : bool then emit LogInfo else ret tt) in
    ret true
  else
    exec emit (AnswerQuery (Some MsgOwnDownloadsOnly) true) in
    ret false.

(** A cancel press handled from [query.answer()] on. *)
Definition serve_click (c : Click) : M bool :=
  exec emit (AnswerQuery None false) in
  cancel_branch c.

(** The presses handled while a transfer waits at a suspension point. *)
Fixpoint serve (cs : list Click) : M unit :=
  match cs with
  | [] => ret tt
  | c :: rest => exec serve_click c in serve rest
  end.

(** The names bound in the module [utils/FileUploadBot/utils.py]: its
    imports, its one global and its functions. *)
Definition utils_globals : list string :=
  ["asyncio"; "io"; "re"; "time"; "httpx"; "ParseMode"; "ChatAction";
   "Update"; "InlineKeyboardButton"; "InlineKeyboardMarkup"; "InputFile";
   "ContextTypes"; "FileUploadBot"; "logger"; "MAX_FILE_SIZE";
   "MAX_PHOTO_SIZE"; "CANCEL_MESSAGE"; "bot_instance"; "ping_command";
   "handle_url"; "download_with_progress"; "help_command";
   "handle_callback"].

(** Reading a global name of that module that is not a builtin. *)
Definition global_name (name : string) : M unit :=
  if mem name utils_globals then ret tt else raise (NameError name).

(** ** The answers of the outside world to one submission *)

Record Response : Type := mkResponse {
  status_code : Z;
  content_length_header : option string;
  content_type_header : option string;
  response_url : string
}.

(** The dictionary returned by [check_url_info]. *)
Record Info : Type := mkInfo {
  size : option Z;
  content_type : string;
  url : string
}.

(** One turn of the loop over [response.aiter_bytes]: the presses served
    while the chunk is awaited and, for a scheduler that would allow it,
    between the write and the second test; the chunk; the clock read after
    it; whether the edit of the status message succeeds. *)
Record ChunkStep : Type := mkStep {
  served_before : list Click;
  chunk : list Byte.byte;
  served_after_write : list Click;
  current_time : Q;
  edit_ok : bool
}.

Record World : Type := mkWorld {
  head_response : result Response;
  get_response : result Response;
  clock : Z;
  served_early : list Click;
  stream_response : result Z;
  first_update_time : Q;
  start_time : Q;
  steps : list ChunkStep;
  read_error : option exn;
  served_at_end : list Click;
  send_result : result unit;
  end_time : Q;
  served_late : list Click
}.

Section Handlers.
Context `{Lib : PyLib}.

(** *** [FileUploadBot.check_url_info] *)

(** [int(content_length) if content_length else None] *)
Definition declared_size (content_length : option string) : result (option Z) :=
  match content_length with
  | None => Ok None
  | Some text =>
      if PyStr.is_empty text then Ok None
      else match py_int text with
           | Some n => Ok (Some n)
           | None => Raise ValueError
           end
  end.

(** The body of the [try] block: the HEAD request, the ranged GET when
    the status of the first answer is not 200, and the dictionary built
    from the headers of the answer that is kept. *)
Definition check_url_info_try (target : string) (w : World) : M Info :=
  exec emit (HttpHead target) in
  call response := lift (head_response w) in
  call response :=
    (if negb (status_code response =? 200)
     then exec emit (HttpRangeGet target) in lift (get_response w)
     else ret response) in
  call declared := lift (declared_size (content_length_header response)) in
  ret (mkInfo declared
              (default "" (content_type_header response))
              (response_url response)).

Definition check_url_info (target : string) (w : World) : M (option Info) :=
  catch (call info := check_url_info_try target w in ret (Some info))
        (fun e => exec emit (LogError e) in ret None).

(** *** [download_with_progress] *)

Record Locals : Type := mkLocals {
  file_data : list Byte.byte;
  downloaded : Z;
  last_update_time : Q
}.

(** How a turn of the loop ends: with the [return] of the function, or
    by going on to the next chunk. *)
Inductive Flow : Type := Return | Next.

Definition Qlt_bool (a b : Q) : bool := negb (Qle_bool b a).

(** [current_time - last_update_time >= 2.0 or downloaded == total_size];
    [total_size] is [info.get('size', 0)], the value stored under the key
    ['size'], which [check_url_info] always sets: [None] when the size is
    not declared. An integer is never equal to [None]. *)
Definition update_due (now last : Q) (done : Z) (total_size : option Z) : bool :=
  Qle_bool 2 (now - last) ||
  match total_size with
  | Some total => done =? total
  | None => false
  end.

(** [total_size > 0]: ordering [None] against an integer raises. *)
Definition total_positive (total_size : option Z) : result (bool * Z) :=
  match total_size with
  | Some total => Ok (0 <? total, total)
  | None => Raise TypeError
  end.

(** [downloaded / (current_time - start_time) if current_time > start_time else 0] *)
Definition speed_at (done : Z) (now start : Q) : Q :=
  if Qlt_bool start now then (inject_Z done / (now - start))%Q else 0%Q.

Definition make_snapshot (positive : bool) (done total : Z) (now start : Q)
  : snapshot :=
  let speed := speed_at done now start in
  if positive then
    WithPercentage done total speed
      (if Qlt_bool 0 speed then (inject_Z (total - done) / speed)%Q else 0%Q)
  else UnknownTotal done speed.

(** Lines 139-171: the progress message after a chunk. *)
Definition progress_update (total_size : option Z) (start : Q)
    (st : ChunkStep) (loc : Locals) : M Locals :=
  let now := current_time st in
  if update_due now (last_update_time loc) (downloaded loc) total_size then
    let loc := mkLocals (file_data loc) (downloaded loc) now in
    call pt := lift (total_positive total_size) in
    let snap := make_snapshot (fst pt) (downloaded loc) (snd pt) now start in
    exec catch (if edit_ok st then emit (EditStatus (MsgProgress snap))
                else raise TelegramError)
               (fun _ => ret tt) in
    ret loc
  else ret loc.

(** The [return] taken when the flag of [user_id] is found set. *)
Definition cancel_exit (user_id : Z) (log : bool) (loc : Locals)
  : M (Flow * Locals) :=
  exec (if log then emit LogInfo else ret tt) in
  exec emit (EditStatus MsgCancelled) in
  exec discard_cancel user_id in
  ret (Return, loc).

(** Lines 122-171: one turn of the loop, for the chunk of [st]. *)
Definition loop_body (user_id : Z) (total_size : option Z) (start : Q)
    (st : ChunkStep) (loc : Locals) : M (Flow * Locals) :=
  exec serve (served_before st) in
  call bot := get_bot in
  if cancel_requested user_id bot then cancel_exit user_id true loc
  else
    let loc := mkLocals (file_data loc ++ chunk st)
                        (downloaded loc + Z.of_nat (length (chunk st)))
                        (last_update_time loc) in
    exec serve (served_after_write st) in
    call bot := get_bot in
    if cancel_requested user_id bot then cancel_exit user_id true loc
    else
      call loc := progress_update total_size start st loc in
      ret (Next, loc).

(** Line 121: the loop over the chunks. *)
Fixpoint stream_loop (user_id : Z) (total_size : option Z) (start : Q)
    (todo : list ChunkStep) (loc : Locals) : M (Flow * Locals) :=
  match todo with
  | [] => ret (Next, loc)
  | st :: rest =>
      call r := loop_body user_id total_size start st loc in
      match r with
      | (Return, loc) => ret (Return, loc)
      | (Next, loc) => stream_loop user_id total_size start rest loc
      end
  end.

(** Lines 188-215: the [send_*] call chosen for the buffer. *)
Definition select_transport (ft : file_type) (len : Z) : transport :=
  match ft with
  | photo => if len <=? MAX_PHOTO_SIZE then send_photo else send_document
  | video => send_video
  | audio => send_audio
  | document => send_document
  end.

(** The call itself: it goes out, and succeeds or raises. *)
Definition send_by_type (ft : file_type) (filename : string)
    (buffer : list Byte.byte) (w : World) : M unit :=
  let len := Z.of_nat (length buffer) in
  exec emit (Upload (select_transport ft len) filename buffer) in
  lift (send_result w).

Inductive DownloadExit : Type :=
| HttpRefused (status : Z)
| CancelledAfter (bytes : Z)
| Uploaded (bytes : Z).

(** Lines 179-227: the upload phase. The caption is an f-string that
    evaluates [datetime.now()]. *)
Definition upload_phase (ft : file_type) (filename : string)
    (buffer : list Byte.byte) (w : World) : M DownloadExit :=
  exec emit (EditStatus MsgUploadingToTelegram) in
  exec global_name "datetime" in
  let len := Z.of_nat (length buffer) in
  exec send_by_type ft filename buffer w in
  exec emit DeleteStatus in
  let total_time := (end_time w - start_time w)%Q in
  if Qeq_bool total_time 0 then raise ZeroDivisionError
  else
    exec emit (Reply (MsgUploadComplete ft len)) in
    ret (Uploaded len).

(** Lines 173-227: the end of the stream (or the exception of the read
    that fails), the last test of the flag, the upload phase. *)
Definition after_loop (ft : file_type) (filename : string) (user_id : Z)
    (w : World) (loc : Locals) : M DownloadExit :=
  exec (match read_error w with
        | Some e => raise e
        | None => ret tt
        end) in
  exec serve (served_at_end w) in
  call bot := get_bot in
  if cancel_requested user_id bot then
    call r := cancel_exit user_id false loc in
    ret (CancelledAfter (downloaded loc))
  else upload_phase ft filename (file_data loc) w.

Definition download_with_progress (info : Info) (filename : string)
    (ft : file_type) (user_id : Z) (w : World) : M DownloadExit :=
  exec emit (HttpStream (url info)) in
  call status := lift (stream_response w) in
  if negb (status =? 200) then
    exec emit (EditStatus (MsgHttpError status)) in
    ret (HttpRefused status)
  else
    let loc := mkLocals [] 0 (first_update_time w) in
    call r := stream_loop user_id (size info) (start_time w) (steps w) loc in
    match r with
    | (Return, loc) => ret (CancelledAfter (downloaded loc))
    | (Next, loc) => after_loop ft filename user_id w loc
    end.

(** *** [handle_url] *)

(** [.+]: at least one character, the first one not a line feed. *)
Definition some_char (s : string) : bool :=
  match s with
  | EmptyString => false
  | String c _ => negb (Ascii.eqb c "010"%char)
  end.

Definition after_prefix (p s : string) : option string :=
  if String.prefix p s
  then Some (String.substring (String.length p)
               (String.length s - String.length p) s)
  else None.

(** [re.match(r'https?://.+', url)] *)
Definition valid_url (target : string) : bool :=
  match after_prefix "http://" target, after_prefix "https://" target with
  | Some rest, _ => some_char rest
  | None, Some rest => some_char rest
  | None, None => false
  end.

(** [info['size'] and info['size'] > MAX_FILE_SIZE] *)
Definition too_large (declared : option Z) : bool :=
  match declared with
  | Some n => negb (n =? 0) && (MAX_FILE_SIZE <? n)
  | None => false
  end.

Inductive Failure : Type :=
| ProbeFailure
| HttpStatus (status : Z)
| Exception (e : exn).

(** The exit taken by a run of [handle_url], named after the states of the
    relay; the two first ones come before any admission. *)
Inductive Outcome : Type :=
| InvalidUrl
| AlreadyActive
| Rejected
| Failed (why : Failure)
| Cancelled (bytes_transferred : Z)
| Completed (bytes_transferred : Z).

(** The [try] block, lines 56-88. The text of the refusal (lines 67-70)
    prints the declared size and the limit with [format_file_size], which
    can raise; the message is edited in only when both texts are there.
    The size printed at line 80 has passed the test of line 66: a
    Content-Length being a count of bytes, its text is built without
    error, and the message [MsgUploading] carries the size itself. *)
Definition handle_url_try (user_id : Z) (target : string) (w : World)
  : M Outcome :=
  call probed := check_url_info target w in
  match probed with
  | None =>
      exec emit (EditStatus MsgNoAccess) in
      ret (Failed ProbeFailure)
  | Some info =>
      let filename := extract_filename_from_url (url info) (clock w) in
      let ft := get_file_type filename (Some (content_type info)) in
      if too_large (size info) then
        call shown := lift (format_file_size (PyInt (default 0 (size info)))) in
        call limit := lift (format_file_size (PyInt MAX_FILE_SIZE)) in
        exec emit (EditStatus (MsgTooLarge (default 0 (size info)))) in
        ret Rejected
      else
        exec emit (EditStatus (MsgUploading ft filename (size info))) in
        exec emit SendChatAction in
        exec serve (served_early w) in
        call r := download_with_progress info filename ft user_id w in
        ret (match r with
             | HttpRefused status => Failed (HttpStatus status)
             | CancelledAfter n => Cancelled n
             | Uploaded n => Completed n
             end)
  end.

(** The two [except] clauses, lines 90-94. *)
Definition handle_url_except (e : exn) : M Outcome :=
  match e with
  | TimeoutError =>
      exec emit (EditStatus MsgTimeout) in
      ret (Failed (Exception e))
  | _ =>
      exec emit (LogError e) in
      exec emit (EditStatus (MsgUploadFailed e)) in
      ret (Failed (Exception e))
  end.

(** The [finally] clause, lines 96-101. *)
Definition handle_url_finally (user_id : Z) : M unit :=
  call removed := del_active user_id in
  discard_cancel user_id.

(** Lines 55-101: the [try] statement with its clauses; the presses
    served during the last wait of the block come before the cleanup. *)
Definition session (user_id : Z) (target : string) (w : World) : M Outcome :=
  finally
    (call outcome := catch (handle_url_try user_id target w)
                           handle_url_except in
     exec serve (served_late w) in
     ret outcome)
    (handle_url_finally user_id).

Definition handle_url (user_id : Z) (text : string) (w : World) : M Outcome :=
  let target := py_strip text in
  if negb (valid_url target) then
    exec emit (Reply MsgInvalidUrl) in
    ret InvalidUrl
  else
    call bot := get_bot in
    if is_active user_id bot then
      exec emit (Reply MsgAlreadyActive) in
      ret AlreadyActive
    else
      exec emit (Reply MsgAnalyzing) in
      exec set_active user_id in
      session user_id target w.

(** *** [handle_callback] *)

(** [s[7:]] *)
Definition drop7 (s : string) : string :=
  String.substring 7 (String.length s - 7) s.

(** The dispatch on [query.data]. The bodies of the branches [help],
    [about] and [upload:] are kept as one mark each. *)
Definition handle_callback (data : string) (presser : Z) : M unit :=
  exec emit (AnswerQuery None false) in
  if String.eqb data "help" then emit (OtherBranch "help")
  else if String.eqb data "about" then emit (OtherBranch "about")
  else if PyStr.startswith data "upload:" then emit (OtherBranch "upload")
  else if PyStr.startswith data "cancel:" then
    match py_int (drop7 data) with
    | Some user_id =>
        call taken := cancel_branch (mkClick presser user_id) in ret tt
    | None => raise ValueError
    end
  else ret tt.

End Handlers.

(** ** The rest of the code: button data, [info_command] *)

(** [f"cancel:{user_id}"], the data of the cancel button (lines 74, 118). *)
Definition cancel_callback_data (user_id : Z) : string :=
  "cancel:" +:+ pretty user_id.

(** [f"upload:{url}"], the data of the button of [info_command]. *)
Definition upload_callback_data (target : string) : string :=
  "upload:" +:+ target.

(** main.py, [info_command]. The texts shown are the value of the run:
    the usage reminder, the refusal of the URL, the failure of the probe,
    or the card of the file with the button when there is one. The card
    prints the declared size (line 90) outside any [try]: an exception of
    [format_file_size] is the exception of the handler. *)
Inductive InfoAnswer : Type :=
| InfoUsage
| InfoBadUrl
| InfoUnreachable
| InfoCard (filename : string) (ft : file_type) (mime : string)
           (declared : option Z) (ready : bool) (button : option string).

(** [url.startswith(('http://', 'https://'))] *)
Definition info_url_ok (target : string) : bool :=
  PyStr.startswith target "http://" || PyStr.startswith target "https://".

(** [not info['size'] or info['size'] <= MAX_FILE_SIZE] *)
Definition fits (declared : option Z) : bool :=
  match declared with
  | None => true
  | Some n => (n =? 0) || (n <=? MAX_FILE_SIZE)
  end.

Section InfoCommand.
Context `{Lib : PyLib}.

Definition info_command (args : list string) (w : World) : M InfoAnswer :=
  match args with
  | [] => ret InfoUsage
  | target :: _ =>
      if negb (info_url_ok target) then ret InfoBadUrl
      else
        call probed := check_url_info target w in
        match probed with
        | None => ret InfoUnreachable
        | Some info =>
            let filename := extract_filename_from_url (url info) (clock w) in
            let ft := get_file_type filename (Some (content_type info)) in
            call shown := lift (size_or_unknown (size info)) in
            ret (InfoCard filename ft (content_type info) (size info)
                   (fits (size info))
                   (if fits (size info)
                    then Some (upload_callback_data target)
                    else None))
        end
  end.

End InfoCommand.

(** ** A concrete library for evaluating the handlers

    Enough of [urlparse], [unquote], [int], [strip] and [lower] for plain
    ASCII texts: a URL of the shape [scheme://host/path?query#fragment],
    no percent escapes, a decimal integer with an optional sign, blanks at
    both ends, the letters A to Z. *)

Module Sample.

Fixpoint take_until (stop : ascii -> bool) (s : string) : string * string :=
  match s with
  | EmptyString => (EmptyString, EmptyString)
  | String c s' =>
      if stop c then (EmptyString, s)
      else let '(a, b) := take_until stop s' in (String c a, b)
  end.

Definition is_one_of (cs : list ascii) (c : ascii) : bool :=
  existsb (Ascii.eqb c) cs.

Fixpoint after_scheme (s : string) : option string :=
  match s with
  | EmptyString => None
  | String c s' =>
      if String.prefix "://" s then Some (String.substring 3 (String.length s - 3) s)
      else if is_one_of ["/"; "?"; "#"]%char c then None
      else after_scheme s'
  end.

Definition sample_urlparse (s : string) : option ParseResult :=
  let rest :=
    match after_scheme s with
    | Some r => snd (take_until (is_one_of ["/"; "?"; "#"]%char) r)
    | None => s
    end in
  let '(path, rest) := take_until (is_one_of ["?"; "#"]%char) rest in
  let query :=
    match rest with
    | String "?" q => fst (take_until (is_one_of ["#"]%char) q)
    | _ => EmptyString
    end in
  Some (mkParse path query).

Definition digit (c : ascii) : option Z :=
  let n := Z.of_nat (nat_of_ascii c) in
  if (48 <=? n) && (n <=? 57) then Some (n - 48) else None.

Fixpoint digits (acc : Z) (s : string) : option Z :=
  match s with
  | EmptyString => Some acc
  | String c s' =>
      match digit c with
      | Some d => digits (10 * acc + d) s'
      | None => None
      end
  end.

Definition sample_int (s : string) : option Z :=
  match s with
  | EmptyString => None
  | String "-" (String c r) => Z.opp <$> digits 0 (String c r)
  | String "+" (String c r) => digits 0 (String c r)
  | _ => digits 0 s
  end.

Definition blank (c : ascii) : bool :=
  is_one_of [" "; "009"; "010"; "011"; "012"; "013"]%char c.

Fixpoint lstrip (s : string) : string :=
  match s with
  | String c s' => if blank c then lstrip s' else s
  | EmptyString => EmptyString
  end.

Definition sample_strip (s : string) : string :=
  PyStr.rev_acc (lstrip (PyStr.rev_acc (lstrip s) "")) "".

Definition lower_ascii (c : ascii) : ascii :=
  let n := nat_of_ascii c in
  if (Nat.leb 65 n && Nat.leb n 90)%bool then ascii_of_nat (n + 32) else c.

Fixpoint sample_lower (s : string) : string :=
  match s with
  | EmptyString => EmptyString
  | String c s' => String (lower_ascii c) (sample_lower s')
  end.

Definition sample_lib : PyLib :=
  {| urlparse := sample_urlparse;
     unquote := fun s => s;
     py_int := sample_int;
     py_strip := sample_strip;
     py_lower := sample_lower |}.

End Sample.

(** ** Reading the result of a run *)

Definition returned {A : Type} (r : result A * FileUploadBot * list effect)
  : result A := fst (fst r).
Definition bot_after {A : Type} (r : result A * FileUploadBot * list effect)
  : FileUploadBot := snd (fst r).
Definition effects_of {A : Type} (r : result A * FileUploadBot * list effect)
  : list effect := snd r.

(** * The vocabulary of the properties *)

(** ** Invariants of a trace

    A relation between the shared instance before, the effects performed
    and the shared instance after. A computation respects it when every
    run of it is in the relation. *)

Definition respects (I : FileUploadBot -> list effect -> FileUploadBot -> Prop)
    {A : Type} (m : M A) : Prop :=
  forall bot, I bot (effects_of (m bot)) (bot_after (m bot)).

(** A computation that never raises, and whose value satisfies [P]. *)
Definition always {A : Type} (P : A -> Prop) (m : M A) : Prop :=
  forall bot, exists a, returned (m bot) = Ok a /\ P a.

(** What a computation returns, when it returns, satisfies [P]. *)
Definition whenever {A : Type} (P : A -> Prop) (m : M A) : Prop :=
  forall bot a, returned (m bot) = Ok a -> P a.

(** ** Entries made and deleted *)

Definition is_delete (user_id : Z) (e : effect) : bool :=
  match e with
  | RegistryDelete u => u =? user_id
  | _ => false
  end.

Definition is_insert (user_id : Z) (e : effect) : bool :=
  match e with
  | RegistryInsert u => u =? user_id
  | _ => false
  end.

Fixpoint occurrences (p : effect -> bool) (effs : list effect) : nat :=
  match effs with
  | [] => O
  | e :: rest => ((if p e then 1 else 0) + occurrences p rest)%nat
  end.

(** The number of executions of [del active_downloads[user_id]]. *)
Definition deletions (user_id : Z) : list effect -> nat :=
  occurrences (is_delete user_id).

(** The number of executions of [active_downloads[user_id] = True]. *)
Definition insertions (user_id : Z) : list effect -> nat :=
  occurrences (is_insert user_id).

Definition entries (user_id : Z) (bot : FileUploadBot) : nat :=
  if is_active user_id bot then 1%nat else 0%nat.

(** Every deletion of the entry of [user_id] takes an entry away, and no
    entry is made. *)
Definition accounted (user_id : Z)
    (b : FileUploadBot) (effs : list effect) (b' : FileUploadBot) : Prop :=
  (deletions user_id effs + entries user_id b' = entries user_id b)%nat /\
  insertions user_id effs = O.

(** The exits of an admitted submission. *)
Definition terminal (o : Outcome) : Prop :=
  match o with
  | InvalidUrl | AlreadyActive => False
  | _ => True
  end.

(** The shared instance once the entry of [user_id] is made. *)
Definition admitted (user_id : Z) (bot : FileUploadBot) : FileUploadBot :=
  mkBot (<[user_id := true]> (active_downloads bot)) (cancel_requests bot).

(** ** Effects that start or finish a transfer *)

(** The streaming GET, the [send_*] call and the message that opens the
    upload phase. *)
Definition is_stream (e : effect) : bool :=
  match e with
  | HttpStream _ => true
  | _ => false
  end.

Definition is_upload (e : effect) : bool :=
  match e with
  | Upload _ _ _ => true
  | EditStatus MsgUploadingToTelegram => true
  | _ => false
  end.

Definition quiet_effect (e : effect) : bool := negb (is_stream e || is_upload e).

Definition quiet (b : FileUploadBot) (effs : list effect) (b' : FileUploadBot)
  : Prop := forallb quiet_effect effs = true.

(** No [send_*] call and no opening of the upload phase among the effects. *)
Definition no_upload (effs : list effect) : Prop :=
  forall e, In e effs -> is_upload e = false.

(** ** Chunks and calm turns *)

(** [response.aiter_bytes(chunk_size=size)] of the HTTP client: the body
    cut into pieces of [size] bytes, the last one being what is left. *)
Fixpoint chunks_go (fuel size : nat) (body : list Byte.byte)
  : list (list Byte.byte) :=
  match fuel with
  | O => []
  | S fuel' =>
      match body with
      | [] => []
      | _ => firstn size body :: chunks_go fuel' size (skipn size body)
      end
  end.

Definition aiter_bytes (size : nat) (body : list Byte.byte)
  : list (list Byte.byte) :=
  chunks_go (length body) size body.

(** A press that sets the cancel flag of [user_id]. *)
Definition cancels (user_id : Z) (c : Click) : bool :=
  (from_user c =? user_id) && (cancel_target c =? user_id).

(** A turn of the loop during which the flag of [user_id] is not set and,
    when no size is declared, no progress update is due. *)
Definition calm (user_id : Z) (total_size : option Z) (last : Q)
    (st : ChunkStep) : Prop :=
  forallb (fun c => negb (cancels user_id c)) (served_before st) = true /\
  forallb (fun c => negb (cancels user_id c)) (served_after_write st) = true /\
  (total_size = None -> Qle_bool 2 (current_time st - last) = false).

(** ** Worlds of the scenarios *)

(** The HEAD request is refused with 405, the ranged GET answers 404 with
    an error page. *)
Definition refused_world : World :=
  mkWorld (Ok (mkResponse 405 None None "https://example.com/missing.bin"))
          (Ok (mkResponse 404 (Some "1234") (Some "text/html")
                 "https://example.com/missing.bin"))
          0 [] (Ok 404) 0%Q 0%Q [] None [] (Ok tt) 1%Q [].

(** The probe finds no Content-Length; the body is empty. *)
Definition empty_body_world : World :=
  mkWorld (Ok (mkResponse 200 None None "https://example.com/download"))
          (Raise NetworkError) 1700000000 [] (Ok 200) 0%Q 0%Q [] None []
          (Ok tt) 1%Q [].

(** The probe finds no Content-Length; one chunk arrives three seconds
    after the start. *)
Definition slow_chunk_world : World :=
  mkWorld (Ok (mkResponse 200 None None "https://example.com/download"))
          (Raise NetworkError) 1700000000 [] (Ok 200) 0%Q 0%Q
          [mkStep [] (repeat Byte.x00 16) [] 3%Q true] None []
          (Ok tt) 4%Q [].

(** The probe declares 16384 bytes; the owner presses cancel while the
    second chunk of 8192 bytes is awaited. *)
Definition cancel_between_world : World :=
  mkWorld (Ok (mkResponse 200 (Some "16384") None "https://example.com/a.bin"))
          (Raise NetworkError) 1700000000 [] (Ok 200) 0%Q 0%Q
          [mkStep [] (repeat Byte.x00 (Z.to_nat 8192)) [] 1%Q true;
           mkStep [mkClick 7 7] (repeat Byte.x01 (Z.to_nat 8192)) [] 2%Q true]
          None [] (Ok tt) 3%Q [].

(** The magnitude from which an [int] has no [float]: half a unit of the
    last place below 2^1024. *)
Definition float_limit : Z := 2 ^ 1024 - 2 ^ 970.

Fixpoint zeros (n : nat) : string :=
  match n with
  | O => EmptyString
  | S n' => String "0" (zeros n')
  end.

(** The probe declares a size of 2 followed by 308 zeros. *)
Definition huge_size_world : World :=
  mkWorld (Ok (mkResponse 200 (Some (String "2" (zeros 308))) None
                 "https://example.com/big.iso"))
          (Raise NetworkError) 1700000000 [] (Ok 200) 0%Q 0%Q [] None []
          (Ok tt) 1%Q [].

(** A picture of three bytes, declared as such and served in one chunk. *)
Definition small_photo_world : World :=
  mkWorld (Ok (mkResponse 200 (Some "3") (Some "image/png")
                 "https://example.com/pic.png"))
          (Raise NetworkError) 1700000000 [] (Ok 200) 0%Q 0%Q
          [mkStep [] (repeat Byte.x00 3) [] 1%Q true] None []
          (Ok tt) 2%Q [].

(** The loop as [download_with_progress] starts it. *)
Definition first_loop (info : Info) (user_id : Z) (w : World)
    (todo : list ChunkStep) : M (Flow * Locals) :=
  stream_loop user_id (size info) (start_time w) todo
    (mkLocals [] 0 (first_update_time w)).

(** ** Effects allowed in a trace *)

(** Every effect of the trace passes the test [ok]. *)
Definition only (ok : effect -> bool)
    (b : FileUploadBot) (effs : list effect) (b' : FileUploadBot) : Prop :=
  forallb ok effs = true.

Definition not_send (e : effect) : bool :=
  match e with
  | Upload _ _ _ => false
  | _ => true
  end.

Definition not_progress (e : effect) : bool :=
  match e with
  | EditStatus (MsgProgress _) => false
  | _ => true
  end.

Definition not_refusal (e : effect) : bool :=
  match e with
  | EditStatus (MsgTooLarge _) => false
  | _ => true
  end.

(** ** What a run leaves alone *)

(** The presses served during a turn, and during a whole submission. *)
Definition step_presses (st : ChunkStep) : list Click :=
  served_before st ++ served_after_write st.

Definition presses (w : World) : list Click :=
  served_early w ++ flat_map step_presses (steps w)
  ++ served_at_end w ++ served_late w.

(** The entry and the flag of [v] are the same before and after. *)
Definition untouched (v : Z)
    (b : FileUploadBot) (effs : list effect) (b' : FileUploadBot) : Prop :=
  active_downloads b' !! v = active_downloads b !! v /\
  cancel_requested v b' = cancel_requested v b.

(** [c in s] for a character. *)
Fixpoint has_char (c : ascii) (s : string) : bool :=
  match s with
  | EmptyString => false
  | String a s' => Ascii.eqb a c || has_char c s'
  end.

(** * Properties *)

(** ** The file name of a URL *)

Section FileNameFacts.
Context `{Lib : PyLib}.

Lemma fallback_name_not_empty now : fallback_name now <> "".
Proof. unfold fallback_name. simpl. discriminate. Qed.

Lemma no_name_false filename :
  no_name filename = false ->
  filename <> "" /\ PyStr.contains "." filename = true.
Proof.
  unfold no_name. intros H. apply orb_false_elim in H as [He Hd].
  split.
  - intros ->. discriminate He.
  - now apply negb_false_iff in Hd.
Qed.

(** C9. [extract_filename_from_url] is a total function of the URL text
    (no exception leaves it, whatever [urlparse] and [unquote] do): its
    value is never the empty string, and it is either a name with a dot
    in it or the name [file_<seconds>] made from the clock. *)
Theorem extract_filename_from_url_total (target : string) (now : Z) :
  extract_filename_from_url target now <> "" /\
  (PyStr.contains "." (extract_filename_from_url target now) = true \/
   extract_filename_from_url target now = "file_" +:+ pretty now).
Proof.
  unfold extract_filename_from_url, extract_filename_try.
  destruct (urlparse target) as [parsed|]; simpl.
  2: { split; [apply fallback_name_not_empty | now right]. }
  destruct (PyStr.item_last _) as [name|e]; simpl.
  2: { split; [apply fallback_name_not_empty | now right]. }
  destruct (if no_name name then _ else _) as [name'|e]; simpl.
  2: { split; [apply fallback_name_not_empty | now right]. }
  destruct (no_name name') eqn:Hn.
  - split; [apply fallback_name_not_empty | now right].
  - apply no_name_false in Hn as [Hne Hdot]. split; [exact Hne | now left].
Qed.

End FileNameFacts.

(** The inputs named by the specification, on the sample library. *)
#[local] Existing Instance Sample.sample_lib.

Example extract_filename_empty :
  extract_filename_from_url "" 1700000000 = "file_1700000000".
Proof. reflexivity. Qed.

Example extract_filename_no_extension :
  extract_filename_from_url "https://example.com/download" 1700000000
  = "file_1700000000".
Proof. reflexivity. Qed.

Example extract_filename_query_only :
  extract_filename_from_url "?file=report.pdf&x=1" 1700000000 = "report.pdf".
Proof. reflexivity. Qed.

(** [param in query_params] holds, [param=] does not occur: the index 1 is
    out of range and the [except] clause answers. *)
Example extract_filename_index_error :
  extract_filename_try "https://example.com/get?myfile" 5 = Raise IndexError /\
  extract_filename_from_url "https://example.com/get?myfile" 5 = "file_5".
Proof. split; reflexivity. Qed.

(** ** The transport of the upload *)

(** The chain of lines 188-215, taken alone: [send_photo] exactly for a
    photo of at most [MAX_PHOTO_SIZE] bytes (10 MiB); a larger photo would
    go out with [send_document]; a video with [send_video] and an audio
    file with [send_audio] whatever their size. No run of
    [download_with_progress] gets to the chain: line 186 raises before. *)
Lemma photo_limit_routing (ft : file_type) (filename : string)
    (buffer : list Byte.byte) (w : World) (bot : FileUploadBot) :
  let len := Z.of_nat (length buffer) in
  MAX_PHOTO_SIZE = 10 * 1024 * 1024 /\
  effects_of (send_by_type ft filename buffer w bot)
    = [Upload (select_transport ft len) filename buffer] /\
  (select_transport ft len = send_photo <-> ft = photo /\ len <= MAX_PHOTO_SIZE) /\
  (ft = photo /\ MAX_PHOTO_SIZE < len -> select_transport ft len = send_document) /\
  (ft = video -> select_transport ft len = send_video) /\
  (ft = audio -> select_transport ft len = send_audio).
Proof.
  intros len. split; [reflexivity|]. split.
  { unfold send_by_type, bindM, emit, lift, effects_of. simpl.
    now destruct (send_result w). }
  repeat split.
  - destruct ft; simpl; try discriminate; reflexivity.
  - destruct ft; simpl in *; try discriminate.
    destruct (Z.leb_spec len MAX_PHOTO_SIZE); [assumption | discriminate].
  - intros [-> Hle]. simpl. now apply Z.leb_le in Hle as ->.
  - intros [-> Hlt]. simpl. now apply Z.leb_gt in Hlt as ->.
  - now intros ->.
  - now intros ->.
Qed.

Lemma photo_limit_routing_witness :
  select_transport photo (Z.of_nat (length (repeat Byte.x00 3))) = send_photo /\
  select_transport video (Z.of_nat (length (repeat Byte.x00 3))) = send_video.
Proof.
  pose proof (photo_limit_routing photo "a.png" (repeat Byte.x00 3)
                (mkWorld (Raise NetworkError) (Raise NetworkError) 0 []
                   (Ok 200) 0%Q 0%Q [] None [] (Ok tt) 1%Q [])
                empty_bot) as Hp.
  pose proof (photo_limit_routing video "a.mp4" (repeat Byte.x00 3)
                (mkWorld (Raise NetworkError) (Raise NetworkError) 0 []
                   (Ok 200) 0%Q 0%Q [] None [] (Ok tt) 1%Q [])
                empty_bot) as Hv.
  split.
  - apply Hp. split; [reflexivity | vm_compute; discriminate].
  - apply Hv. reflexivity.
Defined.

(** ** The probe *)

Section ProbeFacts.
Context `{Lib : PyLib}.

(** The probe never raises and leaves the shared instance alone. *)
Lemma check_url_info_returns (target : string) (w : World) (bot : FileUploadBot) :
  exists (probed : option Info) (effs : list effect),
    check_url_info target w bot = (Ok probed, bot, effs).
Proof.
  unfold check_url_info, check_url_info_try, catch, bindM, emit, lift, ret.
  destruct (head_response w) as [h|e]; simpl; [|eauto].
  destruct (negb (status_code h =? 200)); simpl.
  - destruct (get_response w) as [g|e]; simpl; [|eauto].
    destruct (declared_size _); simpl; eauto.
  - destruct (declared_size _); simpl; eauto.
Qed.

(** C6, as the code has it. [check_url_info] never raises. It returns
    [None], after logging the exception, when the HEAD request raises (a
    network failure, a timeout), and when the HEAD answer has a status
    other than 200 and the ranged GET raises. The answer that is kept is
    the HEAD answer when its status is 200, the answer of the ranged GET
    otherwise, whose status is not looked at: the result is the dictionary
    built from the headers of the kept answer, unless its Content-Length
    text is not an integer, which is a logged failure too. *)
Theorem check_url_info_failure (target : string) (w : World) (bot : FileUploadBot) :
  (exists probed, returned (check_url_info target w bot) = Ok probed) /\
  (forall e, head_response w = Raise e ->
     returned (check_url_info target w bot) = Ok None /\
     In (LogError e) (effects_of (check_url_info target w bot))) /\
  (forall h e, head_response w = Ok h -> status_code h <> 200 ->
     get_response w = Raise e ->
     returned (check_url_info target w bot) = Ok None /\
     In (LogError e) (effects_of (check_url_info target w bot))) /\
  (forall h g, head_response w = Ok h -> status_code h <> 200 ->
     get_response w = Ok g ->
     match declared_size (content_length_header g) with
     | Ok declared =>
         returned (check_url_info target w bot)
         = Ok (Some (mkInfo declared (default "" (content_type_header g))
                            (response_url g)))
     | Raise e =>
         returned (check_url_info target w bot) = Ok None /\
         In (LogError e) (effects_of (check_url_info target w bot))
     end) /\
  (forall h, head_response w = Ok h -> status_code h = 200 ->
     match declared_size (content_length_header h) with
     | Ok declared =>
         returned (check_url_info target w bot)
         = Ok (Some (mkInfo declared (default "" (content_type_header h))
                            (response_url h)))
     | Raise e =>
         returned (check_url_info target w bot) = Ok None /\
         In (LogError e) (effects_of (check_url_info target w bot))
     end).
Proof.
  split.
  { destruct (check_url_info_returns target w bot) as (p & effs & ->).
    now exists p. }
  unfold check_url_info, check_url_info_try, catch, bindM, emit, lift, ret,
    returned, effects_of.
  split; [|split; [|split]].
  - intros e ->. simpl. auto.
  - intros h e -> Hs ->. simpl.
    apply Z.eqb_neq in Hs as ->. simpl. auto.
  - intros h g -> Hs ->. simpl.
    apply Z.eqb_neq in Hs as ->. simpl.
    destruct (declared_size _); simpl; auto.
  - intros h -> Hs. simpl.
    apply Z.eqb_eq in Hs as ->. simpl.
    destruct (declared_size _); simpl; auto.
Qed.

End ProbeFacts.

Lemma check_url_info_failure_witness :
  returned (check_url_info "https://example.com/missing.bin"
              (mkWorld (Ok (mkResponse 405 None None "u")) (Raise TimeoutError)
                 0 [] (Ok 404) 0%Q 0%Q [] None [] (Ok tt) 1%Q [])
              empty_bot) = Ok None.
Proof.
  eapply (check_url_info_failure "https://example.com/missing.bin"
            (mkWorld (Ok (mkResponse 405 None None "u")) (Raise TimeoutError)
               0 [] (Ok 404) 0%Q 0%Q [] None [] (Ok tt) 1%Q [])
            empty_bot).
  - reflexivity.
  - simpl. lia.
  - reflexivity.
Defined.

(** C6, as stated, fails: both attempts get a status that is not a success,
    and the probe returns a result all the same, with the size of the error
    page as the declared size. *)
Lemma check_url_info_both_refused :
  (exists h g,
     head_response refused_world = Ok h /\ status_code h <> 200 /\
     get_response refused_world = Ok g /\ status_code g <> 200) /\
  returned (check_url_info "https://example.com/missing.bin" refused_world empty_bot)
  = Ok (Some (mkInfo (Some 1234) "text/html" "https://example.com/missing.bin")).
Proof.
  split.
  - eexists _, _. repeat split; simpl; lia.
  - reflexivity.
Qed.

(** ** The cancel button *)

Section CancelFacts.
Context `{Lib : PyLib}.

Lemma cancel_branch_denied (c : Click) (bot : FileUploadBot) :
  from_user c <> cancel_target c ->
  cancel_branch c bot
  = (Ok false, bot, [LogInfo; AnswerQuery (Some MsgOwnDownloadsOnly) true]).
Proof.
  intros Hne. unfold cancel_branch, bindM, emit, ret.
  apply Z.eqb_neq in Hne as ->. reflexivity.
Qed.

Lemma prefix_cons (c a : ascii) (p s : string) :
  String.prefix (String c p) (String a s)
  = if ascii_dec c a then String.prefix p s else false.
Proof. reflexivity. Qed.

Lemma cancel_prefix_not_other (data : string) :
  PyStr.startswith data "cancel:" = true ->
  String.eqb data "help" = false /\ String.eqb data "about" = false /\
  PyStr.startswith data "upload:" = false.
Proof.
  unfold PyStr.startswith. destruct data as [|a data]; [discriminate|].
  rewrite prefix_cons. destruct (ascii_dec "c"%char a) as [<-|]; [|discriminate].
  intros _. repeat split.
Qed.

(** C7. A press of a cancel button by somebody who is not the user named
    in the button is answered by the alert and changes nothing: the shared
    instance after [handle_callback] is the one before, so the flag of the
    owner is not set and the entry of the owner stays. The same holds for
    such a press served while a transfer waits. *)
Theorem handle_callback_foreign_cancel
    (data : string) (presser owner : Z) (bot : FileUploadBot) :
  PyStr.startswith data "cancel:" = true ->
  py_int (drop7 data) = Some owner ->
  presser <> owner ->
  handle_callback data presser bot
  = (Ok tt, bot,
     [AnswerQuery None false; LogInfo;
      AnswerQuery (Some MsgOwnDownloadsOnly) true]) /\
  bot_after (serve_click (mkClick presser owner) bot) = bot /\
  cancel_requested owner (bot_after (handle_callback data presser bot))
  = cancel_requested owner bot /\
  is_active owner (bot_after (handle_callback data presser bot))
  = is_active owner bot.
Proof.
  intros Hpre Hint Hne.
  destruct (cancel_prefix_not_other data Hpre) as (Hh & Ha & Hu).
  assert (Hrun : handle_callback data presser bot
            = (Ok tt, bot,
               [AnswerQuery None false; LogInfo;
                AnswerQuery (Some MsgOwnDownloadsOnly) true])).
  { unfold handle_callback. unfold bindM at 1. simpl.
    rewrite Hh, Ha, Hu, Hpre, Hint.
    unfold bindM. rewrite cancel_branch_denied by exact Hne. reflexivity. }
  rewrite Hrun. repeat split.
  unfold serve_click, bindM. unfold emit at 1.
  rewrite cancel_branch_denied by exact Hne. reflexivity.
Qed.

End CancelFacts.

Lemma handle_callback_foreign_cancel_witness :
  bot_after (handle_callback "cancel:42" 7 (mkBot {[42 := true]} ∅))
  = mkBot {[42 := true]} ∅.
Proof.
  pose proof (handle_callback_foreign_cancel "cancel:42" 7 42
                (mkBot {[42 := true]} ∅)) as H.
  destruct H as [H _]; [reflexivity | reflexivity | lia |].
  rewrite H. reflexivity.
Defined.

(** ** Invariants of a trace

    A relation between the shared instance before, the effects performed
    and the shared instance after, that holds of the empty trace and is
    closed under sequencing, holds of a computation as soon as it holds of
    the steps it is made of. *)

Section Trace.
Variable I : FileUploadBot -> list effect -> FileUploadBot -> Prop.
Hypothesis I_nil : forall b, I b [] b.
Hypothesis I_app : forall b1 e1 b2 e2 b3,
  I b1 e1 b2 -> I b2 e2 b3 -> I b1 (e1 ++ e2) b3.

Lemma respects_ret {A : Type} (a : A) : respects I (ret a).
Proof. intros bot. apply I_nil. Qed.

Lemma respects_raise {A : Type} (e : exn) : respects I (@raise A e).
Proof. intros bot. apply I_nil. Qed.

Lemma respects_lift {A : Type} (r : result A) : respects I (lift r).
Proof. intros bot. apply I_nil. Qed.

Lemma respects_get_bot : respects I get_bot.
Proof. intros bot. apply I_nil. Qed.

Lemma respects_bind {A B : Type} (m : M A) (k : A -> M B) :
  respects I m -> (forall a, respects I (k a)) -> respects I (bindM m k).
Proof.
  intros Hm Hk bot. unfold effects_of, bot_after, bindM.
  specialize (Hm bot). unfold effects_of, bot_after in Hm.
  destruct (m bot) as [[[a|e] b1] e1]; simpl in *; [|exact Hm].
  specialize (Hk a b1). unfold effects_of, bot_after in Hk.
  destruct (k a b1) as [[r b2] e2]; simpl in *.
  eapply I_app; eassumption.
Qed.

Lemma respects_catch {A : Type} (m : M A) (h : exn -> M A) :
  respects I m -> (forall e, respects I (h e)) -> respects I (catch m h).
Proof.
  intros Hm Hh bot. unfold effects_of, bot_after, catch.
  specialize (Hm bot). unfold effects_of, bot_after in Hm.
  destruct (m bot) as [[[a|e] b1] e1]; simpl in *; [exact Hm|].
  specialize (Hh e b1). unfold effects_of, bot_after in Hh.
  destruct (h e b1) as [[r b2] e2]; simpl in *.
  eapply I_app; eassumption.
Qed.

Lemma respects_finally {A : Type} (m : M A) (c : M unit) :
  respects I m -> respects I c -> respects I (finally m c).
Proof.
  intros Hm Hc bot. unfold effects_of, bot_after, finally.
  specialize (Hm bot). unfold effects_of, bot_after in Hm.
  destruct (m bot) as [[r b1] e1]; simpl in *.
  specialize (Hc b1). unfold effects_of, bot_after in Hc.
  destruct (c b1) as [[[u|e] b2] e2]; simpl in *;
    eapply I_app; eassumption.
Qed.

End Trace.

(** Splits a goal [respects I m] along the structure of [m]; [leaf] closes
    the goals left for the effects and the updates of the instance. *)
Ltac respects_step I_nil I_app leaf :=
  lazymatch goal with
  | |- respects _ (bindM _ _) =>
      apply respects_bind; [intros; eapply I_app; eassumption | | intros ?]
  | |- respects _ (catch _ _) =>
      apply respects_catch; [intros; eapply I_app; eassumption | | intros ?]
  | |- respects _ (finally _ _) =>
      apply respects_finally; [intros; eapply I_app; eassumption | | ]
  | |- respects _ (ret _) => apply respects_ret; intros; apply I_nil
  | |- respects _ (raise _) => apply respects_raise; intros; apply I_nil
  | |- respects _ (lift _) => apply respects_lift; intros; apply I_nil
  | |- respects _ get_bot => apply respects_get_bot; intros; apply I_nil
  | |- respects _ (if ?c then _ else _) => destruct c
  | |- respects _ (match ?x with _ => _ end) => destruct x
  | |- _ => leaf
  end.

Ltac respects_all I_nil I_app leaf := repeat respects_step I_nil I_app leaf.

(** ** One entry per owner, released once *)

Lemma occurrences_app p e1 e2 :
  occurrences p (e1 ++ e2) = (occurrences p e1 + occurrences p e2)%nat.
Proof. induction e1 as [|e e1 IH]; simpl; [reflexivity | rewrite IH; lia]. Qed.

Lemma accounted_nil user_id b : accounted user_id b [] b.
Proof. split; reflexivity. Qed.

Lemma accounted_app user_id b1 e1 b2 e2 b3 :
  accounted user_id b1 e1 b2 -> accounted user_id b2 e2 b3 ->
  accounted user_id b1 (e1 ++ e2) b3.
Proof.
  unfold accounted, deletions, insertions. intros [H1 H1'] [H2 H2'].
  rewrite !occurrences_app. lia.
Qed.

Lemma accounted_emit user_id e :
  is_delete user_id e = false -> is_insert user_id e = false ->
  respects (accounted user_id) (emit e).
Proof.
  intros Hd Hi bot. unfold accounted, deletions, insertions. simpl.
  rewrite Hd, Hi. split; reflexivity.
Qed.

Lemma is_active_delete user_id u bot :
  is_active user_id (mkBot (delete u (active_downloads bot)) (cancel_requests bot))
  = if u =? user_id then false else is_active user_id bot.
Proof.
  unfold is_active. simpl. destruct (Z.eqb_spec u user_id) as [->|Hne].
  - rewrite lookup_delete_eq. apply bool_decide_eq_false. intros [x Hx]. discriminate.
  - now rewrite lookup_delete_ne.
Qed.

Lemma accounted_del_active user_id u :
  respects (accounted user_id) (del_active u).
Proof.
  intros bot. unfold del_active, bindM, get_bot, put_bot, emit, ret.
  destruct (is_active u bot) eqn:Hact; simpl.
  - unfold accounted, deletions, insertions, entries, bot_after, effects_of.
    simpl. rewrite is_active_delete. destruct (Z.eqb_spec u user_id) as [->|Hne].
    + rewrite Hact. split; reflexivity.
    + destruct (is_active user_id bot); split; reflexivity.
  - apply accounted_nil.
Qed.

Lemma accounted_add_cancel user_id u :
  respects (accounted user_id) (add_cancel u).
Proof. intros bot. split; reflexivity. Qed.

Lemma accounted_discard_cancel user_id u :
  respects (accounted user_id) (discard_cancel u).
Proof. intros bot. split; reflexivity. Qed.

Create HintDb accounted.
#[local] Hint Resolve accounted_del_active accounted_add_cancel
  accounted_discard_cancel : accounted.

Ltac accounted_leaf :=
  first [ assumption
        | apply accounted_emit; reflexivity
        | solve [auto with accounted] ].

Ltac accounted_tac :=
  respects_all accounted_nil accounted_app accounted_leaf.

Lemma accounted_serve user_id cs : respects (accounted user_id) (serve cs).
Proof.
  induction cs as [|c cs IH]; simpl.
  - accounted_tac.
  - unfold serve_click, cancel_branch. accounted_tac.
Qed.
#[local] Hint Resolve accounted_serve : accounted.

Section Accounting.
Context `{Lib : PyLib}.
Variable user_id : Z.

Lemma accounted_progress_update total start st loc :
  respects (accounted user_id) (progress_update total start st loc).
Proof. unfold progress_update. accounted_tac. Qed.

Lemma accounted_cancel_exit u log loc :
  respects (accounted user_id) (cancel_exit u log loc).
Proof. unfold cancel_exit. accounted_tac. Qed.

Hint Resolve accounted_progress_update accounted_cancel_exit : accounted.

Lemma accounted_loop_body u total start st loc :
  respects (accounted user_id) (loop_body u total start st loc).
Proof. unfold loop_body. accounted_tac. Qed.

Hint Resolve accounted_loop_body : accounted.

Lemma accounted_stream_loop u total start todo :
  forall loc, respects (accounted user_id) (stream_loop u total start todo loc).
Proof.
  induction todo as [|st todo IH]; intros loc; simpl.
  - accounted_tac.
  - accounted_tac.
Qed.

Lemma accounted_upload_phase ft filename buffer w :
  respects (accounted user_id) (upload_phase ft filename buffer w).
Proof. unfold upload_phase, send_by_type, global_name. accounted_tac. Qed.

Hint Resolve accounted_stream_loop accounted_upload_phase : accounted.

Lemma accounted_download info filename ft u w :
  respects (accounted user_id) (download_with_progress info filename ft u w).
Proof. unfold download_with_progress, after_loop. accounted_tac. Qed.

Lemma accounted_check_url_info target w :
  respects (accounted user_id) (check_url_info target w).
Proof. unfold check_url_info, check_url_info_try. accounted_tac. Qed.

Hint Resolve accounted_download accounted_check_url_info : accounted.

Lemma accounted_handle_url_try u target w :
  respects (accounted user_id) (handle_url_try u target w).
Proof. unfold handle_url_try. accounted_tac. Qed.

Lemma accounted_handle_url_except e :
  respects (accounted user_id) (handle_url_except e).
Proof. unfold handle_url_except. accounted_tac. Qed.

Lemma accounted_handle_url_finally u :
  respects (accounted user_id) (handle_url_finally u).
Proof. unfold handle_url_finally. accounted_tac. Qed.

Hint Resolve accounted_handle_url_try accounted_handle_url_except
  accounted_handle_url_finally : accounted.

Lemma accounted_session u target w :
  respects (accounted user_id) (session u target w).
Proof. unfold session. accounted_tac. Qed.

End Accounting.

(** ** Running a sequence *)

Lemma returned_mk {A : Type} (r : result A) b e : returned (r, b, e) = r.
Proof. reflexivity. Qed.

Lemma bot_after_mk {A : Type} (r : result A) b e : bot_after (r, b, e) = b.
Proof. reflexivity. Qed.

Lemma effects_of_mk {A : Type} (r : result A) b e : effects_of (r, b, e) = e.
Proof. reflexivity. Qed.

Lemma bindM_ok {A B : Type} (m : M A) (k : A -> M B) bot a :
  returned (m bot) = Ok a ->
  bindM m k bot
  = (returned (k a (bot_after (m bot))),
     bot_after (k a (bot_after (m bot))),
     effects_of (m bot) ++ effects_of (k a (bot_after (m bot)))).
Proof.
  unfold returned, bot_after, effects_of, bindM.
  destruct (m bot) as [[r b1] e1]; simpl. intros ->.
  now destruct (k a b1) as [[r2 b2] e2].
Qed.

Lemma bindM_raise {A B : Type} (m : M A) (k : A -> M B) bot e :
  returned (m bot) = Raise e ->
  bindM m k bot = (Raise e, bot_after (m bot), effects_of (m bot)).
Proof.
  unfold returned, bot_after, effects_of, bindM.
  destruct (m bot) as [[r b1] e1]; simpl. now intros ->.
Qed.

Lemma always_ret {A : Type} (P : A -> Prop) (a : A) : P a -> always P (ret a).
Proof. intros Ha bot. now exists a. Qed.

Lemma always_emit e : always (fun _ => True) (emit e).
Proof. intros bot. now exists tt. Qed.

Lemma always_get_bot : always (fun _ => True) get_bot.
Proof. intros bot. now exists bot. Qed.

Lemma always_put_bot b : always (fun _ => True) (put_bot b).
Proof. intros bot. now exists tt. Qed.

Lemma always_bind {A B : Type} (P : B -> Prop) (m : M A) (k : A -> M B) :
  always (fun _ => True) m -> (forall a, always P (k a)) ->
  always P (bindM m k).
Proof.
  intros Hm Hk bot. destruct (Hm bot) as (a & Ha & _).
  rewrite (bindM_ok _ _ _ _ Ha). apply Hk.
Qed.

Lemma always_weaken {A : Type} (P Q : A -> Prop) (m : M A) :
  (forall a, P a -> Q a) -> always P m -> always Q m.
Proof. intros HPQ Hm bot. destruct (Hm bot) as (a & Ha & HP). eauto. Qed.

Create HintDb always.

Ltac always_step :=
  lazymatch goal with
  | |- always _ (bindM _ _) => apply always_bind; [|intros ?]
  | |- always _ (ret _) => apply always_ret; try exact I
  | |- always _ (emit _) => apply always_emit
  | |- always _ get_bot => apply always_get_bot
  | |- always _ (put_bot _) => apply always_put_bot
  | |- always _ (if ?c then _ else _) => destruct c
  | |- always _ (match ?x with _ => _ end) => destruct x
  | |- always _ _ => solve [auto with always]
  end.

Lemma always_del_active u : always (fun _ => True) (del_active u).
Proof. unfold del_active. repeat always_step. Qed.

#[local] Hint Resolve always_del_active : always.

Lemma always_serve_click c : always (fun _ => True) (serve_click c).
Proof.
  unfold serve_click, cancel_branch, add_cancel. repeat always_step.
Qed.

Lemma always_serve cs : always (fun _ => True) (serve cs).
Proof.
  induction cs as [|c cs IH]; simpl.
  - repeat always_step.
  - pose proof (always_serve_click c). repeat always_step.
Qed.
#[local] Hint Resolve always_serve : always.

Lemma serve_returns cs bot : returned (serve cs bot) = Ok tt.
Proof. destruct (always_serve cs bot) as ([] & Hr & _). exact Hr. Qed.

Lemma whenever_ret {A : Type} (P : A -> Prop) (a : A) : P a -> whenever P (ret a).
Proof. intros Ha bot a' [= <-]. exact Ha. Qed.

Lemma whenever_bind {A B : Type} (P : B -> Prop) (m : M A) (k : A -> M B) :
  (forall a, whenever P (k a)) -> whenever P (bindM m k).
Proof.
  intros Hk bot b. destruct (returned (m bot)) as [a|e] eqn:Hr.
  - rewrite (bindM_ok _ _ _ _ Hr). apply Hk.
  - rewrite (bindM_raise _ _ _ _ Hr). discriminate.
Qed.

Ltac whenever_step :=
  lazymatch goal with
  | |- whenever _ (bindM _ _) => apply whenever_bind; intros ?
  | |- whenever _ (ret _) => apply whenever_ret
  | |- whenever _ (if ?c then _ else _) => destruct c
  | |- whenever _ (match ?x with _ => _ end) => destruct x
  end.

Lemma finally_ok {A : Type} (m : M A) (c : M unit) bot :
  returned (c (bot_after (m bot))) = Ok tt ->
  finally m c bot
  = (returned (m bot), bot_after (c (bot_after (m bot))),
     effects_of (m bot) ++ effects_of (c (bot_after (m bot)))).
Proof.
  unfold returned, bot_after, effects_of, finally.
  destruct (m bot) as [[r b1] e1]; simpl.
  destruct (c b1) as [[r2 b2] e2]; simpl. now intros ->.
Qed.

Lemma handle_url_finally_spec user_id bot :
  returned (handle_url_finally user_id bot) = Ok tt /\
  is_active user_id (bot_after (handle_url_finally user_id bot)) = false /\
  cancel_requested user_id (bot_after (handle_url_finally user_id bot)) = false.
Proof.
  cbv [handle_url_finally del_active discard_cancel returned bot_after
       bindM get_bot put_bot emit ret fst snd].
  destruct (is_active user_id bot) eqn:Hact;
    cbv [active_downloads cancel_requests];
    (split; [reflexivity|]); split.
  - unfold is_active. apply bool_decide_eq_false. simpl.
    rewrite lookup_delete_eq. intros [x Hx]. discriminate.
  - unfold cancel_requested. apply bool_decide_eq_false. simpl.
  rewrite elem_of_difference, elem_of_singleton. tauto.
  - destruct bot as [act can]. exact Hact.
  - unfold cancel_requested. apply bool_decide_eq_false. simpl.
  rewrite elem_of_difference, elem_of_singleton. tauto.
Qed.

Section SessionFacts.
Context `{Lib : PyLib}.

Lemma handle_url_except_returns e bot :
  returned (handle_url_except e bot) = Ok (Failed (Exception e)).
Proof. destruct e; reflexivity. Qed.

Lemma handle_url_try_terminal user_id target w :
  whenever terminal (handle_url_try user_id target w).
Proof.
  unfold handle_url_try. repeat whenever_step;
    try match goal with |- terminal (match ?x with _ => _ end) => destruct x end;
    exact I.
Qed.

End SessionFacts.

Section Admission.
Context `{Lib : PyLib}.

Lemma catch_handle_url_returns user_id target w bot :
  exists o,
    returned (catch (handle_url_try user_id target w) handle_url_except bot)
    = Ok o /\ terminal o.
Proof.
  unfold catch.
  destruct (handle_url_try user_id target w bot) as [[[o|e] b] ef] eqn:Hrun.
  - exists o. split; [reflexivity|].
    apply (handle_url_try_terminal user_id target w bot).
    now rewrite Hrun.
  - pose proof (handle_url_except_returns e b) as He.
    destruct (handle_url_except e b) as [[r' b'] e']. unfold returned in *.
    simpl in *. subst r'. eexists. split; [reflexivity | exact I].
Qed.

Lemma session_run user_id target w bot :
  let body := (call outcome := catch (handle_url_try user_id target w)
                                     handle_url_except in
               exec serve (served_late w) in
               ret outcome) in
  session user_id target w bot
  = (returned (body bot),
     bot_after (handle_url_finally user_id (bot_after (body bot))),
     effects_of (body bot)
     ++ effects_of (handle_url_finally user_id (bot_after (body bot)))).
Proof.
  intros body. unfold session. fold body. apply finally_ok.
  apply handle_url_finally_spec.
Qed.

Lemma session_returns user_id target w bot :
  exists o, returned (session user_id target w bot) = Ok o /\ terminal o.
Proof.
  destruct (catch_handle_url_returns user_id target w bot) as (o & Ho & Ht).
  exists o. split; [|exact Ht].
  rewrite session_run. unfold returned at 1. cbn [fst].
  rewrite (bindM_ok _ _ _ _ Ho). unfold returned at 1. cbn [fst].
  rewrite (bindM_ok _ _ _ _ (serve_returns _ _)). reflexivity.
Qed.

Lemma session_releases user_id target w bot :
  is_active user_id (bot_after (session user_id target w bot)) = false /\
  cancel_requested user_id (bot_after (session user_id target w bot)) = false.
Proof.
  rewrite session_run. unfold bot_after at 1 4. cbn [fst snd].
  apply handle_url_finally_spec.
Qed.

Lemma handle_url_already_active user_id text w bot :
  valid_url (py_strip text) = true -> is_active user_id bot = true ->
  handle_url user_id text w bot = (Ok AlreadyActive, bot, [Reply MsgAlreadyActive]).
Proof.
  intros Hv Ha. unfold handle_url. rewrite Hv. simpl.
  unfold bindM at 1, get_bot at 1. rewrite Ha. reflexivity.
Qed.

Lemma handle_url_admitted user_id text w bot :
  valid_url (py_strip text) = true -> is_active user_id bot = false ->
  handle_url user_id text w bot
  = (returned (session user_id (py_strip text) w (admitted user_id bot)),
     bot_after (session user_id (py_strip text) w (admitted user_id bot)),
     Reply MsgAnalyzing :: RegistryInsert user_id ::
     effects_of (session user_id (py_strip text) w (admitted user_id bot))).
Proof.
  intros Hv Ha. unfold handle_url. rewrite Hv. simpl.
  unfold bindM at 1, get_bot at 1. rewrite Ha.
  unfold bindM at 1, emit at 1. unfold set_active.
  unfold bindM, get_bot, put_bot, emit, returned, bot_after, effects_of, admitted.
  now destruct (session _ _ _ _) as [[r b] e].
Qed.

Lemma is_active_admitted user_id bot : is_active user_id (admitted user_id bot) = true.
Proof.
  unfold is_active, admitted. simpl. apply bool_decide_eq_true.
  rewrite lookup_insert_eq. eauto.
Qed.

(** C1. A submission with a valid URL by an owner whose entry is in
    [active_downloads] is answered "already active" and nothing else
    happens: the shared instance is unchanged and no request goes out.
    A submission by an owner with no entry makes the entry, once, and on
    every path of the handler (probe failure, size refusal, HTTP refusal,
    cancellation, upload, exception) it returns with the entry deleted
    exactly once, the entry and the cancel flag of the owner both gone;
    the next submission of that owner is admitted again. *)
Theorem one_session_per_owner (user_id : Z) (text : string) (w : World)
    (bot : FileUploadBot) :
  valid_url (py_strip text) = true ->
  (is_active user_id bot = true ->
     handle_url user_id text w bot
     = (Ok AlreadyActive, bot, [Reply MsgAlreadyActive])) /\
  (is_active user_id bot = false ->
     let run := handle_url user_id text w bot in
     (exists o, returned run = Ok o /\ terminal o) /\
     insertions user_id (effects_of run) = 1%nat /\
     deletions user_id (effects_of run) = 1%nat /\
     is_active user_id (bot_after run) = false /\
     cancel_requested user_id (bot_after run) = false /\
     forall text' w',
       valid_url (py_strip text') = true ->
       let again := handle_url user_id text' w' (bot_after run) in
       (exists o, returned again = Ok o /\ terminal o) /\
       insertions user_id (effects_of again) = 1%nat).
Proof.
  intros Hv. split; [now apply handle_url_already_active|].
  assert (Hgen : forall text0 w0 bot0,
    valid_url (py_strip text0) = true -> is_active user_id bot0 = false ->
    let run := handle_url user_id text0 w0 bot0 in
    (exists o, returned run = Ok o /\ terminal o) /\
    insertions user_id (effects_of run) = 1%nat /\
    deletions user_id (effects_of run) = 1%nat /\
    is_active user_id (bot_after run) = false /\
    cancel_requested user_id (bot_after run) = false).
  { intros text0 w0 bot0 Hv0 Ha0. cbv zeta.
    rewrite (handle_url_admitted _ _ _ _ Hv0 Ha0).
    rewrite returned_mk, !effects_of_mk, !bot_after_mk.
    destruct (session_releases user_id (py_strip text0) w0 (admitted user_id bot0))
      as [Hact Hcan].
    destruct (accounted_session user_id user_id (py_strip text0) w0
                (admitted user_id bot0)) as [Hdel Hins].
    unfold entries in Hdel. rewrite Hact, is_active_admitted in Hdel.
    split; [apply session_returns|].
    unfold insertions, deletions in *. cbn [occurrences is_insert is_delete].
    rewrite Z.eqb_refl. repeat split; try assumption; lia. }
  intros Ha run.
  destruct (Hgen text w bot Hv Ha) as (Hret & Hins & Hdel & Hact & Hcan).
  repeat split; try assumption.
  - apply (Hgen text' w' (bot_after run) H Hact).
  - apply (Hgen text' w' (bot_after run) H Hact).
Qed.

End Admission.

Lemma one_session_per_owner_witness :
  handle_url 7 "https://example.com/a.bin"
    (mkWorld (Raise NetworkError) (Raise NetworkError) 0 []
       (Ok 200) 0%Q 0%Q [] None [] (Ok tt) 1%Q [])
    (mkBot {[7 := true]} ∅)
  = (Ok AlreadyActive, mkBot {[7 := true]} ∅, [Reply MsgAlreadyActive]) /\
  deletions 7
    (effects_of
       (handle_url 7 "https://example.com/a.bin"
          (mkWorld (Raise NetworkError) (Raise NetworkError) 0 []
             (Ok 200) 0%Q 0%Q [] None [] (Ok tt) 1%Q [])
          empty_bot)) = 1%nat.
Proof.
  split.
  - apply (one_session_per_owner 7 "https://example.com/a.bin"
             (mkWorld (Raise NetworkError) (Raise NetworkError) 0 []
                (Ok 200) 0%Q 0%Q [] None [] (Ok tt) 1%Q [])
             (mkBot {[7 := true]} ∅)); reflexivity.
  - apply (one_session_per_owner 7 "https://example.com/a.bin"
             (mkWorld (Raise NetworkError) (Raise NetworkError) 0 []
                (Ok 200) 0%Q 0%Q [] None [] (Ok tt) 1%Q [])
             empty_bot); reflexivity.
Defined.

(** ** Effects that start or finish a transfer *)

Lemma quiet_nil b : quiet b [] b.
Proof. reflexivity. Qed.

Lemma quiet_app b1 e1 b2 e2 b3 :
  quiet b1 e1 b2 -> quiet b2 e2 b3 -> quiet b1 (e1 ++ e2) b3.
Proof. unfold quiet. intros H1 H2. now rewrite forallb_app, H1, H2. Qed.

Lemma quiet_emit e : quiet_effect e = true -> respects quiet (emit e).
Proof. intros He bot. unfold quiet. simpl. now rewrite He. Qed.

Lemma quiet_no_effect {A : Type} (m : M A) :
  (forall bot, effects_of (m bot) = []) -> respects quiet m.
Proof. intros H bot. unfold quiet. now rewrite H. Qed.

Lemma quiet_del_active u : respects quiet (del_active u).
Proof.
  intros bot. unfold quiet, del_active, bindM, get_bot, put_bot, emit, ret,
    effects_of.
  now destruct (is_active u bot).
Qed.

Lemma quiet_add_cancel u : respects quiet (add_cancel u).
Proof. now apply quiet_no_effect. Qed.

Lemma quiet_discard_cancel u : respects quiet (discard_cancel u).
Proof. now apply quiet_no_effect. Qed.

Create HintDb quiet.
#[local] Hint Resolve quiet_del_active quiet_add_cancel quiet_discard_cancel
  : quiet.

Ltac quiet_leaf :=
  first [ assumption
        | apply quiet_emit; reflexivity
        | solve [auto with quiet] ].

Ltac quiet_tac := respects_all quiet_nil quiet_app quiet_leaf.

Lemma quiet_serve cs : respects quiet (serve cs).
Proof.
  induction cs as [|c cs IH]; simpl.
  - quiet_tac.
  - unfold serve_click, cancel_branch. quiet_tac.
Qed.
#[local] Hint Resolve quiet_serve : quiet.

Section QuietFacts.
Context `{Lib : PyLib}.

Lemma quiet_progress_update total start st loc :
  respects quiet (progress_update total start st loc).
Proof. unfold progress_update. quiet_tac. Qed.

Lemma quiet_cancel_exit u log loc : respects quiet (cancel_exit u log loc).
Proof. unfold cancel_exit. quiet_tac. Qed.

Hint Resolve quiet_progress_update quiet_cancel_exit : quiet.

Lemma quiet_loop_body u total start st loc :
  respects quiet (loop_body u total start st loc).
Proof. unfold loop_body. quiet_tac. Qed.

Hint Resolve quiet_loop_body : quiet.

Lemma quiet_stream_loop u total start todo :
  forall loc, respects quiet (stream_loop u total start todo loc).
Proof. induction todo as [|st todo IH]; intros loc; simpl; quiet_tac. Qed.

Lemma quiet_check_url_info target w : respects quiet (check_url_info target w).
Proof. unfold check_url_info, check_url_info_try. quiet_tac. Qed.

Lemma quiet_handle_url_finally u : respects quiet (handle_url_finally u).
Proof. unfold handle_url_finally. quiet_tac. Qed.

End QuietFacts.

Lemma quiet_not_stream effs target :
  forallb quiet_effect effs = true -> ~ In (HttpStream target) effs.
Proof.
  intros Hq Hin. rewrite forallb_forall in Hq. specialize (Hq _ Hin).
  discriminate Hq.
Qed.

Lemma quiet_not_upload effs e :
  forallb quiet_effect effs = true -> In e effs -> is_upload e = false.
Proof.
  intros Hq Hin. rewrite forallb_forall in Hq. specialize (Hq _ Hin).
  unfold quiet_effect in Hq. apply negb_true_iff, orb_false_elim in Hq. tauto.
Qed.

(** ** The conversion of an integer to a float *)

Lemma nearest_double_exact n : Z.abs n < 2 ^ 53 -> nearest_double n = n.
Proof.
  intros H. unfold nearest_double.
  destruct (Z.eq_dec (Z.abs n) 0) as [E|E].
  - rewrite E. reflexivity.
  - assert (Z.log2 (Z.abs n) < 53) by (apply Z.log2_lt_pow2; lia).
    destruct (Z.leb_spec (Z.log2 (Z.abs n) - 52) 0); [reflexivity|lia].
Qed.

(** The rounded value of an integer of more than 53 bits: its leading bits,
    or the next mantissa, which is taken when the rest is above the half
    and at the half of an odd mantissa. *)
Lemma nearest_double_shape n :
  52 < Z.log2 (Z.abs n) ->
  let a := Z.abs n in
  let e := Z.log2 a - 52 in
  exists q', Z.abs (nearest_double n) = q' * 2 ^ e /\
    a / 2 ^ e <= q' <= a / 2 ^ e + 1 /\
    (q' = a / 2 ^ e + 1 -> 2 ^ (e - 1) <= a mod 2 ^ e) /\
    (2 ^ (e - 1) <= a mod 2 ^ e -> Z.odd (a / 2 ^ e) = true -> q' = a / 2 ^ e + 1).
Proof.
  intros Hk a e. unfold nearest_double. fold a. fold e.
  destruct (Z.leb_spec e 0) as [He|He]; [unfold e, a in He; lia|].
  assert (Hp : 0 < 2 ^ e) by (apply Z.pow_pos_nonneg; lia).
  assert (Hq : 0 <= a / 2 ^ e) by (apply Z.div_pos; unfold a; lia).
  set (q := a / 2 ^ e) in *. set (r := a mod 2 ^ e). set (half := 2 ^ (e - 1)).
  set (q' := if r <? half then q else if half <? r then q + 1
             else if Z.even q then q else q + 1).
  exists q'.
  assert (Hq' : q <= q' <= q + 1 /\ (q' = q + 1 -> half <= r) /\
                (half <= r -> Z.odd q = true -> q' = q + 1)).
  { unfold q'. rewrite <- Z.negb_even.
    destruct (Z.ltb_spec r half); [lia|].
    destruct (Z.ltb_spec half r); [lia|].
    destruct (Z.even q); simpl; split; try lia; split; try lia; intros; try lia; discriminate. }
  split; [|exact Hq'].
  assert (Hx : 0 <= q' * 2 ^ e) by (apply Z.mul_nonneg_nonneg; lia).
  assert (Hn : n <> 0) by (intros ->; simpl in Hk; lia).
  clearbody q' e. clear - Hx Hn.
  destruct n; cbn [Z.sgn]; lia.
Qed.

Lemma log2_bounds a : 0 < a -> 2 ^ Z.log2 a <= a < 2 ^ (Z.log2 a + 1).
Proof. intros H. pose proof (Z.log2_spec a H) as Hs. rewrite <- Z.add_1_r in Hs. exact Hs. Qed.

Lemma nearest_double_finite n :
  Z.abs n < float_limit -> Z.abs (nearest_double n) < 2 ^ 1024.
Proof.
  intros H. unfold float_limit in H.
  destruct (Z_le_gt_dec (Z.log2 (Z.abs n)) 52) as [Hk|Hk].
  - unfold nearest_double. destruct (Z.leb_spec (Z.log2 (Z.abs n) - 52) 0); [|lia].
    assert (0 < 2 ^ 970) by (apply Z.pow_pos_nonneg; lia). lia.
  - destruct (nearest_double_shape n) as (q' & -> & Hq & Hup & _); [lia|].
    cbv zeta in *.
    set (a := Z.abs n) in *. set (e := Z.log2 a - 52) in *.
    assert (Ha : 0 < a) by (destruct (Z.eq_dec a 0) as [E|E]; [rewrite E in Hk; simpl in Hk; lia | unfold a in *; lia]).
    pose proof (log2_bounds a Ha) as [Hlo Hhi].
    assert (He : 0 < e) by (unfold e; lia).
    assert (Hp : 0 < 2 ^ e) by (apply Z.pow_pos_nonneg; lia).
    assert (Hk2 : Z.log2 a < 1024).
    { apply Z.log2_lt_pow2; [lia|]. assert (0 < 2 ^ 970) by (apply Z.pow_pos_nonneg; lia). lia. }
    assert (Hqlt : a / 2 ^ e < 2 ^ 53).
    { apply Z.div_lt_upper_bound; [lia|].
      rewrite <- Z.pow_add_r by lia. replace (e + 53) with (Z.log2 a + 1) by (unfold e; lia). lia. }
    assert (Hq0 : 0 <= a / 2 ^ e) by (apply Z.div_pos; lia).
    destruct (Z_le_gt_dec e 970) as [He9|He9].
    +       assert (2 ^ e <= 2 ^ 970) by (apply Z.pow_le_mono_r; lia).
      assert (q' * 2 ^ e <= 2 ^ 53 * 2 ^ 970) by (apply Z.mul_le_mono_nonneg; lia).
      rewrite <- Z.pow_add_r in H1 by lia. simpl Z.add in H1.
      assert (2 ^ 1023 < 2 ^ 1024) by (apply Z.pow_lt_mono_r; lia). lia.
    + assert (e = 971) by (unfold e in *; lia).
      destruct (Z.eq_dec q' (2 ^ 53)) as [Eq|Eq].
      * exfalso. assert (Hr : 2 ^ (e - 1) <= a mod 2 ^ e) by (apply Hup; lia).
        pose proof (Z.div_mod a (2 ^ e) ltac:(lia)) as Hdm.
        assert (a / 2 ^ e = 2 ^ 53 - 1) by lia.
        rewrite H1 in Hdm. rewrite H0 in *. 
        change (970) with (971 - 1) in H at 1.
        replace (2 ^ 1024) with (2 ^ 53 * 2 ^ 971) in H by (rewrite <- Z.pow_add_r by lia; reflexivity).
        lia.
      * assert (q' <= 2 ^ 53 - 1) by lia.
        assert (q' * 2 ^ e <= (2 ^ 53 - 1) * 2 ^ e) by (apply Z.mul_le_mono_nonneg_r; lia).
        rewrite H0 in *.
        replace (2 ^ 1024) with (2 ^ 53 * 2 ^ 971) by (rewrite <- Z.pow_add_r by lia; reflexivity).
        lia.
Qed.

Lemma nearest_double_overflow n :
  float_limit <= Z.abs n -> 2 ^ 1024 <= Z.abs (nearest_double n).
Proof.
  intros H. unfold float_limit in H.
  assert (H1023 : 2 ^ 1023 <= Z.abs n).
  { assert (2 ^ 970 <= 2 ^ 1023) by (apply Z.pow_le_mono_r; lia).
    replace (2 ^ 1024) with (2 * 2 ^ 1023) in H by (change 1024 with (Z.succ 1023); rewrite Z.pow_succ_r; lia). lia. }
  assert (Ha : 0 < Z.abs n) by (assert (0 < 2 ^ 1023) by (apply Z.pow_pos_nonneg; lia); lia).
  assert (Hk : 1023 <= Z.log2 (Z.abs n)) by (apply Z.log2_le_pow2; lia).
  destruct (nearest_double_shape n) as (q' & -> & Hq & _ & Hup); [lia|].
  cbv zeta in *.
  set (a := Z.abs n) in *. set (e := Z.log2 a - 52) in *.
  pose proof (log2_bounds a Ha) as [Hlo Hhi].
  assert (He : 0 < e) by (unfold e; lia).
  assert (Hp : 0 < 2 ^ e) by (apply Z.pow_pos_nonneg; lia).
  assert (Hqge : 2 ^ 52 <= a / 2 ^ e).
  { apply Z.div_le_lower_bound; [lia|].
    rewrite <- Z.pow_add_r by lia. replace (e + 52) with (Z.log2 a) by (unfold e; lia). lia. }
  destruct (Z_le_gt_dec 1024 (Z.log2 a)) as [Hk2|Hk2].
  - assert (2 ^ 52 * 2 ^ e <= q' * 2 ^ e) by (apply Z.mul_le_mono_nonneg_r; lia).
    rewrite <- Z.pow_add_r in H0 by lia. replace (52 + e) with (Z.log2 a) in H0 by (unfold e; lia).
    assert (2 ^ 1024 <= 2 ^ Z.log2 a) by (apply Z.pow_le_mono_r; lia). lia.
  - assert (E : e = 971) by (unfold e in *; lia).
    assert (Hqlt : a / 2 ^ e < 2 ^ 53).
    { apply Z.div_lt_upper_bound; [lia|].
      rewrite <- Z.pow_add_r by lia. replace (e + 53) with (Z.log2 a + 1) by (unfold e; lia). lia. }
    pose proof (Z.div_mod a (2 ^ e) ltac:(lia)) as Hdm.
    pose proof (Z.mod_pos_bound a (2 ^ e) Hp) as Hm.
    rewrite E in *.
    replace (2 ^ 1024) with (2 ^ 53 * 2 ^ 971) in * by (rewrite <- Z.pow_add_r by lia; reflexivity).
    replace (2 ^ 971) with (2 * 2 ^ 970) in * by (change 971 with (Z.succ 970); rewrite Z.pow_succ_r; lia).
    change (971 - 1) with 970 in *.
    assert (0 < 2 ^ 970) by (apply Z.pow_pos_nonneg; lia).
    assert (Hqeq : a / (2 * 2 ^ 970) = 2 ^ 53 - 1) by nia.
    assert (Hr : 2 ^ 970 <= a mod (2 * 2 ^ 970)) by nia.
    assert (q' = a / (2 * 2 ^ 970) + 1).
    { apply Hup; [exact Hr|]. rewrite Hqeq. reflexivity. }
    rewrite H1, Hqeq. lia.
Qed.

Lemma float_of_int_exact n : Z.abs n < 2 ^ 53 -> float_of_int n = Ok (inject_Z n).
Proof.
  intros H. unfold float_of_int. rewrite (nearest_double_exact n H).
  assert (2 ^ 53 < 2 ^ 1024) by (apply Z.pow_lt_mono_r; lia).
  destruct (Z.leb_spec (2 ^ 1024) (Z.abs n)); [lia | reflexivity].
Qed.

Lemma float_of_int_finite n :
  Z.abs n < float_limit -> float_of_int n = Ok (inject_Z (nearest_double n)).
Proof.
  intros H. unfold float_of_int. pose proof (nearest_double_finite n H).
  destruct (Z.leb_spec (2 ^ 1024) (Z.abs (nearest_double n))); [lia | reflexivity].
Qed.

Lemma float_of_int_overflow n :
  float_limit <= Z.abs n -> float_of_int n = Raise OverflowError.
Proof.
  intros H. unfold float_of_int. pose proof (nearest_double_overflow n H).
  destruct (Z.leb_spec (2 ^ 1024) (Z.abs (nearest_double n))); [reflexivity | lia].
Qed.

(** Once the value is a float, the loop of [format_file_size] cannot fail. *)
Lemma scale_size_float larger : forall x current,
  exists y unit, scale_size (PyFloat x) current larger = Ok (PyFloat y, unit).
Proof.
  induction larger as [|next rest IH]; intros x current; simpl.
  - eauto.
  - destruct (Qle_bool 1024 x); [apply IH | eauto].
Qed.

(** [format_file_size] of a non-zero integer fails exactly when the
    conversion of the integer to a float does. *)
Lemma format_file_size_int n : n <> 0 ->
  match float_of_int n with
  | Ok _ => exists shown, format_file_size (PyInt n) = Ok shown
  | Raise e => format_file_size (PyInt n) = Raise e
  end.
Proof.
  intros Hn. unfold format_file_size. cbn [is_zero].
  destruct (Z.eqb_spec n 0) as [|_]; [contradiction|].
  change (scale_size (PyInt n) "B" ["KB"; "MB"; "GB"])
    with (if 1024 <=? n
          then float_of_int n >>= fun x =>
               scale_size (PyFloat (x / 1024)%Q) "KB" ["MB"; "GB"]
          else Ok (PyInt n, "B")).
  destruct (1024 <=? n).
  - destruct (float_of_int n) as [x|e]; [|reflexivity].
    unfold bind at 2.
    destruct (scale_size_float ["MB"; "GB"] (x / 1024)%Q "KB") as (y & unit & ->).
    cbn. eauto.
  - cbn [bind fst snd to_float]. destruct (float_of_int n) as [x|e]; cbn; eauto.
Qed.

Lemma format_file_size_finite n :
  Z.abs n < float_limit -> exists shown, format_file_size (PyInt n) = Ok shown.
Proof.
  intros H. destruct (Z.eq_dec n 0) as [->|Hn]; [now exists ZeroBytes|].
  pose proof (format_file_size_int n Hn) as Hf.
  now rewrite (float_of_int_finite n H) in Hf.
Qed.

Lemma format_file_size_overflow n :
  n <> 0 -> float_limit <= Z.abs n ->
  format_file_size (PyInt n) = Raise OverflowError.
Proof.
  intros Hn H. pose proof (format_file_size_int n Hn) as Hf.
  now rewrite (float_of_int_overflow n H) in Hf.
Qed.

(** ** The size check *)

Lemma catch_ok {A : Type} (m : M A) (h : exn -> M A) bot a :
  returned (m bot) = Ok a -> catch m h bot = m bot.
Proof.
  unfold returned, catch. destruct (m bot) as [[r b] e]; simpl. now intros ->.
Qed.

Lemma In_bind_l {A B : Type} (m : M A) (k : A -> M B) bot e :
  In e (effects_of (m bot)) -> In e (effects_of (bindM m k bot)).
Proof.
  intros Hin. destruct (returned (m bot)) as [a|x] eqn:Hr.
  - rewrite (bindM_ok _ _ _ _ Hr), effects_of_mk. apply in_or_app. now left.
  - now rewrite (bindM_raise _ _ _ _ Hr), effects_of_mk.
Qed.

Lemma In_bind_r {A B : Type} (m : M A) (k : A -> M B) bot a e :
  returned (m bot) = Ok a ->
  In e (effects_of (k a (bot_after (m bot)))) ->
  In e (effects_of (bindM m k bot)).
Proof.
  intros Hr Hin. rewrite (bindM_ok _ _ _ _ Hr), effects_of_mk.
  apply in_or_app. now right.
Qed.

Lemma In_catch_l {A : Type} (m : M A) (h : exn -> M A) bot e :
  In e (effects_of (m bot)) -> In e (effects_of (catch m h bot)).
Proof.
  unfold effects_of, catch. destruct (m bot) as [[[a|x] b] e1]; simpl; [tauto|].
  intros Hin. destruct (h x b) as [[r b2] e2]; simpl.
  apply in_or_app. now left.
Qed.

Section SizeCheck.
Context `{Lib : PyLib}.

Lemma check_url_info_run target w bot bot' :
  check_url_info target w bot'
  = (returned (check_url_info target w bot), bot',
     effects_of (check_url_info target w bot)).
Proof.
  unfold check_url_info, check_url_info_try, catch, bindM, emit, lift, ret,
    returned, effects_of.
  destruct (head_response w) as [h|e]; simpl; [|reflexivity].
  destruct (negb (status_code h =? 200)); simpl.
  - destruct (get_response w) as [g|e]; simpl; [|reflexivity].
    destruct (declared_size _); reflexivity.
  - destruct (declared_size _); reflexivity.
Qed.

Lemma too_large_spec declared :
  too_large declared = true <-> exists n, declared = Some n /\ MAX_FILE_SIZE < n.
Proof.
  unfold too_large. destruct declared as [n|].
  - rewrite andb_true_iff, negb_true_iff, Z.eqb_neq, Z.ltb_lt. split.
    + intros [_ Hlt]. eauto.
    + intros (m & [= <-] & Hlt). split; [|exact Hlt].
      unfold MAX_FILE_SIZE in Hlt. lia.
  - split; [discriminate | now intros (n & Hn & _)].
Qed.

Lemma format_size_limit :
  format_file_size (PyInt MAX_FILE_SIZE)
  = Ok (Scaled (inject_Z MAX_FILE_SIZE / 1024 / 1024 / 1024) "GB").
Proof. reflexivity. Qed.

Lemma handle_url_try_large user_id target w bot info n :
  returned (check_url_info target w bot) = Ok (Some info) ->
  size info = Some n -> MAX_FILE_SIZE < n -> n < float_limit ->
  handle_url_try user_id target w bot
  = (Ok Rejected, bot,
     effects_of (check_url_info target w bot) ++ [EditStatus (MsgTooLarge n)]).
Proof.
  intros Hp Hs Hgt Hfl. unfold handle_url_try. rewrite (bindM_ok _ _ _ _ Hp).
  cbv beta iota.
  assert (Hl : too_large (size info) = true) by (apply too_large_spec; eauto).
  rewrite Hl, Hs. change (default 0 (Some n)) with n.
  destruct (format_file_size_finite n) as [shown Hshown];
    [unfold MAX_FILE_SIZE in Hgt; lia|].
  rewrite (check_url_info_run target w bot bot), bot_after_mk, effects_of_mk.
  unfold lift. rewrite Hshown, format_size_limit.
  reflexivity.
Qed.

Lemma handle_url_try_overflow user_id target w bot info n :
  returned (check_url_info target w bot) = Ok (Some info) ->
  size info = Some n -> float_limit <= n ->
  handle_url_try user_id target w bot
  = (Raise OverflowError, bot, effects_of (check_url_info target w bot)).
Proof.
  intros Hp Hs Hfl. unfold handle_url_try. rewrite (bindM_ok _ _ _ _ Hp).
  cbv beta iota.
  assert (Hpos : MAX_FILE_SIZE < n) by (apply Z.lt_le_trans with (2 := Hfl); reflexivity).
  assert (Hl : too_large (size info) = true) by (apply too_large_spec; eauto).
  rewrite Hl, Hs. change (default 0 (Some n)) with n.
  rewrite (check_url_info_run target w bot bot), bot_after_mk, effects_of_mk.
  unfold lift.
  rewrite (format_file_size_overflow n);
    [|unfold MAX_FILE_SIZE in Hpos; lia|unfold MAX_FILE_SIZE in Hpos; lia].
  cbn. now rewrite app_nil_r.
Qed.

Lemma download_opens_stream info filename ft user_id w bot :
  In (HttpStream (url info))
     (effects_of (download_with_progress info filename ft user_id w bot)).
Proof. unfold download_with_progress. apply In_bind_l. now left. Qed.

Lemma handle_url_try_streams user_id target w bot info :
  returned (check_url_info target w bot) = Ok (Some info) ->
  too_large (size info) = false ->
  In (HttpStream (url info)) (effects_of (handle_url_try user_id target w bot)).
Proof.
  intros Hp Hl. unfold handle_url_try.
  eapply In_bind_r; [exact Hp|]. cbv beta iota. rewrite Hl.
  eapply In_bind_r; [reflexivity|].
  eapply In_bind_r; [reflexivity|].
  eapply In_bind_r; [apply serve_returns|].
  apply In_bind_l, download_opens_stream.
Qed.

End SizeCheck.

(** C3, on the code. The probe answers 200 with a Content-Length of 2
    followed by 308 zeros, far above 2 GiB. The size test of line 66
    succeeds, but the text of the refusal needs [format_file_size] of the
    declared size, whose first division raises [OverflowError]: the
    refusal is never shown, the handler logs the exception, reports
    "Upload failed" and ends as failed. No streaming request is made. *)
Theorem huge_size_refusal_fails :
  handle_url 7 "https://example.com/big.iso" huge_size_world empty_bot
  = (Ok (Failed (Exception OverflowError)), empty_bot,
     [Reply MsgAnalyzing; RegistryInsert 7;
      HttpHead "https://example.com/big.iso";
      LogError OverflowError;
      EditStatus (MsgUploadFailed OverflowError);
      RegistryDelete 7]).
Proof. vm_compute. reflexivity. Qed.

(** ** The upload phase and the progress message *)

Lemma whenever_raise {A : Type} (P : A -> Prop) (e : exn) : whenever P (raise e).
Proof. intros bot a. discriminate. Qed.

Lemma whenever_bind_with {A B : Type} (Q : A -> Prop) (P : B -> Prop)
    (m : M A) (k : A -> M B) :
  whenever Q m -> (forall a, Q a -> whenever P (k a)) -> whenever P (bindM m k).
Proof.
  intros Hm Hk bot b. destruct (returned (m bot)) as [a|e] eqn:Hr.
  - rewrite (bindM_ok _ _ _ _ Hr). apply Hk. now apply (Hm bot).
  - rewrite (bindM_raise _ _ _ _ Hr). discriminate.
Qed.

Section UploadFacts.
Context `{Lib : PyLib}.

(** The name [datetime] is bound nowhere in the module: the caption
    cannot be built, whatever the buffer. *)
Lemma upload_phase_raises ft filename buffer w bot :
  upload_phase ft filename buffer w bot
  = (Raise (NameError "datetime"), bot, [EditStatus MsgUploadingToTelegram]).
Proof. reflexivity. Qed.

Lemma download_never_uploads info filename ft user_id w :
  whenever (fun r => forall n, r <> Uploaded n)
           (download_with_progress info filename ft user_id w).
Proof.
  unfold download_with_progress, after_loop.
  repeat whenever_step; try (intros n; discriminate).
Qed.

(** With no declared size, the progress message is never produced: either
    no update is due, or the comparison of [None] with 0 raises. *)
Lemma progress_update_unknown_total start st loc bot :
  progress_update None start st loc bot
  = if Qle_bool 2 (current_time st - last_update_time loc)
    then (Raise TypeError, bot, [])
    else (Ok loc, bot, []).
Proof.
  unfold progress_update, update_due. rewrite orb_false_r.
  now destruct (Qle_bool _ _).
Qed.

End UploadFacts.

(** C5, on the code. The probe declares no size and the stream delivers an
    empty body with status 200: the handler reaches the upload phase with
    the category [document] and zero bytes, raises [NameError] on the
    caption, reports "Upload failed" and ends without any [send_*] call. *)
Theorem empty_body_upload_fails :
  handle_url 7 "https://example.com/download" empty_body_world empty_bot
  = (Ok (Failed (Exception (NameError "datetime"))), empty_bot,
     [Reply MsgAnalyzing; RegistryInsert 7;
      HttpHead "https://example.com/download";
      EditStatus (MsgUploading document "file_1700000000" None);
      SendChatAction;
      HttpStream "https://example.com/download";
      EditStatus MsgUploadingToTelegram;
      LogError (NameError "datetime");
      EditStatus (MsgUploadFailed (NameError "datetime"));
      RegistryDelete 7]).
Proof. vm_compute. reflexivity. Qed.

(** C8, on the code. With no declared size, the first progress update that
    is due raises [TypeError] at [total_size > 0]: no progress message is
    sent and the transfer ends as failed. *)
Theorem unknown_total_progress_aborts :
  handle_url 7 "https://example.com/download" slow_chunk_world empty_bot
  = (Ok (Failed (Exception TypeError)), empty_bot,
     [Reply MsgAnalyzing; RegistryInsert 7;
      HttpHead "https://example.com/download";
      EditStatus (MsgUploading document "file_1700000000" None);
      SendChatAction;
      HttpStream "https://example.com/download";
      LogError TypeError;
      EditStatus (MsgUploadFailed TypeError);
      RegistryDelete 7]).
Proof. vm_compute. reflexivity. Qed.

(** C10, on the code. A picture of three bytes, declared as such by the
    probe and streamed in one chunk: the handler classifies it as a photo
    and downloads it whole, then raises [NameError] on the caption of line
    186, before the chain of lines 188-215 that picks the call. Nothing is
    sent, by [send_photo] or by any other call, and the submission ends
    as failed; a photo above the limit, a video or an audio file stop at
    the same line. *)
Theorem photo_never_routed :
  handle_url 7 "https://example.com/pic.png" small_photo_world empty_bot
  = (Ok (Failed (Exception (NameError "datetime"))), empty_bot,
     [Reply MsgAnalyzing; RegistryInsert 7;
      HttpHead "https://example.com/pic.png";
      EditStatus (MsgUploading photo "pic.png" (Some 3));
      SendChatAction;
      HttpStream "https://example.com/pic.png";
      EditStatus (MsgProgress (WithPercentage 3 3 (3 # 1) (0 # 3)));
      EditStatus MsgUploadingToTelegram;
      LogError (NameError "datetime");
      EditStatus (MsgUploadFailed (NameError "datetime"));
      RegistryDelete 7]).
Proof. vm_compute. reflexivity. Qed.

(** ** The loop over the chunks *)

Lemma chunks_go_concat size : (0 < size)%nat ->
  forall fuel body, (length body <= fuel)%nat ->
    concat (chunks_go fuel size body) = body.
Proof.
  intros Hsize. induction fuel as [|fuel IH]; intros body Hlen.
  - destruct body; [reflexivity | simpl in Hlen; lia].
  - destruct body as [|b body]; [reflexivity|].
    change (concat (firstn size (b :: body)
                    :: chunks_go fuel size (skipn size (b :: body)))
            = b :: body).
    cbn [concat]. rewrite IH.
    + apply firstn_skipn.
    + rewrite length_skipn. simpl in *. lia.
Qed.

Lemma aiter_bytes_concat size body :
  (0 < size)%nat -> concat (aiter_bytes size body) = body.
Proof. intros Hsize. now apply chunks_go_concat. Qed.

Example aiter_bytes_uneven :
  map (@length Byte.byte) (aiter_bytes 4 (repeat Byte.x00 10)) = [4; 4; 2]%nat.
Proof. reflexivity. Qed.

Section LoopFacts.
Context `{Lib : PyLib}.
Variables (user_id : Z) (total_size : option Z) (start : Q).

Lemma progress_update_keeps st loc :
  whenever (fun loc' => file_data loc' = file_data loc /\
                        downloaded loc' = downloaded loc)
           (progress_update total_size start st loc).
Proof. unfold progress_update. repeat whenever_step; now split. Qed.

(** A turn that goes on to the next chunk has appended its chunk. *)
Lemma loop_body_next st loc :
  whenever (fun r => fst r = Next ->
              file_data (snd r) = file_data loc ++ chunk st /\
              downloaded (snd r)
              = downloaded loc + Z.of_nat (length (chunk st)))
           (loop_body user_id total_size start st loc).
Proof.
  unfold loop_body, cancel_exit.
  repeat (first [ match goal with
                  | |- whenever _ (bindM (progress_update _ _ _ _) _) =>
                      eapply whenever_bind_with;
                      [apply progress_update_keeps | intros ? [? ?]]
                  end
                | whenever_step ]);
    simpl in *; try discriminate.
  intros _. split; assumption.
Qed.

(** The invariant of the loop: what has been counted is what has been
    written. *)
Lemma stream_loop_next todo :
  forall loc,
    whenever (fun r => fst r = Next ->
                file_data (snd r)
                = file_data loc ++ concat (map chunk todo) /\
                downloaded (snd r)
                = downloaded loc
                  + Z.of_nat (length (concat (map chunk todo))))
             (stream_loop user_id total_size start todo loc).
Proof.
  induction todo as [|st todo IH]; intros loc; simpl.
  - apply whenever_ret. intros _. simpl. rewrite app_nil_r. split; [reflexivity|lia].
  - eapply whenever_bind_with; [apply loop_body_next|].
    intros [[|] loc1] Hbody; simpl in Hbody.
    + apply whenever_ret. discriminate.
    + destruct (Hbody eq_refl) as [Hf Hd].
      intros bot r Hr Hn. destruct (IH loc1 bot r Hr Hn) as [Hf' Hd'].
      rewrite Hf', Hd', Hf, Hd, length_app, <- app_assoc. split; [reflexivity|lia].
Qed.

End LoopFacts.

Lemma returned_bind_ok {A B : Type} (m : M A) (k : A -> M B) bot a :
  returned (m bot) = Ok a ->
  returned (bindM m k bot) = returned (k a (bot_after (m bot))).
Proof. intros Hr. now rewrite (bindM_ok _ _ _ _ Hr). Qed.

Lemma bot_after_bind_ok {A B : Type} (m : M A) (k : A -> M B) bot a :
  returned (m bot) = Ok a ->
  bot_after (bindM m k bot) = bot_after (k a (bot_after (m bot))).
Proof. intros Hr. now rewrite (bindM_ok _ _ _ _ Hr). Qed.

Lemma effects_bind_ok {A B : Type} (m : M A) (k : A -> M B) bot a :
  returned (m bot) = Ok a ->
  effects_of (bindM m k bot)
  = effects_of (m bot) ++ effects_of (k a (bot_after (m bot))).
Proof. intros Hr. now rewrite (bindM_ok _ _ _ _ Hr). Qed.

Lemma bot_after_ret {A : Type} (a : A) bot : bot_after (ret a bot) = bot.
Proof. reflexivity. Qed.

Lemma bind_get_bot {B : Type} (k : FileUploadBot -> M B) bot :
  bindM get_bot k bot = k bot bot.
Proof.
  unfold bindM, get_bot. now destruct (k bot bot) as [[r b] e].
Qed.

Lemma serve_click_flag user_id c bot :
  cancels user_id c = false ->
  cancel_requested user_id (bot_after (serve_click c bot))
  = cancel_requested user_id bot.
Proof.
  unfold cancels. intros Hc.
  cbv [serve_click cancel_branch add_cancel del_active bot_after bindM
       get_bot put_bot emit ret fst snd].
  destruct (Z.eqb_spec (from_user c) (cancel_target c)) as [Heq|Hne];
    [|reflexivity].
  assert (Hu : cancel_target c <> user_id).
  { intros <-. rewrite Heq, Z.eqb_refl in Hc. discriminate. }
  destruct (is_active _ _); cbv [fst snd active_downloads cancel_requests];
    unfold cancel_requested; apply bool_decide_ext; simpl;
    rewrite elem_of_union, elem_of_singleton; intuition congruence.
Qed.

Lemma serve_flag user_id cs :
  forallb (fun c => negb (cancels user_id c)) cs = true ->
  forall bot,
    cancel_requested user_id (bot_after (serve cs bot))
    = cancel_requested user_id bot.
Proof.
  induction cs as [|c cs IH]; intros Hall bot; [reflexivity|].
  simpl in Hall. apply andb_true_iff in Hall as [Hc Hcs].
  apply negb_true_iff in Hc. simpl.
  destruct (always_serve_click c bot) as (t & Ht & _).
  rewrite (bot_after_bind_ok _ _ _ _ Ht), (IH Hcs).
  now apply serve_click_flag.
Qed.

Section CalmLoop.
Context `{Lib : PyLib}.
Variables (user_id : Z) (total_size : option Z) (start : Q).

Lemma progress_update_bot st loc bot :
  bot_after (progress_update total_size start st loc bot) = bot.
Proof.
  unfold progress_update.
  destruct (update_due _ _ _ _); [|reflexivity].
  destruct total_size as [t|]; [|reflexivity].
  cbv [bindM lift total_positive catch emit raise ret bot_after fst snd].
  now destruct (edit_ok st).
Qed.

Lemma progress_update_calm last st loc bot :
  (total_size = None -> last_update_time loc = last) ->
  (total_size = None -> Qle_bool 2 (current_time st - last) = false) ->
  exists loc',
    returned (progress_update total_size start st loc bot) = Ok loc' /\
    (total_size = None -> last_update_time loc' = last).
Proof.
  intros Hlast Hdue. destruct total_size as [t|] eqn:Ht.
  - unfold progress_update. destruct (update_due _ _ _ _).
    + cbv [bindM lift total_positive catch emit raise ret returned fst snd].
      destruct (edit_ok st); eexists; (split; [reflexivity | discriminate]).
    + eexists. split; [reflexivity | discriminate].
  - rewrite progress_update_unknown_total.
    rewrite (Hlast eq_refl), (Hdue eq_refl). eauto.
Qed.

Lemma loop_body_calm last st loc bot :
  calm user_id total_size last st ->
  cancel_requested user_id bot = false ->
  (total_size = None -> last_update_time loc = last) ->
  exists loc',
    returned (loop_body user_id total_size start st loc bot) = Ok (Next, loc') /\
    cancel_requested user_id
      (bot_after (loop_body user_id total_size start st loc bot)) = false /\
    (total_size = None -> last_update_time loc' = last).
Proof.
  intros (Hb & Ha & Hdue) Hflag Hlast. unfold loop_body.
  rewrite (returned_bind_ok _ _ _ _ (serve_returns _ _)),
          (bot_after_bind_ok _ _ _ _ (serve_returns _ _)).
  rewrite bind_get_bot, (serve_flag _ _ Hb), Hflag.
  rewrite (returned_bind_ok _ _ _ _ (serve_returns _ _)),
          (bot_after_bind_ok _ _ _ _ (serve_returns _ _)).
  rewrite bind_get_bot, (serve_flag _ _ Ha), (serve_flag _ _ Hb), Hflag.
  match goal with
  | |- context [bindM (progress_update _ _ _ ?l) _ ?b] =>
      destruct (progress_update_calm last st l b Hlast Hdue) as (loc' & Hr & Hl);
      pose proof (progress_update_bot st l b) as Hbot
  end.
  exists loc'.
  rewrite (returned_bind_ok _ _ _ _ Hr), (bot_after_bind_ok _ _ _ _ Hr), Hbot.
  split; [reflexivity|]. split; [|exact Hl].
  rewrite bot_after_ret.
  now rewrite (serve_flag _ _ Ha), (serve_flag _ _ Hb).
Qed.

Lemma stream_loop_calm last todo :
  Forall (calm user_id total_size last) todo ->
  forall loc bot,
    cancel_requested user_id bot = false ->
    (total_size = None -> last_update_time loc = last) ->
    exists loc',
      returned (stream_loop user_id total_size start todo loc bot)
      = Ok (Next, loc') /\
      cancel_requested user_id
        (bot_after (stream_loop user_id total_size start todo loc bot))
      = false.
Proof.
  induction 1 as [|st todo Hst Htodo IH]; intros loc bot Hflag Hlast.
  - exists loc. now split.
  - simpl.
    destruct (loop_body_calm last st loc bot Hst Hflag Hlast)
      as (loc1 & Hr & Hflag1 & Hlast1).
    rewrite (returned_bind_ok _ _ _ _ Hr), (bot_after_bind_ok _ _ _ _ Hr).
    cbv beta iota. now apply IH.
Qed.

End CalmLoop.

(** C4. A body of [N] bytes delivered by [aiter_bytes] in chunks of [size]
    bytes: whenever the loop runs to its end, [downloaded] is exactly [N]
    and the buffer is the body, whether or not [size] divides [N]; and the
    loop does run to its end when the flag of the owner is never set (and,
    for a transfer with no declared size, no progress update is due). *)
Theorem bytes_transferred_exact
    (user_id : Z) (total_size : option Z) (start first_update : Q)
    (size : nat) (body : list Byte.byte) (todo : list ChunkStep)
    (bot : FileUploadBot) :
  (0 < size)%nat ->
  map chunk todo = aiter_bytes size body ->
  let run := stream_loop user_id total_size start todo
               (mkLocals [] 0 first_update) bot in
  (forall loc', returned run = Ok (Next, loc') ->
     downloaded loc' = Z.of_nat (length body) /\ file_data loc' = body) /\
  (cancel_requested user_id bot = false ->
   Forall (calm user_id total_size first_update) todo ->
   exists loc', returned run = Ok (Next, loc') /\
     downloaded loc' = Z.of_nat (length body) /\ file_data loc' = body).
Proof.
  intros Hsize Hchunks run.
  assert (Hnext : forall loc', returned run = Ok (Next, loc') ->
            downloaded loc' = Z.of_nat (length body) /\ file_data loc' = body).
  { intros loc' Hr.
    destruct (stream_loop_next user_id total_size start todo
                (mkLocals [] 0 first_update) bot (Next, loc') Hr eq_refl)
      as [Hf Hd].
    simpl in Hf, Hd. rewrite Hchunks, aiter_bytes_concat in Hf, Hd by exact Hsize.
    split; [lia | exact Hf]. }
  split; [exact Hnext|].
  intros Hflag Hcalm.
  destruct (stream_loop_calm user_id total_size start first_update todo Hcalm
              (mkLocals [] 0 first_update) bot Hflag (fun _ => eq_refl))
    as (loc' & Hr & _).
  exists loc'. split; [exact Hr | now apply Hnext].
Qed.

Lemma bytes_transferred_exact_witness :
  exists loc',
    returned
      (stream_loop 7 (Some 10) 0%Q
         (map (fun c => mkStep [] c [] 1%Q true)
              (aiter_bytes 4 (repeat Byte.x00 10)))
         (mkLocals [] 0 0%Q) empty_bot) = Ok (Next, loc') /\
    downloaded loc' = 10 /\ file_data loc' = repeat Byte.x00 10.
Proof.
  apply (bytes_transferred_exact 7 (Some 10) 0%Q 0%Q 4 (repeat Byte.x00 10)
           (map (fun c => mkStep [] c [] 1%Q true)
                (aiter_bytes 4 (repeat Byte.x00 10)))
           empty_bot).
  - lia.
  - reflexivity.
  - reflexivity.
  - simpl. repeat (constructor; [repeat split; discriminate|]). constructor.
Defined.

(** ** Cancellation *)

Lemma cancel_exit_run user_id log loc bot :
  returned (cancel_exit user_id log loc bot) = Ok (Return, loc) /\
  forallb quiet_effect (effects_of (cancel_exit user_id log loc bot)) = true.
Proof. now destruct log. Qed.

Lemma own_click_sets_flag user_id rest bot :
  cancel_requested user_id
    (bot_after (serve (mkClick user_id user_id :: rest) bot)) = true \/
  ~ forallb (fun c => negb (cancels user_id c)) rest = true.
Proof.
  destruct (forallb (fun c => negb (cancels user_id c)) rest) eqn:Hrest;
    [left | right; discriminate].
  simpl. destruct (always_serve_click (mkClick user_id user_id) bot) as (t & Ht & _).
  rewrite (bot_after_bind_ok _ _ _ _ Ht), (serve_flag _ _ Hrest).
  cbv [serve_click cancel_branch add_cancel del_active bot_after bindM
       get_bot put_bot emit ret fst snd from_user cancel_target].
  rewrite Z.eqb_refl.
  destruct (is_active _ _); cbv [fst snd]; unfold cancel_requested;
    apply bool_decide_eq_true; simpl;
    rewrite elem_of_union, elem_of_singleton; now left.
Qed.

Section Cancellation.
Variables (user_id : Z) (total_size : option Z) (start : Q).

Lemma stream_loop_app pre rest :
  forall loc bot loc1,
    returned (stream_loop user_id total_size start pre loc bot) = Ok (Next, loc1) ->
    let after := stream_loop user_id total_size start rest loc1
                   (bot_after (stream_loop user_id total_size start pre loc bot)) in
    stream_loop user_id total_size start (pre ++ rest) loc bot
    = (returned after, bot_after after,
       effects_of (stream_loop user_id total_size start pre loc bot)
       ++ effects_of after).
Proof.
  induction pre as [|st pre IH]; intros loc bot loc1 Hr after.
  - injection Hr as <-. subst after. cbn [stream_loop app].
    rewrite bot_after_ret. unfold ret at 1. rewrite effects_of_mk. cbn [app].
    now destruct (stream_loop _ _ _ rest loc bot) as [[r b] e].
  - subst after. simpl in *.
    destruct (returned (loop_body user_id total_size start st loc bot))
      as [[[|] l]|x] eqn:Hb.
    + rewrite (bindM_ok _ _ _ _ Hb) in Hr. discriminate Hr.
    + rewrite (bindM_ok _ _ _ _ Hb) in Hr. rewrite (bindM_ok _ _ _ _ Hb).
      rewrite returned_mk in Hr. cbv beta iota in Hr |- *.
      rewrite !(bot_after_bind_ok _ _ _ _ Hb), (effects_bind_ok _ _ _ _ Hb).
      cbv beta iota.
      rewrite (IH _ _ _ Hr). rewrite returned_mk, bot_after_mk, effects_of_mk.
      now rewrite app_assoc.
    + rewrite (bindM_raise _ _ _ _ Hb) in Hr. discriminate Hr.
Qed.

Lemma loop_body_cancel_before st loc bot :
  cancel_requested user_id (bot_after (serve (served_before st) bot)) = true ->
  returned (loop_body user_id total_size start st loc bot) = Ok (Return, loc).
Proof.
  intros Hflag. unfold loop_body.
  rewrite (returned_bind_ok _ _ _ _ (serve_returns _ _)), bind_get_bot, Hflag.
  apply cancel_exit_run.
Qed.

Lemma loop_body_cancel_after st loc bot :
  cancel_requested user_id (bot_after (serve (served_before st) bot)) = false ->
  cancel_requested user_id
    (bot_after (serve (served_after_write st)
                  (bot_after (serve (served_before st) bot)))) = true ->
  returned (loop_body user_id total_size start st loc bot)
  = Ok (Return,
        mkLocals (file_data loc ++ chunk st)
                 (downloaded loc + Z.of_nat (length (chunk st)))
                 (last_update_time loc)).
Proof.
  intros Hfirst Hflag. unfold loop_body.
  rewrite (returned_bind_ok _ _ _ _ (serve_returns _ _)), bind_get_bot, Hfirst.
  rewrite (returned_bind_ok _ _ _ _ (serve_returns _ _)), bind_get_bot, Hflag.
  apply cancel_exit_run.
Qed.

Lemma stream_loop_return st post loc bot loc' :
  returned (loop_body user_id total_size start st loc bot) = Ok (Return, loc') ->
  returned (stream_loop user_id total_size start (st :: post) loc bot)
  = Ok (Return, loc').
Proof. intros Hb. simpl. now rewrite (returned_bind_ok _ _ _ _ Hb). Qed.

(** The loop leaves through a [return] as soon as a turn does, after the
    turns before it have gone on. *)
Lemma stream_loop_cancel pre st post loc bot loc1 loc' :
  returned (stream_loop user_id total_size start pre loc bot) = Ok (Next, loc1) ->
  returned (loop_body user_id total_size start st loc1
              (bot_after (stream_loop user_id total_size start pre loc bot)))
  = Ok (Return, loc') ->
  returned (stream_loop user_id total_size start (pre ++ st :: post) loc bot)
  = Ok (Return, loc').
Proof.
  intros Hpre Hst. rewrite (stream_loop_app pre (st :: post) _ _ _ Hpre).
  rewrite returned_mk. now apply stream_loop_return.
Qed.

End Cancellation.

Section CancelledTransfer.
Variables (info : Info) (filename : string) (ft : file_type)
  (user_id : Z) (w : World).

#[local] Abbreviation loop := (first_loop info user_id w).

Lemma download_run bot :
  stream_response w = Ok 200 ->
  download_with_progress info filename ft user_id w bot
  = let k := fun r : Flow * Locals =>
               match r with
               | (Return, loc) => ret (CancelledAfter (downloaded loc))
               | (Next, loc) => after_loop ft filename user_id w loc
               end in
    (returned (bindM (loop (steps w)) k bot),
     bot_after (bindM (loop (steps w)) k bot),
     HttpStream (url info) :: effects_of (bindM (loop (steps w)) k bot)).
Proof.
  intros Hs. unfold download_with_progress.
  unfold bindM at 1, emit at 1. unfold bindM at 1, lift at 1. rewrite Hs.
  cbn [Z.eqb Pos.eqb negb app]. fold (loop (steps w)).
  now destruct (bindM (loop (steps w)) _ bot) as [[r b] e].
Qed.

Lemma no_upload_stream effs :
  forallb quiet_effect effs = true ->
  no_upload (HttpStream (url info) :: effs).
Proof.
  intros Hq e [<-|Hin]; [reflexivity|]. now apply (quiet_not_upload effs).
Qed.

(** A [return] inside the loop ends the transfer as cancelled. *)
Lemma download_cancelled_in_loop bot loc' :
  stream_response w = Ok 200 ->
  returned (loop (steps w) bot) = Ok (Return, loc') ->
  returned (download_with_progress info filename ft user_id w bot)
  = Ok (CancelledAfter (downloaded loc')) /\
  no_upload (effects_of (download_with_progress info filename ft user_id w bot)).
Proof.
  intros Hs Hl. rewrite (download_run bot Hs). cbv zeta.
  rewrite returned_mk, effects_of_mk.
  rewrite (returned_bind_ok _ _ _ _ Hl), (effects_bind_ok _ _ _ _ Hl).
  split; [reflexivity|]. apply no_upload_stream.
  rewrite forallb_app. unfold first_loop.
  now rewrite (quiet_stream_loop user_id (size info) (start_time w) (steps w) _ bot).
Qed.

(** The test before the upload ends the transfer as cancelled. *)
Lemma download_cancelled_at_end bot loc' :
  stream_response w = Ok 200 ->
  returned (loop (steps w) bot) = Ok (Next, loc') ->
  read_error w = None ->
  cancel_requested user_id
    (bot_after (serve (served_at_end w) (bot_after (loop (steps w) bot)))) = true ->
  returned (download_with_progress info filename ft user_id w bot)
  = Ok (CancelledAfter (downloaded loc')) /\
  no_upload (effects_of (download_with_progress info filename ft user_id w bot)).
Proof.
  intros Hs Hl He Hflag. rewrite (download_run bot Hs). cbv zeta.
  rewrite returned_mk, effects_of_mk.
  rewrite (returned_bind_ok _ _ _ _ Hl), (effects_bind_ok _ _ _ _ Hl).
  cbv beta iota. unfold after_loop. rewrite He.
  set (b1 := bot_after (loop (steps w) bot)) in *.
  rewrite (returned_bind_ok (ret tt) _ b1 tt eq_refl),
          (effects_bind_ok (ret tt) _ b1 tt eq_refl), bot_after_ret.
  rewrite (returned_bind_ok _ _ _ _ (serve_returns _ _)),
          (effects_bind_ok _ _ _ _ (serve_returns _ _)).
  rewrite bind_get_bot, Hflag.
  destruct (cancel_exit_run user_id false loc'
              (bot_after (serve (served_at_end w) b1))) as [Hc Hq].
  rewrite (returned_bind_ok _ _ _ _ Hc), (effects_bind_ok _ _ _ _ Hc).
  split; [reflexivity|]. apply no_upload_stream.
  rewrite !forallb_app. unfold first_loop.
  rewrite (quiet_stream_loop user_id (size info) (start_time w) (steps w) _ bot).
  rewrite (quiet_serve (served_at_end w) b1), Hq. reflexivity.
Qed.

End CancelledTransfer.

(** C2. A transfer whose streaming request was answered with 200. If the
    flag of the owner is found set at the test before a chunk is appended,
    at the test after it is appended, or at the test before the upload
    (the turns before having gone on to the next chunk), the transfer
    returns as cancelled with the bytes counted so far, and among its
    effects there is neither the opening of the upload phase nor a
    [send_*] call: the buffer goes nowhere. In particular, with two chunks
    of 8192 bytes and the owner pressing cancel between them, the transfer
    is cancelled with 8192 bytes counted (the first turn going on: the
    size is declared, or no progress update is due at the first chunk). *)
Theorem cancel_halts_before_upload (info : Info) (filename : string)
    (ft : file_type) (user_id : Z) (w : World) (bot : FileUploadBot) :
  stream_response w = Ok 200 ->
  let loop := fun todo =>
    stream_loop user_id (size info) (start_time w) todo
      (mkLocals [] 0 (first_update_time w)) bot in
  let run := download_with_progress info filename ft user_id w bot in
  (forall pre st post loc1,
     steps w = pre ++ st :: post ->
     returned (loop pre) = Ok (Next, loc1) ->
     cancel_requested user_id
       (bot_after (serve (served_before st) (bot_after (loop pre)))) = true ->
     returned run = Ok (CancelledAfter (downloaded loc1)) /\
     no_upload (effects_of run)) /\
  (forall pre st post loc1,
     steps w = pre ++ st :: post ->
     returned (loop pre) = Ok (Next, loc1) ->
     cancel_requested user_id
       (bot_after (serve (served_before st) (bot_after (loop pre)))) = false ->
     cancel_requested user_id
       (bot_after (serve (served_after_write st)
          (bot_after (serve (served_before st) (bot_after (loop pre)))))) = true ->
     returned run
     = Ok (CancelledAfter (downloaded loc1 + Z.of_nat (length (chunk st)))) /\
     no_upload (effects_of run)) /\
  (forall loc1,
     returned (loop (steps w)) = Ok (Next, loc1) ->
     read_error w = None ->
     cancel_requested user_id
       (bot_after (serve (served_at_end w) (bot_after (loop (steps w))))) = true ->
     returned run = Ok (CancelledAfter (downloaded loc1)) /\
     no_upload (effects_of run)) /\
  (forall c1 c2 t1 t2 ok1 ok2 later,
     Z.of_nat (length c1) = 8192 -> Z.of_nat (length c2) = 8192 ->
     (size info = None -> Qle_bool 2 (t1 - first_update_time w) = false) ->
     cancel_requested user_id bot = false ->
     steps w = [mkStep [] c1 [] t1 ok1;
                mkStep [mkClick user_id user_id] c2 later t2 ok2] ->
     returned run = Ok (CancelledAfter 8192) /\
     no_upload (effects_of run)).
Proof.
  intros Hs loop run.
  assert (HA : forall pre st post loc1,
     steps w = pre ++ st :: post ->
     returned (loop pre) = Ok (Next, loc1) ->
     cancel_requested user_id
       (bot_after (serve (served_before st) (bot_after (loop pre)))) = true ->
     returned run = Ok (CancelledAfter (downloaded loc1)) /\
     no_upload (effects_of run)).
  { intros pre st post loc1 Hsteps Hpre Hflag.
    apply (download_cancelled_in_loop info filename ft user_id w bot loc1 Hs).
    rewrite Hsteps. apply (stream_loop_cancel _ _ _ pre st post _ _ loc1 loc1 Hpre).
    now apply loop_body_cancel_before. }
  split; [exact HA|]. split; [|split].
  - intros pre st post loc1 Hsteps Hpre Hfirst Hflag.
    set (loc' := mkLocals (file_data loc1 ++ chunk st)
                   (downloaded loc1 + Z.of_nat (length (chunk st)))
                   (last_update_time loc1)).
    apply (download_cancelled_in_loop info filename ft user_id w bot loc' Hs).
    rewrite Hsteps. apply (stream_loop_cancel _ _ _ pre st post _ _ loc1 loc' Hpre).
    now apply loop_body_cancel_after.
  - intros loc1 Hl He Hflag.
    now apply (download_cancelled_at_end info filename ft user_id w bot loc1).
  - intros c1 c2 t1 t2 ok1 ok2 later Hc1 Hc2 Hn Hflag Hsteps.
    set (st1 := mkStep [] c1 [] t1 ok1) in *.
    set (st2 := mkStep [mkClick user_id user_id] c2 later t2 ok2) in *.
    assert (Hcalm : Forall (calm user_id (size info) (first_update_time w)) [st1]).
    { constructor; [|constructor]. repeat split. exact Hn. }
    destruct (stream_loop_calm user_id (size info) (start_time w)
                (first_update_time w) [st1] Hcalm
                (mkLocals [] 0 (first_update_time w)) bot Hflag
                (fun _ => eq_refl)) as (loc1 & Hpre & _).
    destruct (stream_loop_next user_id (size info) (start_time w) [st1]
                (mkLocals [] 0 (first_update_time w)) bot (Next, loc1) Hpre
                eq_refl) as [_ Hd].
    cbn [map concat chunk st1 downloaded snd] in Hd.
    rewrite app_nil_r, Hc1 in Hd.
    replace 8192 with (downloaded loc1) by exact Hd.
    apply (HA [st1] st2 [] loc1 Hsteps Hpre).
    destruct (own_click_sets_flag user_id [] (bot_after (loop [st1])))
      as [Hset|Hno]; [exact Hset | now elim Hno].
Qed.

Lemma cancel_halts_before_upload_witness :
  returned
    (download_with_progress
       (mkInfo (Some 16384) "" "https://example.com/a.bin") "a.bin" document 7
       cancel_between_world empty_bot)
  = Ok (CancelledAfter 8192).
Proof.
  refine (proj1 (proj2 (proj2 (proj2
            (cancel_halts_before_upload
               (mkInfo (Some 16384) "" "https://example.com/a.bin") "a.bin"
               document 7 cancel_between_world empty_bot eq_refl)))
            (repeat Byte.x00 (Z.to_nat 8192)) (repeat Byte.x01 (Z.to_nat 8192))
            1%Q 2%Q true true [] _ _ _ eq_refl eq_refl)).
  - rewrite repeat_length. reflexivity.
  - rewrite repeat_length. reflexivity.
  - discriminate.
Defined.

(** The same scenario through the handler: the exit is the cancelled one,
    8192 bytes counted, no [send_*] call, entry and flag gone. *)
Example handle_url_cancel_between :
  let run := handle_url 7 "https://example.com/a.bin" cancel_between_world
               empty_bot in
  returned run = Ok (Cancelled 8192) /\
  existsb is_upload (effects_of run) = false /\
  bot_after run = empty_bot.
Proof. vm_compute. repeat split. Qed.

(** * Further properties of the code *)

(** ** Sizes as text *)

Ltac leb_cases :=
  match goal with
  | |- (?a <=? ?b) = (?c <=? ?d) =>
      destruct (Z.leb_spec a b), (Z.leb_spec c d);
      try reflexivity; exfalso; cbn in *; lia
  end.

Lemma Qle_bool_1024_B n : Qle_bool 1024 (inject_Z n) = (1024 <=? n).
Proof. unfold Qle_bool, inject_Z. simpl. leb_cases. Qed.

Lemma Qle_bool_1024_KB n :
  Qle_bool 1024 (inject_Z n / 1024) = (1024 * 1024 <=? n).
Proof. unfold Qle_bool, inject_Z, Qdiv, Qmult, Qinv. simpl. leb_cases. Qed.

Lemma Qle_bool_1024_MB n :
  Qle_bool 1024 (inject_Z n / 1024 / 1024) = (1024 * 1024 * 1024 <=? n).
Proof. unfold Qle_bool, inject_Z, Qdiv, Qmult, Qinv. simpl. leb_cases. Qed.

Lemma nearest_double_sign n : 0 <= n -> 0 <= nearest_double n.
Proof.
  intros Hn. unfold nearest_double.
  destruct (Z.leb_spec (Z.log2 (Z.abs n) - 52) 0) as [|He]; [exact Hn|].
  set (e := Z.log2 (Z.abs n) - 52) in *.
  assert (Hp : 0 < 2 ^ e) by (apply Z.pow_pos_nonneg; lia).
  assert (Hq : 0 <= Z.abs n / 2 ^ e) by (apply Z.div_pos; lia).
  apply Z.mul_nonneg_nonneg; [destruct n; cbn; lia|].
  apply Z.mul_nonneg_nonneg; [|lia].
  destruct (_ <? _); [exact Hq|].
  destruct (_ <? _); [lia|]. destruct (Z.even _); lia.
Qed.

(** An integer of at least 2^53 is rounded to a double of at least 2^53. *)
Lemma nearest_double_large n : 2 ^ 53 <= n -> 2 ^ 53 <= nearest_double n.
Proof.
  intros Hn.
  assert (H53 : 0 < 2 ^ 53) by (apply Z.pow_pos_nonneg; lia).
  assert (Ha : Z.abs n = n) by lia.
  assert (Hk : 53 <= Z.log2 (Z.abs n)) by (apply Z.log2_le_pow2; lia).
  pose proof (nearest_double_sign n ltac:(lia)) as Hs.
  destruct (nearest_double_shape n) as (q' & Hq' & Hq & _); [lia|].
  cbv zeta in *. rewrite (Z.abs_eq _ Hs) in Hq'. rewrite Hq'.
  set (a := Z.abs n) in *. set (e := Z.log2 a - 52) in *.
  pose proof (log2_bounds a ltac:(lia)) as [Hlo _].
  assert (He : 0 < e) by (unfold e; lia).
  assert (Hp : 0 < 2 ^ e) by (apply Z.pow_pos_nonneg; lia).
  assert (Hqge : 2 ^ 52 <= a / 2 ^ e).
  { apply Z.div_le_lower_bound; [lia|].
    rewrite <- Z.pow_add_r by lia.
    replace (e + 52) with (Z.log2 a) by (unfold e; lia). lia. }
  assert (Hm : 2 ^ 52 * 2 ^ e <= q' * 2 ^ e)
    by (apply Z.mul_le_mono_nonneg_r; lia).
  rewrite <- Z.pow_add_r in Hm by lia.
  replace (52 + e) with (Z.log2 a) in Hm by (unfold e; lia).
  assert (2 ^ 53 <= 2 ^ Z.log2 a) by (apply Z.pow_le_mono_r; lia). lia.
Qed.

Lemma nearest_double_GB n : 1024 * 1024 * 1024 <= n ->
  1024 * 1024 * 1024 <= nearest_double n.
Proof.
  intros Hn. destruct (Z_lt_le_dec n (2 ^ 53)) as [Hlt|Hge].
  - rewrite nearest_double_exact; [exact Hn | lia].
  - pose proof (nearest_double_large n Hge).
    assert (1024 * 1024 * 1024 <= 2 ^ 53) by (apply Z.leb_le; reflexivity). lia.
Qed.

(** X1. [format_file_size] of a byte count. It prints ["0 B"] for 0. For an
    integer that has a float, the unit is B below 1024, KB from 1024, MB
    from 1024^2 and GB from 1024^3 on, with no unit above GB, and the
    number is the float of the byte count divided by 1024 once per step
    of unit; that float is the byte count itself below 2^53. For an
    integer of magnitude 2^1024 - 2^970 or more, which has no float, the
    call raises [OverflowError]. On a float it never raises. *)
Theorem format_file_size_units (n : Z) :
  format_file_size (PyInt 0) = Ok ZeroBytes /\
  (n <> 0 -> - 2 ^ 53 < n < 1024 ->
   format_file_size (PyInt n) = Ok (Scaled (inject_Z n) "B")) /\
  (1024 <= n < 1024 * 1024 ->
   format_file_size (PyInt n) = Ok (Scaled (inject_Z n / 1024) "KB")) /\
  (1024 * 1024 <= n < 1024 * 1024 * 1024 ->
   format_file_size (PyInt n) = Ok (Scaled (inject_Z n / 1024 / 1024) "MB")) /\
  (1024 * 1024 * 1024 <= n < float_limit ->
   format_file_size (PyInt n)
   = Ok (Scaled (inject_Z (nearest_double n) / 1024 / 1024 / 1024) "GB")) /\
  (Z.abs n < 2 ^ 53 -> nearest_double n = n) /\
  (float_limit <= Z.abs n -> format_file_size (PyInt n) = Raise OverflowError) /\
  (forall x : Q, exists shown, format_file_size (PyFloat x) = Ok shown).
Proof.
  assert (H53 : 1024 * 1024 * 1024 < 2 ^ 53) by (apply Z.ltb_lt; reflexivity).
  assert (Hstep : n <> 0 -> 1024 <= n -> Z.abs n < float_limit ->
    format_file_size (PyInt n)
    = scale_size (PyFloat (inject_Z (nearest_double n) / 1024)%Q) "KB" ["MB"; "GB"]
      >>= fun scaled => to_float (fst scaled) >>= fun x => Ok (Scaled x (snd scaled))).
  { intros Hn Hge Hfl. unfold format_file_size. cbn [is_zero].
    destruct (Z.eqb_spec n 0) as [|_]; [contradiction|].
    change (scale_size (PyInt n) "B" ["KB"; "MB"; "GB"])
      with (if 1024 <=? n
            then float_of_int n >>= fun x =>
                 scale_size (PyFloat (x / 1024)%Q) "KB" ["MB"; "GB"]
            else Ok (PyInt n, "B")).
    destruct (Z.leb_spec 1024 n) as [_|]; [|lia].
    now rewrite (float_of_int_finite n Hfl). }
  assert (Hsmall : Z.abs n < 2 ^ 53 -> Z.abs n < float_limit).
  { intros H. apply Z.lt_trans with (1 := H). reflexivity. }
  split; [reflexivity|].
  split.
  { intros Hn [Hlo Hhi]. unfold format_file_size. cbn [is_zero].
    destruct (Z.eqb_spec n 0) as [|_]; [contradiction|].
    cbn [scale_size at_least_1024].
    destruct (Z.leb_spec 1024 n); [lia|].
    cbn [bind fst snd to_float]. rewrite float_of_int_exact; [reflexivity|lia]. }
  split.
  { intros [Hlo Hhi]. rewrite Hstep by lia.
    rewrite nearest_double_exact by lia.
    cbn [scale_size at_least_1024]. rewrite Qle_bool_1024_KB.
    destruct (Z.leb_spec (1024 * 1024) n); [lia | reflexivity]. }
  split.
  { intros [Hlo Hhi]. rewrite Hstep by lia.
    rewrite nearest_double_exact by lia.
    cbn [scale_size at_least_1024 to_float bind].
    rewrite Qle_bool_1024_KB, Qle_bool_1024_MB.
    destruct (Z.leb_spec (1024 * 1024) n); [|lia].
    destruct (Z.leb_spec (1024 * 1024 * 1024) n); [lia | reflexivity]. }
  split.
  { intros [Hlo Hhi]. rewrite Hstep by lia.
    pose proof (nearest_double_GB n Hlo) as Hgb.
    cbn [scale_size at_least_1024 to_float bind].
    rewrite Qle_bool_1024_KB, Qle_bool_1024_MB.
    destruct (Z.leb_spec (1024 * 1024) (nearest_double n)); [|lia].
    destruct (Z.leb_spec (1024 * 1024 * 1024) (nearest_double n));
      [reflexivity | lia]. }
  split; [apply nearest_double_exact|].
  split.
  { intros Hfl. apply format_file_size_overflow; [|exact Hfl].
    intros ->. revert Hfl. apply Z.lt_nge. reflexivity. }
  intros x. unfold format_file_size. destruct (is_zero (PyFloat x)); [eauto|].
  destruct (scale_size_float ["KB"; "MB"; "GB"] x "B") as (y & unit & ->).
  cbn. eauto.
Qed.

Lemma format_file_size_units_witness :
  format_file_size (PyInt 1536) = Ok (Scaled (inject_Z 1536 / 1024) "KB") /\
  format_file_size (PyInt MAX_FILE_SIZE)
  = Ok (Scaled (inject_Z (nearest_double MAX_FILE_SIZE) / 1024 / 1024 / 1024) "GB") /\
  format_file_size (PyInt (2 ^ 1024)) = Raise OverflowError.
Proof.
  split; [|split].
  - apply (format_file_size_units 1536). lia.
  - apply (format_file_size_units MAX_FILE_SIZE).
    split; [apply Z.leb_le | apply Z.ltb_lt]; reflexivity.
  - apply (format_file_size_units (2 ^ 1024)). apply Z.leb_le. reflexivity.
Defined.

(** ** The category of a file *)

Lemma contains_char c s :
  PyStr.contains (String c EmptyString) s = has_char c s.
Proof.
  induction s as [|a s IH]; [reflexivity|].
  cbn [PyStr.contains has_char]. rewrite IH. f_equal.
  cbn [String.prefix]. destruct (ascii_dec c a) as [<-|Hne].
  - rewrite Ascii.eqb_refl. now destruct s.
  - symmetry. apply Ascii.eqb_neq. congruence.
Qed.

Lemma mem_cases x l : mem x l = true -> In x l.
Proof.
  unfold mem. rewrite existsb_exists. intros (y & Hin & Heq).
  apply String.eqb_eq in Heq. now subst.
Qed.

(** X2. An extension of one of the three lists decides the category of a
    file whatever the content type says, the list of the pictures first;
    and the name counts only through its lowercase form and the presence
    of a dot: two names that agree on both are of the same category. *)
Theorem get_file_type_by_extension `{Lib : PyLib}
    (filename : string) (ct : option string) :
  (mem (extension filename) PHOTO_TYPES = true -> get_file_type filename ct = photo) /\
  (mem (extension filename) VIDEO_TYPES = true -> get_file_type filename ct = video) /\
  (mem (extension filename) AUDIO_TYPES = true -> get_file_type filename ct = audio) /\
  (forall other,
     py_lower other = py_lower filename ->
     PyStr.contains "." other = PyStr.contains "." filename ->
     get_file_type other ct = get_file_type filename ct).
Proof.
  unfold get_file_type. repeat split.
  - intros H. now rewrite H.
  - intros H. apply mem_cases in H. simpl in H.
    repeat (destruct H as [<-|H]; [reflexivity|]). contradiction.
  - intros H. apply mem_cases in H. simpl in H.
    repeat (destruct H as [<-|H]; [reflexivity|]). contradiction.
  - intros other Hlow Hdot. unfold extension. now rewrite Hlow, Hdot.
Qed.

Lemma get_file_type_by_extension_witness :
  get_file_type "Clip.MP4" (Some "image/png") = video.
Proof.
  apply (get_file_type_by_extension "Clip.MP4" (Some "image/png")).
  reflexivity.
Defined.

(** ** The file name taken from the path *)

Lemma has_char_rev_acc c s acc :
  has_char c (PyStr.rev_acc s acc) = has_char c s || has_char c acc.
Proof.
  revert acc. induction s as [|a s IH]; intros acc; [reflexivity|].
  simpl. rewrite IH. simpl. now destruct (Ascii.eqb a c), (has_char c s).
Qed.

Lemma split_go_not_nil sep s : forall skip cur, PyStr.split_go sep skip cur s <> [].
Proof.
  induction s as [|a s IH]; intros skip cur; cbn [PyStr.split_go]; [easy|].
  destruct skip; [|apply IH].
  destruct (String.prefix sep (String a s)); [easy | apply IH].
Qed.

Lemma split_char_pieces c s :
  forall cur, has_char c cur = false ->
    Forall (fun piece => has_char c piece = false)
           (PyStr.split_go (String c EmptyString) O cur s).
Proof.
  induction s as [|a s IH]; intros cur Hcur.
  - constructor; [|constructor]. now rewrite has_char_rev_acc, Hcur.
  - cbn [PyStr.split_go String.length Nat.sub String.prefix].
    destruct (ascii_dec c a) as [<-|Hne].
    + replace (String.prefix EmptyString s) with true by now destruct s.
      constructor; [now rewrite has_char_rev_acc, Hcur | now apply IH].
    + apply IH. simpl. rewrite Hcur, orb_false_r.
      apply Ascii.eqb_neq. congruence.
Qed.

Lemma Forall_last {A : Type} (P : A -> Prop) (l : list A) (d : A) :
  l <> [] -> Forall P l -> P (List.last l d).
Proof.
  induction l as [|x l IH]; [easy|]. intros _ Hall.
  apply Forall_cons_iff in Hall as [Hx Hl]. destruct l as [|y l]; [exact Hx|].
  now apply IH.
Qed.

(** X3. When the last segment of the decoded path has a dot in it, the file
    name is that segment, whatever the query holds, and there is no slash
    in it. *)
Theorem extract_filename_from_path `{Lib : PyLib}
    (target : string) (now : Z) (parsed : ParseResult) :
  urlparse target = Some parsed ->
  let segment := List.last (PyStr.split (unquote (parsed_path parsed)) "/") "" in
  no_name segment = false ->
  extract_filename_from_url target now = segment /\
  has_char "/"%char (extract_filename_from_url target now) = false.
Proof.
  intros Hparse segment Hname.
  assert (Hrun : extract_filename_from_url target now = segment).
  { unfold extract_filename_from_url, extract_filename_try. rewrite Hparse.
    unfold PyStr.item_last.
    destruct (PyStr.split (unquote (parsed_path parsed)) "/") as [|p l] eqn:Hs.
    - now apply split_go_not_nil in Hs.
    - cbn [bind]. fold segment. rewrite Hname. cbn [bind]. now rewrite Hname. }
  split; [exact Hrun|]. rewrite Hrun. subst segment.
  apply (Forall_last (fun piece => has_char "/"%char piece = false)).
  - apply split_go_not_nil.
  - now apply (split_char_pieces "/"%char).
Qed.

Lemma extract_filename_from_path_witness :
  extract_filename_from_url (Lib := Sample.sample_lib)
    "https://example.com/files/report.final.pdf?file=other.txt" 0
  = "report.final.pdf".
Proof.
  apply (extract_filename_from_path (Lib := Sample.sample_lib)
           "https://example.com/files/report.final.pdf?file=other.txt" 0
           (mkParse "/files/report.final.pdf" "file=other.txt")
           eq_refl eq_refl).
Defined.

(** ** The URLs that [handle_url] takes *)

Lemma substring_all s : String.substring 0 (String.length s) s = s.
Proof. induction s as [|c s IH]; [reflexivity|]. simpl. now rewrite IH. Qed.

Lemma append_cons c p r : String c p +:+ r = String c (p +:+ r).
Proof. reflexivity. Qed.

Lemma prefix_split p :
  forall s, String.prefix p s = true ->
    s = p +:+ String.substring (String.length p)
                (String.length s - String.length p) s.
Proof.
  induction p as [|c p IH]; intros s Hp.
  - simpl. rewrite Nat.sub_0_r. symmetry. apply substring_all.
  - destruct s as [|a s]; [discriminate Hp|].
    rewrite prefix_cons in Hp. destruct (ascii_dec c a) as [<-|]; [|discriminate].
    rewrite append_cons. simpl. f_equal. now apply IH.
Qed.

Lemma prefix_append p r : String.prefix p (p +:+ r) = true.
Proof.
  induction p as [|c p IH]; [now destruct r|].
  rewrite append_cons, prefix_cons.
  now destruct (ascii_dec c c).
Qed.

Lemma append_inj_r p r r' : p +:+ r = p +:+ r' -> r = r'.
Proof.
  induction p as [|c p IH]; [easy|]. rewrite !append_cons.
  intros [= H]. now apply IH.
Qed.

Lemma after_prefix_spec p s r : after_prefix p s = Some r <-> s = p +:+ r.
Proof.
  unfold after_prefix. split.
  - destruct (String.prefix p s) eqn:Hp; [|discriminate].
    intros [= <-]. now apply prefix_split.
  - intros ->. rewrite prefix_append. f_equal.
    apply (append_inj_r p). symmetry. apply prefix_split, prefix_append.
Qed.

Lemma some_char_spec s :
  some_char s = true <-> exists c rest, s = String c rest /\ c <> "010"%char.
Proof.
  destruct s as [|c rest]; simpl.
  - split; [discriminate | now intros (c & rest & H & _)].
  - rewrite negb_true_iff, Ascii.eqb_neq. split.
    + intros Hc. now exists c, rest.
    + now intros (c' & rest' & [= <- <-] & Hc).
Qed.

Lemma valid_url_shape t :
  valid_url t = true <->
  exists c rest, c <> "010"%char /\
    (t = "http://" +:+ String c rest \/ t = "https://" +:+ String c rest).
Proof.
  unfold valid_url. split.
  - destruct (after_prefix "http://" t) as [r|] eqn:H1.
    + intros (c & rest & -> & Hc)%some_char_spec.
      apply after_prefix_spec in H1. exists c, rest. auto.
    + destruct (after_prefix "https://" t) as [r|] eqn:H2; [|discriminate].
      intros (c & rest & -> & Hc)%some_char_spec.
      apply after_prefix_spec in H2. exists c, rest. auto.
  - intros (c & rest & Hc & [-> | ->]).
    + rewrite (proj2 (after_prefix_spec "http://" _ (String c rest)) eq_refl).
      apply some_char_spec. now exists c, rest.
    + replace (after_prefix "http://" ("https://" +:+ String c rest))
        with (@None string) by reflexivity.
      rewrite (proj2 (after_prefix_spec "https://" _ (String c rest)) eq_refl).
      apply some_char_spec. now exists c, rest.
Qed.

(** X4. [handle_url] takes the stripped text exactly when it is [http://] or
    [https://] followed by at least one character, the first of which is
    not a line feed; any other text is answered with the reminder and
    nothing else: no entry, no request, whoever sends it. *)
Theorem handle_url_url_check `{Lib : PyLib}
    (user_id : Z) (text : string) (w : World) (bot : FileUploadBot) :
  let t := py_strip text in
  (valid_url t = true <->
   exists c rest, c <> "010"%char /\
     (t = "http://" +:+ String c rest \/ t = "https://" +:+ String c rest)) /\
  (valid_url t = false ->
   handle_url user_id text w bot = (Ok InvalidUrl, bot, [Reply MsgInvalidUrl])) /\
  (valid_url t = true ->
   returned (handle_url user_id text w bot) <> Ok InvalidUrl).
Proof.
  intros t. split; [apply valid_url_shape|]. split.
  - intros Hv. unfold handle_url. fold t. now rewrite Hv.
  - intros Hv. destruct (is_active user_id bot) eqn:Ha.
    + now rewrite (handle_url_already_active _ _ _ _ Hv Ha).
    + rewrite (handle_url_admitted _ _ _ _ Hv Ha), returned_mk.
      destruct (session_returns user_id (py_strip text) w (admitted user_id bot))
        as (o & -> & Ho).
      intros [= ->]. exact Ho.
Qed.

Lemma handle_url_url_check_witness :
  handle_url (Lib := Sample.sample_lib) 7 "  ftp://example.com/a.bin "
    empty_body_world empty_bot
  = (Ok InvalidUrl, empty_bot, [Reply MsgInvalidUrl]).
Proof.
  apply (handle_url_url_check (Lib := Sample.sample_lib) 7
           "  ftp://example.com/a.bin " empty_body_world empty_bot).
  reflexivity.
Defined.

(** ** The requests of the probe *)

(** X5. The probe leaves the shared instance alone, always makes the HEAD
    request, and makes the ranged GET exactly when the HEAD request was
    answered with a status other than 200; a HEAD answer with status 200
    is the one the result is built from. *)
Theorem check_url_info_requests `{Lib : PyLib}
    (target : string) (w : World) (bot : FileUploadBot) :
  let run := check_url_info target w bot in
  bot_after run = bot /\
  In (HttpHead target) (effects_of run) /\
  (In (HttpRangeGet target) (effects_of run) <->
   exists h, head_response w = Ok h /\ status_code h <> 200) /\
  (forall h, head_response w = Ok h -> status_code h = 200 ->
     match declared_size (content_length_header h) with
     | Ok declared =>
         returned run
         = Ok (Some (mkInfo declared (default "" (content_type_header h))
                            (response_url h)))
     | Raise e => returned run = Ok None
     end).
Proof.
  cbv zeta.
  unfold check_url_info, check_url_info_try, catch, bindM, emit, lift, ret,
    returned, effects_of, bot_after.
  destruct (head_response w) as [h|e]; simpl.
  - destruct (Z.eqb_spec (status_code h) 200) as [Hs|Hs]; simpl.
    + destruct (declared_size (content_length_header h)) eqn:Hd; simpl;
        (split; [reflexivity|]); (split; [now left|]); split.
      * split; [intros [H|[]]; discriminate H |].
        intros (h' & [= <-] & Hne). contradiction.
      * intros h' [= <-] _. now rewrite Hd.
      * split; [intros [H|[H|[]]]; discriminate H |].
        intros (h' & [= <-] & Hne). contradiction.
      * intros h' [= <-] _. now rewrite Hd.
    + destruct (get_response w) as [g|e]; simpl.
      * destruct (declared_size (content_length_header g)); simpl;
          (split; [reflexivity|]); (split; [now left|]); split;
          try (split; [intros _; now exists h | intros _; right; now left]);
          intros h' [= <-] Heq; contradiction.
      * (split; [reflexivity|]); (split; [now left|]); split.
        -- split; [intros _; now exists h | intros _; right; now left].
        -- intros h' [= <-] Heq; contradiction.
  - (split; [reflexivity|]); (split; [now left|]); split.
    + split; [intros [H|[H|[]]]; discriminate H |].
      intros (h' & H & _). discriminate H.
    + intros h' H. discriminate H.
Qed.

Lemma check_url_info_requests_witness :
  returned (check_url_info (Lib := Sample.sample_lib)
              "https://example.com/download" empty_body_world empty_bot)
  = Ok (Some (mkInfo None "" "https://example.com/download")).
Proof.
  pose proof (check_url_info_requests (Lib := Sample.sample_lib)
                "https://example.com/download" empty_body_world empty_bot)
    as (_ & _ & _ & H).
  exact (H (mkResponse 200 None None "https://example.com/download")
           eq_refl eq_refl).
Defined.

(** ** The cancel button, pressed by its owner *)

Lemma drop7_cancel_data r : drop7 ("cancel:" +:+ r) = r.
Proof.
  unfold drop7. apply (append_inj_r "cancel:"). symmetry.
  apply (prefix_split "cancel:"), prefix_append.
Qed.

Lemma cancel_branch_owner u bot :
  let run := cancel_branch (mkClick u u) bot in
  returned run = Ok true /\
  cancel_requested u (bot_after run) = true /\
  is_active u (bot_after run) = false /\
  forall v, v <> u ->
    active_downloads (bot_after run) !! v = active_downloads bot !! v /\
    cancel_requested v (bot_after run) = cancel_requested v bot.
Proof.
  cbv zeta.
  cbv [cancel_branch add_cancel del_active returned bot_after bindM get_bot
       put_bot emit ret fst snd from_user cancel_target].
  rewrite Z.eqb_refl.
  destruct (is_active u _) eqn:Ha; cbv [fst snd].
  - split; [reflexivity|]. split; [|split].
    + unfold cancel_requested. apply bool_decide_eq_true. simpl.
      rewrite elem_of_union, elem_of_singleton. now left.
    + unfold is_active. apply bool_decide_eq_false. simpl.
      rewrite lookup_delete_eq. intros [x Hx]. discriminate.
    + intros v Hv. simpl. split; [now apply lookup_delete_ne|].
      unfold cancel_requested. apply bool_decide_ext. simpl.
      rewrite elem_of_union, elem_of_singleton. intuition congruence.
  - split; [reflexivity|]. split; [|split].
    + unfold cancel_requested. apply bool_decide_eq_true. simpl.
      rewrite elem_of_union, elem_of_singleton. now left.
    + exact Ha.
    + intros v Hv. simpl. split; [reflexivity|].
      unfold cancel_requested. apply bool_decide_ext. simpl.
      rewrite elem_of_union, elem_of_singleton. intuition congruence.
Qed.

(** X6. The data put on the cancel button of a download, pressed by the owner
    of the download, comes back as the owner's id: the press sets the
    owner's flag, removes the owner's entry and touches nobody else's.
    (The builtin [int] reads back what [str] printed.) *)
Theorem cancel_button_round_trip `{Lib : PyLib} (owner : Z) (bot : FileUploadBot) :
  py_int (pretty owner) = Some owner ->
  let run := handle_callback (cancel_callback_data owner) owner bot in
  returned run = Ok tt /\
  cancel_requested owner (bot_after run) = true /\
  is_active owner (bot_after run) = false /\
  forall v, v <> owner ->
    active_downloads (bot_after run) !! v = active_downloads bot !! v /\
    cancel_requested v (bot_after run) = cancel_requested v bot.
Proof.
  intros Hint run. subst run. unfold cancel_callback_data.
  assert (Hpre : PyStr.startswith ("cancel:" +:+ pretty owner) "cancel:" = true)
    by apply prefix_append.
  destruct (cancel_prefix_not_other _ Hpre) as (Hh & Ha & Hu).
  unfold handle_callback.
  rewrite (returned_bind_ok (emit (AnswerQuery None false)) _ bot tt eq_refl),
          (bot_after_bind_ok (emit (AnswerQuery None false)) _ bot tt eq_refl).
  rewrite Hh, Ha, Hu, Hpre, drop7_cancel_data, Hint.
  destruct (cancel_branch_owner owner (bot_after (emit (AnswerQuery None false) bot)))
    as (Hr & Hflag & Hact & Hothers).
  rewrite (returned_bind_ok _ _ _ _ Hr), (bot_after_bind_ok _ _ _ _ Hr).
  rewrite bot_after_ret. repeat split; try assumption; now apply Hothers.
Qed.

Lemma cancel_button_round_trip_witness :
  cancel_requested 42
    (bot_after (handle_callback (Lib := Sample.sample_lib)
                  (cancel_callback_data 42) 42 (mkBot {[42 := true]} ∅)))
  = true.
Proof.
  apply (cancel_button_round_trip (Lib := Sample.sample_lib) 42
           (mkBot {[42 := true]} ∅)).
  reflexivity.
Defined.

(** X7. A cancel button whose data does not end with an integer makes
    [handle_callback] raise [ValueError] once the query is answered, with
    the shared instance unchanged. *)
Theorem handle_callback_bad_cancel_data `{Lib : PyLib}
    (data : string) (presser : Z) (bot : FileUploadBot) :
  PyStr.startswith data "cancel:" = true ->
  py_int (drop7 data) = None ->
  handle_callback data presser bot
  = (Raise ValueError, bot, [AnswerQuery None false]).
Proof.
  intros Hpre Hint.
  destruct (cancel_prefix_not_other data Hpre) as (Hh & Ha & Hu).
  unfold handle_callback. unfold bindM at 1. simpl.
  now rewrite Hh, Ha, Hu, Hpre, Hint.
Qed.

Lemma handle_callback_bad_cancel_data_witness :
  handle_callback (Lib := Sample.sample_lib) "cancel:abc" 7 empty_bot
  = (Raise ValueError, empty_bot, [AnswerQuery None false]).
Proof.
  apply (handle_callback_bad_cancel_data (Lib := Sample.sample_lib)
           "cancel:abc" 7 empty_bot); reflexivity.
Defined.

(** ** The cleanup of [handle_url] *)

(** X8. The [finally] clause run a second time finds nothing to do: no
    deletion is executed and the shared instance stays as the first run
    left it; other owners' entries and flags are never touched by it. *)
Theorem handle_url_finally_idempotent (user_id : Z) (bot : FileUploadBot) :
  let once := handle_url_finally user_id bot in
  handle_url_finally user_id (bot_after once) = (Ok tt, bot_after once, []) /\
  forall v, v <> user_id ->
    active_downloads (bot_after once) !! v = active_downloads bot !! v /\
    cancel_requested v (bot_after once) = cancel_requested v bot.
Proof.
  cbv zeta.
  destruct (handle_url_finally_spec user_id bot) as (_ & Hact & Hflag).
  split.
  - set (b := bot_after (handle_url_finally user_id bot)) in *.
    cbv [handle_url_finally del_active discard_cancel bindM get_bot put_bot
         emit ret]. rewrite Hact. cbv [fst snd app].
    f_equal. f_equal. destruct b as [act can]. f_equal. simpl.
    unfold cancel_requested in Hflag. apply bool_decide_eq_false in Hflag.
    simpl in Hflag. apply set_eq. intros x.
    rewrite elem_of_difference, elem_of_singleton. split; [tauto|].
    intros Hx. split; [exact Hx | congruence].
  - intros v Hv.
    cbv [handle_url_finally del_active discard_cancel bindM get_bot put_bot
         emit ret bot_after].
    destruct (is_active user_id bot); cbv [fst snd]; simpl.
    + split; [now apply lookup_delete_ne|].
      unfold cancel_requested. apply bool_decide_ext. simpl.
      rewrite elem_of_difference, elem_of_singleton. intuition congruence.
    + split; [reflexivity|].
      unfold cancel_requested. apply bool_decide_ext. simpl.
      rewrite elem_of_difference, elem_of_singleton. intuition congruence.
Qed.

(** ** What a submission never does *)

Lemma only_nil ok b : only ok b [] b.
Proof. reflexivity. Qed.

Lemma only_app ok b1 e1 b2 e2 b3 :
  only ok b1 e1 b2 -> only ok b2 e2 b3 -> only ok b1 (e1 ++ e2) b3.
Proof. unfold only. intros H1 H2. now rewrite forallb_app, H1, H2. Qed.

Lemma only_emit ok e : ok e = true -> respects (only ok) (emit e).
Proof. intros He bot. unfold only. simpl. now rewrite He. Qed.

Lemma only_del_active ok u :
  ok (RegistryDelete u) = true -> respects (only ok) (del_active u).
Proof.
  intros Hok bot.
  unfold only, del_active, bindM, get_bot, put_bot, emit, ret, effects_of.
  destruct (is_active u bot); simpl; [now rewrite Hok | reflexivity].
Qed.

Lemma only_set_active ok u :
  ok (RegistryInsert u) = true -> respects (only ok) (set_active u).
Proof. intros Hok bot. unfold only. simpl. now rewrite Hok. Qed.

Lemma only_add_cancel ok u : respects (only ok) (add_cancel u).
Proof. intros bot. reflexivity. Qed.

Lemma only_discard_cancel ok u : respects (only ok) (discard_cancel u).
Proof. intros bot. reflexivity. Qed.

Create HintDb only.
#[local] Hint Resolve only_add_cancel only_discard_cancel : only.

Ltac only_leaf :=
  first [ assumption
        | apply only_emit; reflexivity
        | apply only_del_active; reflexivity
        | apply only_set_active; reflexivity
        | solve [auto with only] ].

Ltac only_tac := respects_all only_nil only_app only_leaf.

Lemma not_send_serve cs : respects (only not_send) (serve cs).
Proof.
  induction cs as [|c cs IH]; simpl.
  - only_tac.
  - unfold serve_click, cancel_branch. only_tac.
Qed.

Lemma not_progress_serve cs : respects (only not_progress) (serve cs).
Proof.
  induction cs as [|c cs IH]; simpl.
  - only_tac.
  - unfold serve_click, cancel_branch. only_tac.
Qed.

#[local] Hint Resolve not_send_serve not_progress_serve : only.

Section NoSend.

Lemma not_send_loop_body u total start st loc :
  respects (only not_send) (loop_body u total start st loc).
Proof. unfold loop_body, cancel_exit, progress_update. only_tac. Qed.

Hint Resolve not_send_loop_body : only.

Lemma not_send_stream_loop u total start todo :
  forall loc, respects (only not_send) (stream_loop u total start todo loc).
Proof. induction todo as [|st todo IH]; intros loc; simpl; only_tac. Qed.

Lemma not_send_upload_phase ft filename buffer w :
  respects (only not_send) (upload_phase ft filename buffer w).
Proof. intros bot. now rewrite upload_phase_raises. Qed.

Hint Resolve not_send_stream_loop not_send_upload_phase : only.

Lemma not_send_download info filename ft u w :
  respects (only not_send) (download_with_progress info filename ft u w).
Proof. unfold download_with_progress, after_loop, cancel_exit. only_tac. Qed.

Hint Resolve not_send_download : only.

Context `{Lib : PyLib}.

Lemma not_send_handle_url u text w :
  respects (only not_send) (handle_url u text w).
Proof.
  unfold handle_url, session, handle_url_try, handle_url_except,
    handle_url_finally, check_url_info, check_url_info_try.
  only_tac.
Qed.

Lemma handle_url_try_never_completes u target w :
  whenever (fun o => forall n, o <> Completed n) (handle_url_try u target w).
Proof.
  unfold handle_url_try.
  repeat (first [ match goal with
                  | |- whenever _ (bindM (download_with_progress _ _ _ _ _) _) =>
                      eapply whenever_bind_with;
                      [apply download_never_uploads | intros ? ?]
                  end
                | whenever_step ]);
    try (intros n; discriminate).
  cbv beta in *.
  match goal with
  | H : forall n, ?r <> Uploaded n |- _ =>
      destruct r; intros n'; try discriminate; now elim (H bytes)
  end.
Qed.

(** X9. No submission ever gets a file to the chat: whatever the text, the
    world and the shared instance, [handle_url] makes no [send_*] call and
    does not end as completed. (The upload phase stops at its caption, on
    the unbound name [datetime].) *)
Theorem handle_url_never_sends
    (user_id : Z) (text : string) (w : World) (bot : FileUploadBot) :
  (forall t f d, ~ In (Upload t f d) (effects_of (handle_url user_id text w bot))) /\
  (forall n, returned (handle_url user_id text w bot) <> Ok (Completed n)).
Proof.
  split.
  - intros t f d Hin. pose proof (not_send_handle_url user_id text w bot) as Hq.
    unfold only in Hq. rewrite forallb_forall in Hq. now specialize (Hq _ Hin).
  - intros n. unfold handle_url.
    destruct (negb (valid_url (py_strip text))); [discriminate|].
    rewrite bind_get_bot. destruct (is_active user_id bot); [discriminate|].
    rewrite (returned_bind_ok (emit (Reply MsgAnalyzing)) _ bot tt eq_refl).
    match goal with
    | |- returned (bindM (set_active ?u) ?k ?b) <> _ =>
        rewrite (returned_bind_ok (set_active u) k b tt eq_refl)
    end.
    rewrite session_run. cbv zeta. rewrite returned_mk.
    match goal with
    | |- returned (bindM ?m ?k ?b) <> _ =>
        destruct (returned (m b)) as [o|e] eqn:Hc;
        [rewrite (returned_bind_ok _ _ _ _ Hc) | now rewrite (bindM_raise _ _ _ _ Hc)]
    end.
    rewrite (returned_bind_ok _ _ _ _ (serve_returns _ _)).
    intros [= ->].
    revert Hc. unfold catch.
    match goal with
    | |- context [handle_url_try ?u ?t ?w ?b] =>
        pose proof (handle_url_try_never_completes u t w b) as Hw;
        destruct (handle_url_try u t w b) as [[[o|e] b1] e1]
    end.
    + intros [= ->]. now apply (Hw (Completed n) eq_refl n).
    + pose proof (handle_url_except_returns e b1) as He.
      destruct (handle_url_except e b1) as [[r b2] e2].
      unfold returned in *. simpl in *. subst r. discriminate.
Qed.

End NoSend.

(** ** Progress without a declared size *)

Lemma returned_bind_raise {A B : Type} (m : M A) (k : A -> M B) bot e :
  returned (m bot) = Raise e -> returned (bindM m k bot) = Raise e.
Proof. intros Hr. now rewrite (bindM_raise _ _ _ _ Hr). Qed.

Section NoProgress.
Variables (info : Info) (filename : string) (ft : file_type)
  (user_id : Z) (w : World).
Hypothesis size_unknown : size info = None.

Lemma not_progress_progress_update start st loc :
  respects (only not_progress) (progress_update None start st loc).
Proof.
  intros bot. rewrite progress_update_unknown_total.
  now destruct (Qle_bool _ _).
Qed.

Hint Resolve not_progress_progress_update : only.

Lemma not_progress_stream_loop start todo :
  forall loc, respects (only not_progress) (stream_loop user_id None start todo loc).
Proof.
  induction todo as [|st todo IH]; intros loc; cbn [stream_loop]; [only_tac|].
  unfold loop_body, cancel_exit. only_tac.
Qed.

Hint Resolve not_progress_stream_loop : only.

Lemma not_progress_download :
  respects (only not_progress) (download_with_progress info filename ft user_id w).
Proof.
  unfold download_with_progress, after_loop, cancel_exit. rewrite size_unknown.
  unfold upload_phase, send_by_type, global_name. only_tac.
Qed.

Lemma loop_body_type_error start st loc bot :
  forallb (fun c => negb (cancels user_id c)) (step_presses st) = true ->
  cancel_requested user_id bot = false ->
  Qle_bool 2 (current_time st - last_update_time loc) = true ->
  returned (loop_body user_id None start st loc bot) = Raise TypeError.
Proof.
  unfold step_presses. rewrite forallb_app, andb_true_iff.
  intros [Hb Ha] Hflag Hdue. unfold loop_body.
  rewrite (returned_bind_ok _ _ _ _ (serve_returns _ _)), bind_get_bot,
    (serve_flag _ _ Hb), Hflag.
  rewrite (returned_bind_ok _ _ _ _ (serve_returns _ _)), bind_get_bot,
    (serve_flag _ _ Ha), (serve_flag _ _ Hb), Hflag.
  match goal with
  | |- returned (bindM ?m ?k ?b) = _ =>
      assert (Hr : returned (m b) = Raise TypeError)
        by (rewrite progress_update_unknown_total; cbn [last_update_time];
            now rewrite Hdue);
      now rewrite (bindM_raise _ _ _ _ Hr)
  end.
Qed.

(** X10. For a transfer whose size the probe did not learn, no progress
    message is ever sent; and when the first chunk comes two seconds or
    more after the start, with the owner's flag not set, the transfer
    ends with [TypeError] instead. *)
Theorem unknown_size_never_reports (bot : FileUploadBot) :
  (forall s, ~ In (EditStatus (MsgProgress s))
               (effects_of (download_with_progress info filename ft user_id w bot))) /\
  (forall st rest,
     stream_response w = Ok 200 ->
     steps w = st :: rest ->
     forallb (fun c => negb (cancels user_id c)) (step_presses st) = true ->
     cancel_requested user_id bot = false ->
     Qle_bool 2 (current_time st - first_update_time w) = true ->
     returned (download_with_progress info filename ft user_id w bot)
     = Raise TypeError).
Proof.
  split.
  - intros s Hin. pose proof (not_progress_download bot) as Hq.
    unfold only in Hq. rewrite forallb_forall in Hq. now specialize (Hq _ Hin).
  - intros st rest Hs Hsteps Hcalm Hflag Hdue.
    rewrite (download_run info filename ft user_id w bot Hs). cbv zeta.
    rewrite returned_mk, Hsteps. unfold first_loop. cbn [stream_loop].
    rewrite size_unknown.
    pose proof (loop_body_type_error (start_time w) st
                  (mkLocals [] 0 (first_update_time w)) bot Hcalm Hflag Hdue)
      as Hr.
    do 2 apply returned_bind_raise. exact Hr.
Qed.

End NoProgress.

Lemma unknown_size_never_reports_witness :
  returned (download_with_progress
              (mkInfo None "" "https://example.com/download") "file_0" document 7
              slow_chunk_world empty_bot)
  = Raise TypeError.
Proof.
  refine (proj2 (unknown_size_never_reports
                   (mkInfo None "" "https://example.com/download") "file_0"
                   document 7 slow_chunk_world eq_refl empty_bot)
            _ _ eq_refl eq_refl eq_refl eq_refl eq_refl).
Defined.

(** ** The count and the buffer *)

Section BufferFacts.
Variables (user_id : Z) (total_size : option Z) (start : Q).

Lemma loop_body_appends st loc :
  whenever (fun r => exists taken : bool,
              (fst r = Next -> taken = true) /\
              file_data (snd r)
              = file_data loc ++ (if taken then chunk st else []) /\
              downloaded (snd r)
              = downloaded loc
                + Z.of_nat (length (if taken then chunk st else [])))
           (loop_body user_id total_size start st loc).
Proof.
  unfold loop_body, cancel_exit.
  repeat (first [ match goal with
                  | |- whenever _ (bindM (progress_update _ _ _ _) _) =>
                      eapply whenever_bind_with;
                      [apply progress_update_keeps | intros ? [? ?]]
                  end
                | whenever_step ]);
    cbn [fst snd] in *.
  - exists false. cbn [app length]. rewrite app_nil_r, Z.add_0_r.
    split; [discriminate | now split].
  - exists true. split; [reflexivity | now split].
  - exists true. cbn [file_data downloaded] in *. split; [reflexivity | now split].
Qed.

Lemma stream_loop_prefix todo :
  forall loc,
    whenever (fun r => exists k,
                (k <= length todo)%nat /\
                (fst r = Next -> k = length todo) /\
                file_data (snd r)
                = file_data loc ++ concat (map chunk (firstn k todo)) /\
                downloaded (snd r)
                = downloaded loc
                  + Z.of_nat (length (concat (map chunk (firstn k todo)))))
             (stream_loop user_id total_size start todo loc).
Proof.
  induction todo as [|st todo IH]; intros loc; cbn [stream_loop].
  - apply whenever_ret. exists O. cbn. rewrite app_nil_r, Z.add_0_r. auto.
  - eapply whenever_bind_with; [apply loop_body_appends|].
    intros [[|] loc1] (taken & Hnext & Hf & Hd); cbn [fst snd] in *.
    + apply whenever_ret. cbn [fst snd]. destruct taken.
      * exists 1%nat. cbn [firstn map concat length]. rewrite app_nil_r.
        split; [lia|]. split; [discriminate | now split].
      * exists O. cbn [firstn map concat length].
        split; [lia|]. split; [discriminate | now split].
    + rewrite (Hnext eq_refl) in Hf, Hd.
      intros bot r Hr. destruct (IH loc1 bot r Hr) as (k & Hk & Hall & Hf' & Hd').
      exists (S k). cbn [firstn map concat length].
      rewrite Hf', Hd', Hf, Hd, length_app, <- app_assoc.
      split; [lia|]. split; [intros H; now rewrite (Hall H)|].
      split; [reflexivity | lia].
Qed.

End BufferFacts.

(** X11. However the loop over the chunks returns, the buffer is made of the
    first [k] chunks of the stream, whole, for some [k] (all of them when
    the loop ran to its end), and [downloaded] is the length of the
    buffer. *)
Theorem buffer_counts_whole_chunks
    (user_id : Z) (total_size : option Z) (start first_update : Q)
    (todo : list ChunkStep) (bot : FileUploadBot) (f : Flow) (loc' : Locals) :
  returned (stream_loop user_id total_size start todo
              (mkLocals [] 0 first_update) bot) = Ok (f, loc') ->
  exists k, (k <= length todo)%nat /\
    (f = Next -> k = length todo) /\
    file_data loc' = concat (map chunk (firstn k todo)) /\
    downloaded loc' = Z.of_nat (length (file_data loc')).
Proof.
  intros Hr.
  destruct (stream_loop_prefix user_id total_size start todo
              (mkLocals [] 0 first_update) bot (f, loc') Hr)
    as (k & Hk & Hall & Hf & Hd).
  cbn [fst snd file_data downloaded app] in *.
  exists k. rewrite Hf. repeat split; assumption.
Qed.

Lemma buffer_counts_whole_chunks_witness :
  exists k, (k <= 2)%nat /\
    (Return = Next -> k = 2%nat) /\
    repeat Byte.x00 3
    = concat (map chunk (firstn k [mkStep [] (repeat Byte.x00 3) [] 1%Q true;
                                   mkStep [mkClick 7 7] (repeat Byte.x01 3) []
                                          2%Q true])) /\
    3 = Z.of_nat (length (repeat Byte.x00 3)).
Proof.
  exact (buffer_counts_whole_chunks 7 (Some 6) 0%Q 0%Q
           [mkStep [] (repeat Byte.x00 3) [] 1%Q true;
            mkStep [mkClick 7 7] (repeat Byte.x01 3) [] 2%Q true]
           empty_bot Return (mkLocals (repeat Byte.x00 3) 3 0%Q) eq_refl).
Defined.

(** ** A flag set before the download starts *)

Lemma returned_bind_emit {B : Type} e (k : unit -> M B) bot :
  returned (bindM (emit e) k bot) = returned (k tt bot).
Proof. now rewrite (returned_bind_ok (emit e) k bot tt eq_refl). Qed.

Lemma returned_bind_serve {B : Type} cs (k : unit -> M B) bot :
  returned (bindM (serve cs) k bot) = returned (k tt (bot_after (serve cs bot))).
Proof. now rewrite (returned_bind_ok _ _ _ _ (serve_returns cs bot)). Qed.

Lemma serve_click_flag_kept user_id c bot :
  cancel_requested user_id bot = true ->
  cancel_requested user_id (bot_after (serve_click c bot)) = true.
Proof.
  intros Hflag.
  cbv [serve_click cancel_branch add_cancel del_active bot_after bindM
       get_bot put_bot emit ret fst snd].
  destruct (from_user c =? cancel_target c); [|exact Hflag].
  unfold cancel_requested in *. apply bool_decide_eq_true in Hflag.
  destruct (is_active _ _); cbv [fst snd]; apply bool_decide_eq_true; simpl;
    rewrite elem_of_union; now right.
Qed.

Lemma serve_flag_kept user_id cs :
  forall bot, cancel_requested user_id bot = true ->
    cancel_requested user_id (bot_after (serve cs bot)) = true.
Proof.
  induction cs as [|c cs IH]; intros bot Hflag; [exact Hflag|].
  simpl. destruct (always_serve_click c bot) as (t & Ht & _).
  rewrite (bot_after_bind_ok _ _ _ _ Ht). apply IH.
  now apply serve_click_flag_kept.
Qed.

(** X12. A cancel flag left set for an owner with no download (a press of an
    old cancel button) is not cleared when the next submission of that
    owner is admitted: as soon as the stream delivers a first chunk the
    transfer returns as cancelled, with nothing appended, and only then is
    the flag dropped. *)
Theorem pending_flag_cancels_next_download `{Lib : PyLib}
    (user_id : Z) (text : string) (w : World) (bot : FileUploadBot)
    (info : Info) (st : ChunkStep) (rest : list ChunkStep) :
  valid_url (py_strip text) = true ->
  is_active user_id bot = false ->
  cancel_requested user_id bot = true ->
  returned (check_url_info (py_strip text) w bot) = Ok (Some info) ->
  too_large (size info) = false ->
  stream_response w = Ok 200 ->
  steps w = st :: rest ->
  returned (handle_url user_id text w bot) = Ok (Cancelled 0) /\
  cancel_requested user_id (bot_after (handle_url user_id text w bot)) = false.
Proof.
  intros Hv Ha Hflag Hp Hl Hs Hsteps.
  rewrite (handle_url_admitted _ _ _ _ Hv Ha), returned_mk, bot_after_mk.
  split; [|apply session_releases].
  set (b1 := admitted user_id bot).
  assert (Hflag1 : cancel_requested user_id b1 = true) by exact Hflag.
  assert (Hp1 : returned (check_url_info (py_strip text) w b1) = Ok (Some info)).
  { now rewrite (check_url_info_run _ _ bot b1), returned_mk. }
  assert (Htry : returned (handle_url_try user_id (py_strip text) w b1)
                 = Ok (Cancelled 0)).
  { unfold handle_url_try. rewrite (returned_bind_ok _ _ _ _ Hp1).
    cbv beta iota. rewrite Hl.
    rewrite (check_url_info_run _ _ bot b1), bot_after_mk.
    rewrite !returned_bind_emit, returned_bind_serve.
    set (b2 := bot_after (serve (served_early w) b1)).
    assert (Hflag2 : cancel_requested user_id b2 = true)
      by now apply serve_flag_kept.
    match goal with
    | |- returned (bindM (download_with_progress ?i ?f ?t _ _) _ _) = _ =>
        destruct (download_cancelled_in_loop i f t user_id w b2
                    (mkLocals [] 0 (first_update_time w)) Hs) as [Hd _]
    end.
    - rewrite Hsteps. apply stream_loop_return, loop_body_cancel_before.
      now apply serve_flag_kept.
    - now rewrite (returned_bind_ok _ _ _ _ Hd). }
  rewrite session_run. cbv zeta. rewrite returned_mk.
  assert (Hc : returned (catch (handle_url_try user_id (py_strip text) w)
                           handle_url_except b1) = Ok (Cancelled 0)).
  { now rewrite (catch_ok _ _ _ _ Htry). }
  rewrite (returned_bind_ok _ _ _ _ Hc), returned_bind_serve. reflexivity.
Qed.

Lemma pending_flag_cancels_next_download_witness :
  returned (handle_url (Lib := Sample.sample_lib) 7 "https://example.com/a.bin"
              cancel_between_world (mkBot ∅ {[7]}))
  = Ok (Cancelled 0).
Proof.
  eapply (pending_flag_cancels_next_download (Lib := Sample.sample_lib)
            7 "https://example.com/a.bin" cancel_between_world (mkBot ∅ {[7]})
            (mkInfo (Some 16384) "" "https://example.com/a.bin"));
    reflexivity.
Defined.

(** ** One owner's submission and the other owners *)

Lemma untouched_nil v b : untouched v b [] b.
Proof. now split. Qed.

Lemma untouched_app v b1 e1 b2 e2 b3 :
  untouched v b1 e1 b2 -> untouched v b2 e2 b3 -> untouched v b1 (e1 ++ e2) b3.
Proof. unfold untouched. intros [H1 H1'] [H2 H2']. split; congruence. Qed.

Lemma untouched_emit v e : respects (untouched v) (emit e).
Proof. intros bot. now split. Qed.

Lemma cancel_requested_other v u (act : gmap Z bool) (can : gset Z) :
  u <> v ->
  cancel_requested v (mkBot act ({[u]} ∪ can)) = cancel_requested v (mkBot act can) /\
  cancel_requested v (mkBot act (can ∖ {[u]})) = cancel_requested v (mkBot act can).
Proof.
  intros Hne. unfold cancel_requested. split; apply bool_decide_ext; simpl.
  - rewrite elem_of_union, elem_of_singleton. intuition congruence.
  - rewrite elem_of_difference, elem_of_singleton. intuition congruence.
Qed.

Lemma untouched_set_active v u : u <> v -> respects (untouched v) (set_active u).
Proof.
  intros Hne bot. split; [|reflexivity]. simpl. now apply lookup_insert_ne.
Qed.

Lemma untouched_del_active v u : u <> v -> respects (untouched v) (del_active u).
Proof.
  intros Hne bot.
  cbv [untouched del_active bindM get_bot put_bot emit ret bot_after effects_of].
  destruct (is_active u bot); cbv [fst snd]; split; try reflexivity.
  simpl. now apply lookup_delete_ne.
Qed.

Lemma untouched_add_cancel v u : u <> v -> respects (untouched v) (add_cancel u).
Proof.
  intros Hne [act can]. split; [reflexivity|].
  apply (cancel_requested_other v u act can Hne).
Qed.

Lemma untouched_discard_cancel v u :
  u <> v -> respects (untouched v) (discard_cancel u).
Proof.
  intros Hne [act can]. split; [reflexivity|].
  apply (cancel_requested_other v u act can Hne).
Qed.

Ltac untouched_leaf :=
  first [ assumption
        | apply untouched_emit
        | apply untouched_set_active; assumption
        | apply untouched_del_active; assumption
        | apply untouched_add_cancel; assumption
        | apply untouched_discard_cancel; assumption
        | solve [auto with untouched] ].

Ltac untouched_tac := respects_all untouched_nil untouched_app untouched_leaf.

Lemma untouched_serve_click v c :
  cancels v c = false -> respects (untouched v) (serve_click c).
Proof.
  unfold cancels. intros Hc. unfold serve_click, cancel_branch.
  destruct (Z.eqb_spec (from_user c) (cancel_target c)) as [Heq|Hne].
  - assert (Hv : cancel_target c <> v).
    { intros <-. rewrite Heq, Z.eqb_refl in Hc. discriminate. }
    untouched_tac.
  - untouched_tac.
Qed.

Lemma untouched_serve v cs :
  forallb (fun c => negb (cancels v c)) cs = true ->
  respects (untouched v) (serve cs).
Proof.
  induction cs as [|c cs IH]; simpl; intros Hall.
  - untouched_tac.
  - apply andb_true_iff in Hall as [Hc Hcs]. apply negb_true_iff in Hc.
    pose proof (untouched_serve_click v c Hc). specialize (IH Hcs).
    untouched_tac.
Qed.

Create HintDb untouched.
#[local] Hint Resolve untouched_serve : untouched.

Section OtherOwners.
Context `{Lib : PyLib}.
Variables (u v : Z).
Hypothesis other : u <> v.

Lemma untouched_stream_loop total start todo :
  forallb (fun c => negb (cancels v c)) (flat_map step_presses todo) = true ->
  forall loc, respects (untouched v) (stream_loop u total start todo loc).
Proof.
  induction todo as [|st todo IH]; intros Hall loc; cbn [stream_loop].
  - untouched_tac.
  - cbn [flat_map] in Hall. unfold step_presses at 1 in Hall.
    rewrite !forallb_app, !andb_true_iff in Hall.
    destruct Hall as [[Hb Ha] Hrest]. specialize (IH Hrest).
    unfold loop_body, cancel_exit, progress_update. untouched_tac.
Qed.

Lemma untouched_handle_url text w :
  forallb (fun c => negb (cancels v c)) (presses w) = true ->
  respects (untouched v) (handle_url u text w).
Proof.
  unfold presses. rewrite !forallb_app, !andb_true_iff.
  intros (Hearly & Hsteps & Hend & Hlate).
  assert (Hloop : forall total start loc,
            respects (untouched v) (stream_loop u total start (steps w) loc))
    by (intros; now apply untouched_stream_loop).
  unfold handle_url, session, handle_url_try, handle_url_except,
    handle_url_finally, check_url_info, check_url_info_try,
    download_with_progress, after_loop, cancel_exit, upload_phase,
    send_by_type, global_name.
  untouched_tac.
Qed.

End OtherOwners.

(** X13. A submission of one owner leaves the entry and the cancel flag of any
    other owner as they were, on every path, as long as that other owner
    does not press their own cancel button meanwhile. *)
Theorem other_owners_untouched `{Lib : PyLib}
    (u v : Z) (text : string) (w : World) (bot : FileUploadBot) :
  u <> v ->
  forallb (fun c => negb (cancels v c)) (presses w) = true ->
  active_downloads (bot_after (handle_url u text w bot)) !! v
  = active_downloads bot !! v /\
  cancel_requested v (bot_after (handle_url u text w bot))
  = cancel_requested v bot.
Proof. intros Hne Hall. now apply untouched_handle_url. Qed.

Lemma other_owners_untouched_witness :
  active_downloads
    (bot_after (handle_url (Lib := Sample.sample_lib) 7
                  "https://example.com/a.bin" cancel_between_world
                  (mkBot {[9 := true]} {[9]}))) !! 9
  = Some true.
Proof.
  pose proof (other_owners_untouched (Lib := Sample.sample_lib) 7 9
                "https://example.com/a.bin" cancel_between_world
                (mkBot {[9 := true]} {[9]})) as H.
  destruct H as [H _]; [lia | reflexivity |].
  rewrite H. reflexivity.
Defined.

(** ** [info_command] and [handle_url] *)

Lemma fits_not_too_large declared : fits declared = negb (too_large declared).
Proof.
  unfold fits, too_large. destruct declared as [n|]; [|reflexivity].
  rewrite negb_andb, negb_involutive. f_equal.
  now rewrite Z.leb_antisym.
Qed.

Lemma drop7_upload_data target : drop7 (upload_callback_data target) = target.
Proof.
  unfold drop7, upload_callback_data. apply (append_inj_r "upload:"). symmetry.
  apply (prefix_split "upload:"), prefix_append.
Qed.

Lemma valid_url_info_url_ok t : valid_url t = true -> info_url_ok t = true.
Proof.
  intros (c & rest & _ & [-> | ->])%valid_url_shape; unfold info_url_ok,
    PyStr.startswith.
  - now rewrite prefix_append.
  - rewrite (prefix_append "https://"). apply orb_true_r.
Qed.

(** X14. [info_command] leaves the shared instance alone and shows the upload
    button exactly for the files that the size test of [handle_url] lets
    through; the data of the button gives the URL back to
    [handle_callback] ([data[7:]]), and every URL that [handle_url] takes
    is one that [info_command] takes. *)
Theorem info_command_button `{Lib : PyLib}
    (args : list string) (w : World) (bot : FileUploadBot) :
  bot_after (info_command args w bot) = bot /\
  (forall t, valid_url t = true -> info_url_ok t = true) /\
  (forall filename ft mime declared ready button,
     returned (info_command args w bot)
     = Ok (InfoCard filename ft mime declared ready button) ->
     ready = negb (too_large declared) /\
     (button = None <-> too_large declared = true) /\
     (forall data, button = Some data ->
        PyStr.startswith data "upload:" = true /\
        exists target rest, args = target :: rest /\ drop7 data = target)).
Proof.
  split; [|split; [exact valid_url_info_url_ok|]].
  - unfold info_command. destruct args as [|target rest]; [reflexivity|].
    destruct (negb (info_url_ok target)); [reflexivity|].
    destruct (check_url_info_returns target w bot) as (probed & effs & Hp).
    assert (Hr : returned (check_url_info target w bot) = Ok probed)
      by now rewrite Hp.
    rewrite (bot_after_bind_ok _ _ _ _ Hr), Hp, bot_after_mk.
    destruct probed as [info|]; [|reflexivity].
    unfold bindM, lift. now destruct (size_or_unknown (size info)).
  - intros filename ft mime declared ready button.
    unfold info_command. destruct args as [|target rest]; [discriminate|].
    destruct (negb (info_url_ok target)); [discriminate|].
    destruct (check_url_info_returns target w bot) as (probed & effs & Hp).
    assert (Hr : returned (check_url_info target w bot) = Ok probed)
      by now rewrite Hp.
    rewrite (returned_bind_ok _ _ _ _ Hr).
    destruct probed as [info|]; [|discriminate].
    unfold bindM at 1, lift at 1.
    destruct (size_or_unknown (size info)) as [shown|e]; [|discriminate].
    intros [= _ _ _ <- <- <-]. rewrite fits_not_too_large.
    split; [reflexivity|]. split.
    + destruct (too_large (size info)); simpl; split; try discriminate; reflexivity.
    + intros data. destruct (too_large (size info)); simpl; [discriminate|].
      intros [= <-]. split; [apply prefix_append|].
      exists target, rest. split; [reflexivity | apply drop7_upload_data].
Qed.

Lemma info_command_button_witness :
  false = negb (too_large (Some 3221225472)).
Proof.
  exact (proj1 (proj2 (proj2 (info_command_button (Lib := Sample.sample_lib)
                  ["https://example.com/big.iso"]
                  (mkWorld (Ok (mkResponse 200 (Some "3221225472") None
                                  "https://example.com/big.iso"))
                     (Raise NetworkError) 0 [] (Ok 200) 0%Q 0%Q [] None []
                     (Ok tt) 1%Q [])
                  empty_bot))
                "big.iso" document "" (Some 3221225472) false None eq_refl)).
Defined.

(** ** The failures of a submission *)

Lemma returned_catch_raise {A : Type} (m : M A) (h : exn -> M A) bot e :
  returned (m bot) = Raise e ->
  returned (catch m h bot) = returned (h e (bot_after (m bot))).
Proof.
  unfold returned, bot_after, catch. destruct (m bot) as [[r b] e1]; simpl.
  intros ->. now destruct (h e b) as [[r2 b2] e2].
Qed.

Lemma session_returned `{Lib : PyLib} user_id target w bot o :
  returned (catch (handle_url_try user_id target w) handle_url_except bot) = Ok o ->
  returned (session user_id target w bot) = Ok o.
Proof.
  intros Hc. rewrite session_run. cbv zeta. rewrite returned_mk.
  now rewrite (returned_bind_ok _ _ _ _ Hc), returned_bind_serve.
Qed.

(** X15. An admitted submission that cannot get the file ends as failed, never
    with an exception of the handler: with the probe failure when the
    probe returns nothing; with the HTTP status when the streaming request
    is answered with a status other than 200 (another success status
    included), no chunk being read; with the exception when the streaming
    request raises. *)
Theorem handle_url_failure_paths `{Lib : PyLib}
    (user_id : Z) (text : string) (w : World) (bot : FileUploadBot) :
  valid_url (py_strip text) = true ->
  is_active user_id bot = false ->
  let run := handle_url user_id text w bot in
  (returned (check_url_info (py_strip text) w bot) = Ok None ->
   returned run = Ok (Failed ProbeFailure)) /\
  (forall info status,
     returned (check_url_info (py_strip text) w bot) = Ok (Some info) ->
     too_large (size info) = false ->
     stream_response w = Ok status -> status <> 200 ->
     returned run = Ok (Failed (HttpStatus status))) /\
  (forall info e,
     returned (check_url_info (py_strip text) w bot) = Ok (Some info) ->
     too_large (size info) = false ->
     stream_response w = Raise e ->
     returned run = Ok (Failed (Exception e))).
Proof.
  intros Hv Ha run. subst run.
  rewrite (handle_url_admitted _ _ _ _ Hv Ha), returned_mk.
  set (b1 := admitted user_id bot).
  assert (Hprobe : forall r,
            returned (check_url_info (py_strip text) w bot) = Ok r ->
            returned (check_url_info (py_strip text) w b1) = Ok r).
  { intros r Hr. now rewrite (check_url_info_run _ _ bot b1), returned_mk. }
  split; [|split].
  - intros Hp. apply session_returned.
    rewrite (catch_ok _ _ _ (Failed ProbeFailure)); [|];
      unfold handle_url_try; rewrite (returned_bind_ok _ _ _ _ (Hprobe _ Hp));
      reflexivity.
  - intros info status Hp Hl Hs Hne. apply session_returned.
    assert (Htry : returned (handle_url_try user_id (py_strip text) w b1)
                   = Ok (Failed (HttpStatus status))).
    { unfold handle_url_try. rewrite (returned_bind_ok _ _ _ _ (Hprobe _ Hp)).
      cbv beta iota. rewrite Hl.
      rewrite !returned_bind_emit, returned_bind_serve.
      unfold download_with_progress.
      match goal with
      | |- returned (bindM (bindM (emit ?e) ?k1) ?k2 ?b) = _ =>
          assert (Hd : returned (bindM (emit e) k1 b) = Ok (HttpRefused status))
      end.
      { rewrite returned_bind_emit. unfold bindM at 1, lift at 1. rewrite Hs.
        apply Z.eqb_neq in Hne. rewrite Hne. reflexivity. }
      now rewrite (returned_bind_ok _ _ _ _ Hd). }
    now rewrite (catch_ok _ _ _ _ Htry).
  - intros info e Hp Hl Hs. apply session_returned.
    assert (Htry : returned (handle_url_try user_id (py_strip text) w b1)
                   = Raise e).
    { unfold handle_url_try. rewrite (returned_bind_ok _ _ _ _ (Hprobe _ Hp)).
      cbv beta iota. rewrite Hl.
      rewrite !returned_bind_emit, returned_bind_serve.
      apply returned_bind_raise. unfold download_with_progress.
      rewrite returned_bind_emit. apply returned_bind_raise.
      unfold lift, returned. now rewrite Hs. }
    rewrite (returned_catch_raise _ _ _ _ Htry).
    apply handle_url_except_returns.
Qed.

Lemma handle_url_failure_paths_witness :
  returned (handle_url (Lib := Sample.sample_lib) 7
              "https://example.com/missing.bin" refused_world empty_bot)
  = Ok (Failed (HttpStatus 404)).
Proof.
  refine (proj1 (proj2 (handle_url_failure_paths (Lib := Sample.sample_lib) 7
                          "https://example.com/missing.bin" refused_world
                          empty_bot eq_refl eq_refl))
            (mkInfo (Some 1234) "text/html" "https://example.com/missing.bin")
            404 eq_refl eq_refl eq_refl _).
  lia.
Defined.

Lemma handle_url_finally_idempotent_witness :
  active_downloads
    (bot_after (handle_url_finally 7 (mkBot {[7 := true; 9 := true]} {[7; 9]})))
    !! 9 = Some true.
Proof.
  pose proof (handle_url_finally_idempotent 7
                (mkBot {[7 := true; 9 := true]} {[7; 9]})) as [_ H].
  destruct (H 9) as [Hact _]; [lia|]. rewrite Hact. reflexivity.
Defined.

Lemma handle_url_never_sends_witness :
  returned (handle_url (Lib := Sample.sample_lib) 7
              "https://example.com/download" empty_body_world empty_bot)
  <> Ok (Completed 0).
Proof.
  exact (proj2 (handle_url_never_sends (Lib := Sample.sample_lib) 7
                  "https://example.com/download" empty_body_world empty_bot) 0).
Defined.

(** ** The size test and the text of the refusal *)

Lemma not_refusal_serve cs : respects (only not_refusal) (serve cs).
Proof.
  induction cs as [|c cs IH]; simpl.
  - only_tac.
  - unfold serve_click, cancel_branch. only_tac.
Qed.

Lemma not_refusal_check_url_info `{Lib : PyLib} target w :
  respects (only not_refusal) (check_url_info target w).
Proof. unfold check_url_info, check_url_info_try. only_tac. Qed.

Lemma not_refusal_handle_url_finally u :
  respects (only not_refusal) (handle_url_finally u).
Proof. unfold handle_url_finally. only_tac. Qed.

Lemma catch_raise_run {A : Type} (m : M A) (h : exn -> M A) bot e b effs :
  m bot = (Raise e, b, effs) ->
  catch m h bot
  = (returned (h e b), bot_after (h e b), effs ++ effects_of (h e b)).
Proof.
  intros Hm. unfold catch, returned, bot_after, effects_of. rewrite Hm.
  now destruct (h e b) as [[r b2] e2].
Qed.

Lemma quiet_all effs e :
  forallb quiet_effect effs = true -> In e effs ->
  is_stream e = false /\ is_upload e = false.
Proof.
  intros Hq Hin. rewrite forallb_forall in Hq. specialize (Hq _ Hin).
  unfold quiet_effect in Hq. now apply negb_true_iff, orb_false_elim in Hq.
Qed.

(** X16. Once the probe has returned a result, whose declared size, if any,
    has a float: the submission opens the streaming request exactly when
    the declared size is absent or at most [MAX_FILE_SIZE], which is
    2 GiB. With a declared size above 2 GiB that has a float, the handler
    edits the status to the size refusal and returns. With a declared size
    that has none ([float_limit] or more), the text of the refusal cannot
    be built: the handler reports "Upload failed" and ends as failed. In
    both cases no streaming request and no upload is made. *)
Theorem size_limit_within_float_range `{Lib : PyLib}
    (user_id : Z) (text : string) (w : World) (bot : FileUploadBot)
    (info : Info) :
  valid_url (py_strip text) = true ->
  is_active user_id bot = false ->
  returned (check_url_info (py_strip text) w bot) = Ok (Some info) ->
  let run := handle_url user_id text w bot in
  MAX_FILE_SIZE = 2147483648 /\
  ((forall n, size info = Some n -> Z.abs n < float_limit) ->
   (In (HttpStream (url info)) (effects_of run) <->
    size info = None \/ exists n, size info = Some n /\ n <= MAX_FILE_SIZE)) /\
  (forall n, size info = Some n -> MAX_FILE_SIZE < n -> n < float_limit ->
     returned run = Ok Rejected /\
     In (EditStatus (MsgTooLarge n)) (effects_of run) /\
     forall e, In e (effects_of run) -> is_stream e = false /\ is_upload e = false) /\
  (forall n, size info = Some n -> float_limit <= n ->
     returned run = Ok (Failed (Exception OverflowError)) /\
     In (EditStatus (MsgUploadFailed OverflowError)) (effects_of run) /\
     (forall m, ~ In (EditStatus (MsgTooLarge m)) (effects_of run)) /\
     forall e, In e (effects_of run) -> is_stream e = false /\ is_upload e = false).
Proof.
  intros Hv Ha Hp run. split; [reflexivity|].
  set (b1 := admitted user_id bot).
  assert (Hp1 : returned (check_url_info (py_strip text) w b1) = Ok (Some info)).
  { now rewrite (check_url_info_run _ _ bot b1), returned_mk. }
  assert (Hrun : run
    = (returned (session user_id (py_strip text) w b1),
       bot_after (session user_id (py_strip text) w b1),
       Reply MsgAnalyzing :: RegistryInsert user_id ::
       effects_of (session user_id (py_strip text) w b1)))
    by now apply handle_url_admitted.
  assert (Hquiet : forall tail,
    forallb quiet_effect tail = true ->
    forallb quiet_effect
      (Reply MsgAnalyzing :: RegistryInsert user_id ::
       ((effects_of (check_url_info (py_strip text) w b1) ++ tail)
        ++ effects_of (serve (served_late w) b1) ++ [])
       ++ effects_of (handle_url_finally user_id
                        (bot_after (serve (served_late w) b1)))) = true).
  { intros tail Ht. cbn [forallb]. rewrite !forallb_app. cbn [forallb].
    rewrite (quiet_check_url_info _ w b1), Ht.
    rewrite (quiet_serve (served_late w) b1).
    rewrite (quiet_handle_url_finally user_id _).
    reflexivity. }
  assert (Hlarge : forall n, size info = Some n -> MAX_FILE_SIZE < n ->
    n < float_limit ->
    returned run = Ok Rejected /\
    In (EditStatus (MsgTooLarge n)) (effects_of run) /\
    forall e, In e (effects_of run) -> is_stream e = false /\ is_upload e = false).
  { intros n Hs Hgt Hfl. rewrite Hrun, returned_mk, effects_of_mk.
    rewrite session_run. cbv zeta. rewrite returned_mk, effects_of_mk.
    pose proof (handle_url_try_large user_id _ w b1 info n Hp1 Hs Hgt Hfl) as Htry.
    assert (Hc : catch (handle_url_try user_id (py_strip text) w)
                   handle_url_except b1
                 = (Ok Rejected, b1,
                    effects_of (check_url_info (py_strip text) w b1)
                    ++ [EditStatus (MsgTooLarge n)])).
    { rewrite (catch_ok _ _ _ Rejected); [exact Htry | now rewrite Htry]. }
    assert (Hc' : returned (catch (handle_url_try user_id (py_strip text) w)
                   handle_url_except b1) = Ok Rejected) by now rewrite Hc.
    rewrite (bindM_ok _ _ _ _ Hc'), returned_mk, effects_of_mk, bot_after_mk.
    rewrite (bindM_ok _ _ _ _ (serve_returns _ _)), returned_mk, effects_of_mk,
      bot_after_mk.
    rewrite Hc, effects_of_mk, bot_after_mk.
    split; [reflexivity|]. split.
    - right. right. apply in_or_app. left. apply in_or_app. left.
      apply in_or_app. right. now left.
    - intros e. apply quiet_all. now apply Hquiet. }
  assert (Hover : forall n, size info = Some n -> float_limit <= n ->
    returned run = Ok (Failed (Exception OverflowError)) /\
    In (EditStatus (MsgUploadFailed OverflowError)) (effects_of run) /\
    (forall m, ~ In (EditStatus (MsgTooLarge m)) (effects_of run)) /\
    forall e, In e (effects_of run) -> is_stream e = false /\ is_upload e = false).
  { intros n Hs Hfl. rewrite Hrun, returned_mk, effects_of_mk.
    rewrite session_run. cbv zeta. rewrite returned_mk, effects_of_mk.
    pose proof (handle_url_try_overflow user_id _ w b1 info n Hp1 Hs Hfl) as Htry.
    assert (Hc : catch (handle_url_try user_id (py_strip text) w)
                   handle_url_except b1
                 = (Ok (Failed (Exception OverflowError)), b1,
                    effects_of (check_url_info (py_strip text) w b1)
                    ++ [LogError OverflowError;
                        EditStatus (MsgUploadFailed OverflowError)])).
    { now rewrite (catch_raise_run _ _ _ _ _ _ Htry). }
    assert (Hc' : returned (catch (handle_url_try user_id (py_strip text) w)
                   handle_url_except b1) = Ok (Failed (Exception OverflowError)))
      by now rewrite Hc.
    rewrite (bindM_ok _ _ _ _ Hc'), returned_mk, effects_of_mk, bot_after_mk.
    rewrite (bindM_ok _ _ _ _ (serve_returns _ _)), returned_mk, effects_of_mk,
      bot_after_mk.
    rewrite Hc, effects_of_mk, bot_after_mk.
    split; [reflexivity|]. split; [|split].
    - right. right. apply in_or_app. left. apply in_or_app. left.
      apply in_or_app. right. right. now left.
    - intros m Hin.
      assert (Hnot : forallb not_refusal
        (Reply MsgAnalyzing :: RegistryInsert user_id ::
         ((effects_of (check_url_info (py_strip text) w b1)
           ++ [LogError OverflowError; EditStatus (MsgUploadFailed OverflowError)])
          ++ effects_of (serve (served_late w) b1) ++ [])
         ++ effects_of (handle_url_finally user_id
                          (bot_after (serve (served_late w) b1)))) = true).
      { cbn [forallb]. rewrite !forallb_app. cbn [forallb].
        rewrite (not_refusal_check_url_info _ w b1).
        rewrite (not_refusal_serve (served_late w) b1).
        rewrite (not_refusal_handle_url_finally user_id _).
        reflexivity. }
      rewrite forallb_forall in Hnot. specialize (Hnot _ Hin). discriminate Hnot.
    - intros e. apply quiet_all. now apply Hquiet. }
  split; [|split; [exact Hlarge | exact Hover]].
  intros Hfloat. split.
  - intros Hin. destruct (size info) as [n|] eqn:Hs; [|now left]. right.
    exists n. split; [reflexivity|].
    destruct (Z.le_gt_cases n MAX_FILE_SIZE) as [Hle|Hgt]; [exact Hle|].
    exfalso. specialize (Hfloat n eq_refl).
    destruct (Hlarge n eq_refl Hgt ltac:(lia)) as (_ & _ & Hno).
    now destruct (Hno _ Hin).
  - intros Hsz.
    assert (Hl : too_large (size info) = false).
    { destruct (too_large (size info)) eqn:Hl; [|reflexivity].
      apply too_large_spec in Hl as (n & Hn & Hgt).
      destruct Hsz as [Hnone | (m & Hm & Hle)]; [congruence|].
      rewrite Hn in Hm. injection Hm as <-. lia. }
    rewrite Hrun, effects_of_mk. right. right.
    rewrite session_run. cbv zeta. rewrite effects_of_mk.
    apply in_or_app. left. apply In_bind_l, In_catch_l.
    now apply handle_url_try_streams.
Qed.

Lemma size_limit_within_float_range_witness :
  returned
    (handle_url (Lib := Sample.sample_lib) 7 "https://example.com/big.iso"
       (mkWorld (Ok (mkResponse 200 (Some "3221225472") None
                       "https://example.com/big.iso"))
          (Raise NetworkError) 0 [] (Ok 200) 0%Q 0%Q [] None [] (Ok tt) 1%Q [])
       empty_bot) = Ok Rejected /\
  returned
    (handle_url (Lib := Sample.sample_lib) 7 "https://example.com/big.iso"
       huge_size_world empty_bot) = Ok (Failed (Exception OverflowError)).
Proof.
  split.
  - refine (proj1 (proj1 (proj2 (proj2
              (size_limit_within_float_range (Lib := Sample.sample_lib) 7
                 "https://example.com/big.iso"
                 (mkWorld (Ok (mkResponse 200 (Some "3221225472") None
                                 "https://example.com/big.iso"))
                    (Raise NetworkError) 0 [] (Ok 200) 0%Q 0%Q [] None []
                    (Ok tt) 1%Q [])
                 empty_bot
                 (mkInfo (Some 3221225472) "" "https://example.com/big.iso")
                 eq_refl eq_refl eq_refl)))
              3221225472 eq_refl _ _)).
    + reflexivity.
    + reflexivity.
  - refine (proj1 (proj2 (proj2 (proj2
              (size_limit_within_float_range (Lib := Sample.sample_lib) 7
                 "https://example.com/big.iso" huge_size_world empty_bot
                 (mkInfo (Some (2 * 10 ^ 308)) "" "https://example.com/big.iso")
                 eq_refl eq_refl _)))
              (2 * 10 ^ 308) eq_refl _)).
    + vm_compute. reflexivity.
    + apply Z.leb_le. vm_compute. reflexivity.
Defined.

(** X17. [info_command] on a file whose declared size has no float: the
    card cannot be built, and the exception of [format_file_size] is the
    exception of the handler, after the probe and with the shared instance
    as it was. Below that, the card of a file always comes. *)
Theorem info_command_size_text `{Lib : PyLib}
    (target : string) (rest : list string) (w : World) (bot : FileUploadBot)
    (info : Info) :
  info_url_ok target = true ->
  returned (check_url_info target w bot) = Ok (Some info) ->
  (forall n, size info = Some n -> float_limit <= Z.abs n ->
     info_command (target :: rest) w bot
     = (Raise OverflowError, bot, effects_of (check_url_info target w bot))) /\
  ((forall n, size info = Some n -> Z.abs n < float_limit) ->
   exists filename ft button,
     returned (info_command (target :: rest) w bot)
     = Ok (InfoCard filename ft (content_type info) (size info)
             (fits (size info)) button)).
Proof.
  intros Hok Hp. unfold info_command. rewrite Hok. cbn [negb].
  rewrite (bindM_ok _ _ _ _ Hp). cbv beta iota.
  rewrite (check_url_info_run target w bot bot), bot_after_mk, effects_of_mk,
    returned_mk.
  split.
  - intros n Hs Hfl. unfold bindM, lift, size_or_unknown. rewrite Hs.
    assert (Hn : n <> 0).
    { intros ->. revert Hfl. apply Z.lt_nge. reflexivity. }
    destruct (Z.eqb_spec n 0) as [|_]; [contradiction|].
    rewrite (format_file_size_overflow n Hn Hfl). cbn. now rewrite app_nil_r.
  - intros Hfloat. unfold bindM, lift, size_or_unknown.
    destruct (size info) as [n|] eqn:Hs; [|cbn; eauto].
    destruct (n =? 0); [cbn; eauto|].
    destruct (format_file_size_finite n (Hfloat n eq_refl)) as [shown ->].
    cbn. eauto.
Qed.

Lemma info_command_size_text_witness :
  info_command (Lib := Sample.sample_lib) ["https://example.com/big.iso"]
    huge_size_world empty_bot
  = (Raise OverflowError, empty_bot, [HttpHead "https://example.com/big.iso"]).
Proof.
  refine (proj1 (info_command_size_text (Lib := Sample.sample_lib)
                   "https://example.com/big.iso" [] huge_size_world empty_bot
                   (mkInfo (Some (2 * 10 ^ 308)) "" "https://example.com/big.iso")
                   eq_refl _)
            (2 * 10 ^ 308) eq_refl _).
  - vm_compute. reflexivity.
  - apply Z.leb_le. vm_compute. reflexivity.
Defined.
